(** * shieldmovies: a verification model of [js/home.js]

    The page script fetches trending titles from TMDB, renders poster
    lists, drives a details modal with an embedded player and a search
    overlay.  This development embeds the script function by function and
    proves the behaviour the specification states about it.

    Conventions of the embedding.

    - A JavaScript string is modelled by its UTF-8 encoding, a Rocq
      [string] of bytes (the encoding the source file itself is saved in);
      a surrogate without its partner is the three bytes that UTF-8,
      generalised to such code points, gives it (ED A0..BF xx).
    - A JavaScript number is modelled by a rational [Q]: every finite
      double is one, [x / 2] is exact on doubles (up to underflow, which
      [Math.round] sends to 0 either way) and [Math.round] is defined on
      the exact value.  [NaN] is a separate constructor; the infinities
      do not occur, since JSON has none and the script only halves,
      rounds and subtracts.
    - An item is a record of the fields the script reads.  A field that
      holds a string may also be absent or [null], and its truthiness is
      the one of JavaScript: the empty string counts as absent.
    - The page is a record [Page.t]: the selection variable, the rendered
      children of each container element (a finite map from element id,
      since [document.getElementById] may return [null]), the string
      properties the script assigns or reads (a finite map from element
      id and property name), and the requests issued so far.
    - [async] functions run in a state-and-exception monad over the page;
      the network is a function from the requested URL to the outcome of
      the request, so the order in which concurrent requests settle does
      not matter for the results.  A handler runs without interruption
      up to an await; [searchTMDB], which writes to the page after its
      awaits, is also given stage by stage, with what other handlers do
      to the page while it waits as a parameter.
    - The elements the script reaches without a null check (the banner,
      the modal and its parts, the search input) are taken to exist, as
      the markup of the page provides them. *)

From Stdlib Require Import QArith Qround Qpower Lqa Ascii String.
From stdpp Require Import gmap strings list fin_maps pretty.

Open Scope string_scope.
Open Scope list_scope.
Open Scope Z_scope.

(** ** JavaScript values used by the script *)

Module Js.

(** A property that holds a string when it is present: [undefined]
    (absent), [null], or a string. *)
Inductive field : Type :=
| Undefined
| Null
| Str (s : string).

(** ToBoolean: [undefined], [null] and the empty string are falsy. *)
Definition truthy (f : field) : bool :=
  match f with
  | Str s => negb (String.eqb s "")
  | _ => false
  end.

(** [a || b] evaluates to [a] when [a] is truthy and to [b] otherwise. *)
Definition or_else (a b : field) : field :=
  if truthy a then a else b.

(** [a === 'lit'] for a string literal. *)
Definition strict_eq (a : field) (lit : string) : bool :=
  match a with
  | Str s => String.eqb s lit
  | _ => false
  end.

(** ToString, as performed by a template literal. *)
Definition to_string (f : field) : string :=
  match f with
  | Undefined => "undefined"
  | Null => "null"
  | Str s => s
  end.

(** Conversion to a nullable DOM string ([textContent]): [undefined]
    and [null] both give the empty text. *)
Definition to_text (f : field) : string :=
  match f with
  | Str s => s
  | _ => ""
  end.

(** Numbers: a finite value or [NaN]. *)
Inductive number : Type :=
| NaN
| Num (q : Q).

(** ToNumber of a numeric property that may be absent. *)
Definition to_number (v : option Q) : number :=
  match v with
  | Some q => Num q
  | None => NaN
  end.

(** [x / 2]. *)
Definition half (x : number) : number :=
  match x with
  | Num a => Num (a / 2)%Q
  | NaN => NaN
  end.

(** [x - y]. *)
Definition sub (x y : number) : number :=
  match x, y with
  | Num a, Num b => Num (a - b)%Q
  | _, _ => NaN
  end.

(** [Math.round]: the nearest integer, ties towards positive infinity. *)
Definition round (x : number) : number :=
  match x with
  | NaN => NaN
  | Num q => Num (inject_Z (Qfloor (q + (1 # 2))%Q))
  end.

(** ToIntegerOrInfinity: [NaN] becomes 0, other values are truncated
    towards zero. *)
Definition to_integer (x : number) : Z :=
  match x with
  | NaN => 0
  | Num q => if Qle_bool 0 q then Qfloor q else Qceiling q
  end.

(** Errors a call of the script can raise. *)
Inductive exn : Type :=
| RangeError
| TypeError
| NetworkFailure
| HttpError (status : Z)
| SyntaxError
| URIError.

Inductive completion (A : Type) : Type :=
| Return (a : A)
| Throw (e : exn).
Arguments Return {A} a.
Arguments Throw {A} e.

Fixpoint repeat_string (s : string) (n : nat) : string :=
  match n with
  | O => ""
  | S k => s +:+ repeat_string s k
  end.

(** [s.repeat(count)]: a negative count is a RangeError. *)
Definition repeat (s : string) (count : number) : completion string :=
  let n := to_integer count in
  if n <? 0 then Throw RangeError
  else Return (repeat_string s (Z.to_nat n)).

(** *** Strings as bytes *)

Definition code (c : ascii) : N := N_of_ascii c.

Definition bytes (l : list N) : string :=
  string_of_list_ascii (map ascii_of_N l).

(** The code points [String.prototype.trim] strips (WhiteSpace and
    LineTerminator of ECMAScript), each in UTF-8: TAB, LF, VT, FF, CR,
    SP, U+00A0, U+1680, U+2000 to U+200A, U+2028, U+2029, U+202F,
    U+205F, U+3000 and U+FEFF. *)
Definition white_space : list string :=
  map bytes
    [ [9]; [10]; [11]; [12]; [13]; [32]; [0xC2; 0xA0]; [0xE1; 0x9A; 0x80];
      [0xE2; 0x80; 0x80]; [0xE2; 0x80; 0x81]; [0xE2; 0x80; 0x82];
      [0xE2; 0x80; 0x83]; [0xE2; 0x80; 0x84]; [0xE2; 0x80; 0x85];
      [0xE2; 0x80; 0x86]; [0xE2; 0x80; 0x87]; [0xE2; 0x80; 0x88];
      [0xE2; 0x80; 0x89]; [0xE2; 0x80; 0x8A]; [0xE2; 0x80; 0xA8];
      [0xE2; 0x80; 0xA9]; [0xE2; 0x80; 0xAF]; [0xE2; 0x81; 0x9F];
      [0xE3; 0x80; 0x80]; [0xEF; 0xBB; 0xBF] ]%N.

Definition is_ws1 (a : ascii) : bool :=
  existsb (String.eqb (String a "")) white_space.

Definition is_ws2 (a b : ascii) : bool :=
  existsb (String.eqb (String a (String b ""))) white_space.

Definition is_ws3 (a b c : ascii) : bool :=
  existsb (String.eqb (String a (String b (String c "")))) white_space.

(** Strips the white space at the front of [s], one code point (of one,
    two or three bytes) at a time. *)
Fixpoint trimStart (s : string) : string :=
  match s with
  | "" => ""
  | String a s1 =>
      if is_ws1 a then trimStart s1
      else match s1 with
           | String b s2 =>
               if is_ws2 a b then trimStart s2
               else match s2 with
                    | String c s3 =>
                        if is_ws3 a b c then trimStart s3 else s
                    | "" => s
                    end
           | "" => s
           end
  end.

(** The same from the back, on the reversed bytes. *)
Fixpoint trimStart_rev (s : string) : string :=
  match s with
  | "" => ""
  | String a s1 =>
      if is_ws1 a then trimStart_rev s1
      else match s1 with
           | String b s2 =>
               if is_ws2 b a then trimStart_rev s2
               else match s2 with
                    | String c s3 =>
                        if is_ws3 c b a then trimStart_rev s3 else s
                    | "" => s
                    end
           | "" => s
           end
  end.

Definition trimEnd (s : string) : string :=
  String.rev (trimStart_rev (String.rev s)).

(** [s.trim()]. *)
Definition trim (s : string) : string := trimEnd (trimStart s).

(** A string is truthy unless it is empty. *)
Definition nonempty (s : string) : bool := negb (String.eqb s "").

(** Characters [encodeURIComponent] leaves as they are. *)
Definition unreserved (c : ascii) : bool :=
  let n := code c in
  ((65 <=? n) && (n <=? 90) || (97 <=? n) && (n <=? 122)
   || (48 <=? n) && (n <=? 57)
   || existsb (N.eqb n) [45; 95; 46; 33; 126; 42; 39; 40; 41])%N.

Definition hex_digit (n : N) : ascii :=
  ascii_of_N (if (n <? 10)%N then 48 + n else 55 + n)%N.

(** The text [encodeURIComponent] gives for a string it accepts: every
    byte of the UTF-8 encoding that is not unreserved becomes [%XX].  The
    built-in throws on a lone surrogate, for which UTF-8 has no bytes:
    that is [encode_component] below, which the stages of the search
    use. *)
Fixpoint encodeURIComponent (s : string) : string :=
  match s with
  | "" => ""
  | String c rest =>
      if unreserved c then String c (encodeURIComponent rest)
      else String "%" (String (hex_digit (code c / 16)%N)
             (String (hex_digit (code c mod 16)%N)
                (encodeURIComponent rest)))
  end.

(** *** Lone surrogates *)

(** A surrogate that is not part of a pair shows as the byte ED followed
    by a byte from A0 on: in well-formed UTF-8 the byte after ED is at
    most 9F, and a pair of surrogates is one code point of four bytes. *)
Fixpoint has_lone_surrogate (s : string) : bool :=
  match s with
  | String a rest =>
      match rest with
      | String b _ =>
          ((code a =? 0xED) && (0xA0 <=? code b))%N || has_lone_surrogate rest
      | "" => false
      end
  | "" => false
  end.

(** [encodeURIComponent(s)] as the built-in runs: a URIError for a
    string with a lone surrogate, the percent-encoding otherwise. *)
Definition encode_component (s : string) : completion string :=
  if has_lone_surrogate s then Throw URIError
  else Return (encodeURIComponent s).

(** *** Rounding to a double *)

(** Rounding to the nearest integer, ties to the even one. *)
Definition round_half_even (z : Q) : Z :=
  let f := Qfloor z in
  match (z - inject_Z f ?= 1 # 2)%Q with
  | Lt => f
  | Gt => f + 1
  | Eq => if Z.even f then f else f + 1
  end.

(** The exponent [e] with [2^e <= x < 2^(e+1)], for a positive [x]. *)
Definition binade (x : Q) : Z :=
  let e := Z.log2 (Qnum x) - Z.log2 (Zpos (Qden x)) in
  if Qle_bool (2 ^ e) x then e else e - 1.

(** A positive real rounded to 53 significant bits, ties to even. *)
Definition round_significand (x : Q) : Q :=
  let ulp := (2 ^ (binade x - 52))%Q in
  (inject_Z (round_half_even (x / ulp)) * ulp)%Q.

(** The double nearest to a real, ties to even.  The range of the
    exponent is not modelled: no overflow, and below 2^-1022 the result
    keeps 53 bits where a double has fewer; the script only multiplies a
    value below 1 by an array length and takes the floor, which is 0 down
    there either way. *)
Definition nearest_double (x : Q) : Q :=
  match (x ?= 0)%Q with
  | Gt => round_significand x
  | Lt => (- round_significand (- x))%Q
  | Eq => 0%Q
  end.

(** [x * y] on doubles. *)
Definition mul (x y : Q) : Q := nearest_double (x * y).

End Js.

Import Js.

(** ** Data model *)

(** A media item of the TMDB payload. *)
Module Item.
Record t : Type := make {
  id : Z;
  title : field;
  name : field;
  overview : field;
  poster_path : field;
  backdrop_path : field;
  vote_average : option Q;
  genre_ids : option (list Z);
  original_language : field;
  media_type : field
}.
End Item.

(** The parsed JSON of a response: [results] may be missing. *)
Record Body : Type := { results : option (list Item.t) }.

(** A settled response: its HTTP status and its body, [None] when the
    body is not JSON. *)
Record Response : Type := { status : Z; body : option Body }.

(** [response.ok]: the status is in the range 200-299. *)
Definition ok (r : Response) : bool :=
  (200 <=? status r) && (status r <=? 299).

(** The network answers a URL with a response, or fails ([None]). *)
Definition Network : Type := string → option Response.

Module API_CONFIG.
Definition KEY : string := "420dd26414b8bcb319a5d49051b6ac25".
Definition BASE_URL : string := "https://api.themoviedb.org/3".
Definition IMG_URL : string := "https://image.tmdb.org/t/p/original".
End API_CONFIG.

(** What activating a poster does. *)
Inductive Action : Type :=
| ShowDetails (item : Item.t)
| CloseSearchThenShowDetails (item : Item.t).

(** An [img] element as the script builds it. *)
Record Img : Type := {
  src : string;
  alt : string;
  classList : list string;
  role : string;
  tabindex : string;
  onclick : Action;
  onkeydown : string → option Action
}.

(** A child of a container: an element appended by the script, or markup
    assigned through [innerHTML]. *)
Inductive Node : Type :=
| Element (img : Img)
| Markup (html : string).

Module Page.
Record t : Type := make {
  currentItem : option Item.t;
  children : gmap string (list Node);
  properties : gmap (string * string) string;
  requests : list string;
  console_errors : list (string * exn);
  window_handlers : list string
}.

Definition set_currentItem (v : option Item.t) (p : t) : t :=
  make v (children p) (properties p) (requests p) (console_errors p)
    (window_handlers p).

Definition set_children (v : gmap string (list Node)) (p : t) : t :=
  make (currentItem p) v (properties p) (requests p) (console_errors p)
    (window_handlers p).

Definition set_properties (v : gmap (string * string) string) (p : t) : t :=
  make (currentItem p) (children p) v (requests p) (console_errors p)
    (window_handlers p).

Definition set_requests (v : list string) (p : t) : t :=
  make (currentItem p) (children p) (properties p) v (console_errors p)
    (window_handlers p).

Definition set_console_errors (v : list (string * exn)) (p : t) : t :=
  make (currentItem p) (children p) (properties p) (requests p) v
    (window_handlers p).

Definition set_window_handlers (v : list string) (p : t) : t :=
  make (currentItem p) (children p) (properties p) (requests p)
    (console_errors p) v.
End Page.

(** ** The monad of the script: page state and exceptions *)

Definition M (A : Type) : Type := Page.t → completion A * Page.t.

Definition ret {A} (a : A) : M A := fun p => (Return a, p).

Definition bind {A B} (m : M A) (k : A → M B) : M B :=
  fun p =>
    match m p with
    | (Return a, p') => k a p'
    | (Throw e, p') => (Throw e, p')
    end.

Definition throw {A} (e : exn) : M A := fun p => (Throw e, p).

(** [try { m } catch (error) { handler error }]: the effects of [m] up
    to the throw stay. *)
Definition try_catch {A} (m : M A) (handler : exn → M A) : M A :=
  fun p =>
    match m p with
    | (Return a, p') => (Return a, p')
    | (Throw e, p') => handler e p'
    end.

Definition modify (f : Page.t → Page.t) : M unit :=
  fun p => (Return tt, f p).

Definition lift {A} (c : completion A) : M A := fun p => (c, p).

Notation "'let!' x ':=' c1 'in' c2" := (bind c1 (fun x => c2))
  (at level 10, x name, c1 at level 100, c2 at level 200).
Notation "c1 ;; c2" := (bind c1 (fun _ => c2))
  (at level 100, c2 at level 200, right associativity).

(** [array.forEach(f)]. *)
Fixpoint forEach {A} (l : list A) (f : A → M unit) : M unit :=
  match l with
  | [] => ret tt
  | x :: rest => f x ;; forEach rest f
  end.

(** ** DOM access *)

(** The page with [value] assigned to a property. *)
Definition with_prop (element property value : string) (p : Page.t) : Page.t :=
  Page.set_properties (<[(element, property) := value]> (Page.properties p)) p.

(** The page with [nodes] as the children of a container. *)
Definition with_children (id : string) (nodes : list Node) (p : Page.t) : Page.t :=
  Page.set_children (<[id := nodes]> (Page.children p)) p.

(** Assignment of a string property of an element of the page. *)
Definition set_prop (element property value : string) : M unit :=
  modify (with_prop element property value).

(** The value of a string property; the empty string when it was never
    set. *)
Definition read_prop (p : Page.t) (element property : string) : string :=
  default "" (Page.properties p !! (element, property)).

Definition get_prop (element property : string) : M string :=
  fun p => (Return (read_prop p element property), p).

(** [document.getElementById(id)] for a container: is it there? *)
Definition getElementById (id : string) : M bool :=
  fun p => (Return (bool_decide (is_Some (Page.children p !! id))), p).

(** The children a markup string parses to: none for the empty string. *)
Definition parse_html (html : string) : list Node :=
  if nonempty html then [Markup html] else [].

(** [container.innerHTML = html]; a TypeError when the container is
    [null]. *)
Definition set_innerHTML (id html : string) : M unit :=
  fun p =>
    match Page.children p !! id with
    | None => (Throw TypeError, p)
    | Some _ => (Return tt, with_children id (parse_html html) p)
    end.

(** [container.appendChild(node)]. *)
Definition appendChild (id : string) (node : Node) : M unit :=
  fun p =>
    match Page.children p !! id with
    | None => (Throw TypeError, p)
    | Some nodes => (Return tt, with_children id (nodes ++ [node]) p)
    end.

(** [container.children.length]. *)
Definition children_length (id : string) : M nat :=
  fun p =>
    match Page.children p !! id with
    | None => (Throw TypeError, p)
    | Some nodes => (Return (length nodes), p)
    end.

(** [console.error(label, error)]. *)
Definition console_error (label : string) (error : exn) : M unit :=
  modify (fun p =>
    Page.set_console_errors (Page.console_errors p ++ [(label, error)]) p).

(** ** The script *)

Section Script.

(** The network the page talks to. *)
Variable net : Network.

(** [await fetch(url)]: the request is issued; a transport failure
    rejects. *)
Definition fetch (url : string) : M Response :=
  fun p =>
    let p' := Page.set_requests (Page.requests p ++ [url]) p in
    match net url with
    | None => (Throw NetworkFailure, p')
    | Some response => (Return response, p')
    end.

(** [await response.json()]. *)
Definition json (response : Response) : M Body :=
  match body response with
  | None => throw SyntaxError
  | Some data => ret data
  end.

(** Calling an array method on [data.results]: a TypeError when it is
    [undefined]. *)
Definition array_of (r : option (list Item.t)) : M (list Item.t) :=
  match r with
  | None => throw TypeError
  | Some items => ret items
  end.

(** *** API fetching functions *)

Definition trending_url (type : string) : string :=
  API_CONFIG.BASE_URL +:+ "/trending/" +:+ type +:+ "/week?api_key="
    +:+ API_CONFIG.KEY.

(** [fetchTrending(type)], lines 18-30. *)
Definition fetchTrending (type : string) : M (list Item.t) :=
  try_catch
    (let! response := fetch (trending_url type) in
     if negb (ok response) then throw (HttpError (status response))
     else
       let! data := json response in
       ret (default [] (results data)))
    (fun error =>
       console_error ("Error fetching trending " +:+ type +:+ ":") error ;;
       ret []).

Definition MAX_PAGES : Z := 3.
Definition ANIME_GENRE_ID : Z := 16.

Definition anime_url (page : Z) : string :=
  API_CONFIG.BASE_URL +:+ "/trending/tv/week?api_key=" +:+ API_CONFIG.KEY
    +:+ "&page=" +:+ pretty page.

(** The filter of lines 49-52: Japanese language, and a [genre_ids]
    array that includes the animation genre. *)
Definition is_anime (item : Item.t) : bool :=
  strict_eq (Item.original_language item) "ja"
  && match Item.genre_ids item with
     | Some ids => existsb (Z.eqb ANIME_GENRE_ID) ids
     | None => false
     end.

(** The body of the loop of lines 41-58, for the pages still to do. *)
Fixpoint anime_pages (pages : list Z) (allResults : list Item.t)
  : M (list Item.t) :=
  match pages with
  | [] => ret allResults
  | page :: rest =>
      let! allResults' :=
        try_catch
          (let! response := fetch (anime_url page) in
           if negb (ok response) then throw (HttpError (status response))
           else
             let! data := json response in
             let! items := array_of (results data) in
             let filtered := filter (fun item => is_anime item = true) items in
             ret (allResults ++ filtered))
          (fun error =>
             console_error
               ("Error fetching trending anime page " +:+ pretty page +:+ ":")
               error ;;
             ret allResults) in
      anime_pages rest allResults'
  end.

(** [fetchTrendingAnime()], lines 36-61: pages 1 to [MAX_PAGES]. *)
Definition fetchTrendingAnime : M (list Item.t) :=
  anime_pages (seqZ 1 MAX_PAGES) [].

(** *** Display functions *)

(** [displayBanner(item)], lines 69-77; [None] is [undefined]. *)
Definition displayBanner (item : option Item.t) : M unit :=
  match item with
  | None => ret tt
  | Some item =>
      if truthy (Item.backdrop_path item) then
        set_prop "banner" "style.backgroundImage"
          ("url(" +:+ API_CONFIG.IMG_URL
             +:+ to_string (Item.backdrop_path item) +:+ ")") ;;
        set_prop "banner-title" "textContent"
          (to_text (or_else (or_else (Item.title item) (Item.name item))
                      (Str "")))
      else ret tt
  end.

(** The poster image both [displayList] and [searchTMDB] build: the
    same attributes, and a key handler that runs the click handler on
    Enter and Space. *)
Definition create_poster (item : Item.t) (clickHandler : Action) : Img :=
  {| src := API_CONFIG.IMG_URL +:+ to_string (Item.poster_path item);
     alt := "Poster for "
              +:+ to_string (or_else (Item.title item) (Item.name item));
     classList := ["media-poster"];
     role := "button";
     tabindex := "0";
     onclick := clickHandler;
     onkeydown := fun key =>
       if String.eqb key "Enter" || String.eqb key " "
       then Some clickHandler else None |}.

(** [displayList(items, containerId)], lines 84-111. *)
Definition displayList (items : list Item.t) (containerId : string) : M unit :=
  let! container := getElementById containerId in
  if negb container then ret tt
  else
    set_innerHTML containerId "" ;;
    forEach items (fun item =>
      if negb (truthy (Item.poster_path item)) then ret tt
      else appendChild containerId
             (Element (create_poster item (ShowDetails item)))).

(** [renderRating(voteAverage)], lines 118-122. *)
Definition renderRating (voteAverage : number) : completion string :=
  let ratingOutOfFive := round (half voteAverage) in
  match repeat "★" ratingOutOfFive with
  | Throw e => Throw e
  | Return filled =>
      match repeat "☆" (sub (Num 5) ratingOutOfFive) with
      | Throw e => Throw e
      | Return empty => Return (filled +:+ empty)
      end
  end.

(** *** Modal and details logic *)

(** The kind flag of line 159. *)
Definition kind_of (item : Item.t) : string :=
  if strict_eq (Item.media_type item) "movie" || truthy (Item.title item)
  then "movie" else "tv".

(** The URL chosen by lines 160-169.  The id is printed as a decimal
    numeral, which is what the template literal does for the ids in the
    safe integer range; the properties that spell out the URL assume the
    id is in that range. *)
Definition embed_url (server : string) (item : Item.t) : string :=
  let type := kind_of item in
  if String.eqb server "vidsrc.cc" then
    "https://vidsrc.cc/v2/embed/" +:+ type +:+ "/" +:+ pretty (Item.id item)
  else if String.eqb server "vidsrc.net" then
    "https://vidsrc.net/embed/" +:+ type +:+ "/?tmdb=" +:+ pretty (Item.id item)
  else if String.eqb server "player.videasy.net" then
    "https://player.videasy.net/" +:+ type +:+ "/" +:+ pretty (Item.id item)
  else "".

(** [changeServer()], lines 154-172. *)
Definition changeServer : M unit :=
  fun p =>
    match Page.currentItem p with
    | None => ret tt p
    | Some currentItem =>
        (let! server := get_prop "server" "value" in
         set_prop "modal-video" "src" (embed_url server currentItem)) p
    end.

(** [showDetails(item)], lines 130-149. *)
Definition showDetails (item : Item.t) : M unit :=
  modify (Page.set_currentItem (Some item)) ;;
  set_prop "modal-title" "textContent"
    (to_text (or_else (Item.title item) (Item.name item))) ;;
  set_prop "modal-description" "textContent"
    (to_text (or_else (Item.overview item) (Str "No description available."))) ;;
  set_prop "modal-image" "src"
    (API_CONFIG.IMG_URL +:+ to_string (Item.poster_path item)) ;;
  set_prop "modal-image" "alt"
    ("Poster for " +:+ to_string (or_else (Item.title item) (Item.name item))) ;;
  (let! rating := lift (renderRating (to_number (Item.vote_average item))) in
   set_prop "modal-rating" "innerHTML" rating) ;;
  set_prop "server" "value" "vidsrc.cc" ;;
  changeServer ;;
  set_prop "modal" "style.display" "flex" ;;
  set_prop "body" "style.overflow" "hidden".

(** [closeModal()], lines 177-181. *)
Definition closeModal : M unit :=
  set_prop "modal" "style.display" "none" ;;
  set_prop "modal-video" "src" "" ;;
  set_prop "body" "style.overflow" "auto".

(** [openSearchModal()], lines 186-190. *)
Definition openSearchModal : M unit :=
  set_prop "search-modal" "style.display" "flex" ;;
  set_prop "document" "activeElement" "search-input" ;;
  set_prop "body" "style.overflow" "hidden".

(** [closeSearchModal()], lines 195-200. *)
Definition closeSearchModal : M unit :=
  set_prop "search-modal" "style.display" "none" ;;
  set_innerHTML "search-results" "" ;;
  set_prop "search-input" "value" "" ;;
  set_prop "body" "style.overflow" "auto".

(** What a poster's handlers do when they fire. *)
Definition run_action (a : Action) : M unit :=
  match a with
  | ShowDetails item => showDetails item
  | CloseSearchThenShowDetails item => closeSearchModal ;; showDetails item
  end.

(** *** Search *)

Definition search_url (query : string) : string :=
  API_CONFIG.BASE_URL +:+ "/search/multi?api_key=" +:+ API_CONFIG.KEY
    +:+ "&query=" +:+ encodeURIComponent query.

(** The double quote character, for the markup literals. *)
Definition dq : string := bytes [34%N].

(** The literal of line 249. *)
Definition no_results_message : string :=
  "<p class=" +:+ dq +:+ "no-results-message" +:+ dq
    +:+ ">No results found. Try a different search term.</p>".

(** The literal of line 254. *)
Definition error_message : string :=
  "<p class=" +:+ dq +:+ "error-message" +:+ dq
    +:+ ">Could not perform search. Please try again.</p>".

(** The test of line 223: people, items with neither poster nor
    backdrop, and items with neither title nor name are skipped. *)
Definition skipped (item : Item.t) : bool :=
  strict_eq (Item.media_type item) "person"
  || (negb (truthy (Item.poster_path item))
      && negb (truthy (Item.backdrop_path item)))
  || (negb (truthy (Item.title item)) && negb (truthy (Item.name item))).

(** [searchTMDB()], lines 205-256, as one step: the call run from its
    first line to its last with nothing else happening at its two
    awaits, for a query [encodeURIComponent] accepts.  The stages the
    call is made of, which other handlers may come between, are
    [search_start] and [search_resume] below. *)
Definition searchTMDB : M unit :=
  let! value := get_prop "search-input" "value" in
  let query := trim value in
  set_innerHTML "search-results" "" ;;
  if negb (nonempty query) then ret tt
  else
    try_catch
      (let! response := fetch (search_url query) in
       if negb (ok response) then throw (HttpError (status response))
       else
         let! data := json response in
         let! items := array_of (results data) in
         forEach items (fun item =>
           if skipped item then ret tt
           else appendChild "search-results"
                  (Element (create_poster item
                              (CloseSearchThenShowDetails item)))) ;;
         let! count := children_length "search-results" in
         if Nat.eqb count 0
         then set_innerHTML "search-results" no_results_message
         else ret tt)
      (fun error =>
         console_error "Error during search:" error ;;
         set_innerHTML "search-results" error_message).

(** *** Search, stage by stage *)

(** Where a call of [searchTMDB] waits: at [await fetch(...)] of line
    215, the request issued, or at [await response.json()] of line 219.
    While it waits, other handlers of the page run. *)
Inductive suspended : Type :=
| AwaitingResponse (url : string)
| AwaitingBody (response : Response).

(** [fetch(url)] up to the promise it returns: the request is issued. *)
Definition request (url : string) : M unit :=
  modify (fun p => Page.set_requests (Page.requests p ++ [url]) p).

(** The promise of [fetch(url)] settles: a transport failure rejects. *)
Definition settle (url : string) : M Response :=
  match net url with
  | None => throw NetworkFailure
  | Some response => ret response
  end.

(** The catch clause, lines 252-255, after which the call is over. *)
Definition search_failed (error : exn) : M (option suspended) :=
  console_error "Error during search:" error ;;
  set_innerHTML "search-results" error_message ;;
  ret None.

(** Lines 206-215, up to the first await: the query is read, the
    container cleared, and for a query that is not blank the URL is built
    and the request issued.  [encodeURIComponent] may throw, inside the
    try.  The result is where the call waits, [None] when it is over. *)
Definition search_start : M (option suspended) :=
  let! value := get_prop "search-input" "value" in
  let query := trim value in
  set_innerHTML "search-results" "" ;;
  if negb (nonempty query) then ret None
  else
    match encode_component query with
    | Throw error => search_failed error
    | Return encoded =>
        let url := API_CONFIG.BASE_URL +:+ "/search/multi?api_key="
                     +:+ API_CONFIG.KEY +:+ "&query=" +:+ encoded in
        request url ;;
        ret (Some (AwaitingResponse url))
    end.

(** The call resumes with what it was waiting for and runs to its next
    await or to its end: lines 215-219 with the response, lines 219-255
    with the body.  The container is the one of the page as it is by
    then: [container] of line 207 refers to the element, not to what it
    held, and nothing in the script removes or replaces the element. *)
Definition search_resume (s : suspended) : M (option suspended) :=
  match s with
  | AwaitingResponse url =>
      try_catch
        (let! response := settle url in
         if negb (ok response) then throw (HttpError (status response))
         else ret (Some (AwaitingBody response)))
        search_failed
  | AwaitingBody response =>
      try_catch
        (let! data := json response in
         let! items := array_of (results data) in
         forEach items (fun item =>
           if skipped item then ret tt
           else appendChild "search-results"
                  (Element (create_poster item
                              (CloseSearchThenShowDetails item)))) ;;
         let! count := children_length "search-results" in
         (if Nat.eqb count 0
          then set_innerHTML "search-results" no_results_message
          else ret tt) ;;
         ret None)
        search_failed
  end.

(** A whole call, with what the rest of the page does while it waits:
    [meanwhile1] between the request and its response, [meanwhile2]
    between the response and its body.  What runs there are other
    handlers, other calls of [searchTMDB] among them, and the typing of
    the user; a call that is over waits for nothing. *)
Definition search_run (meanwhile1 meanwhile2 : Page.t → Page.t) : M unit :=
  let! s1 := search_start in
  match s1 with
  | None => ret tt
  | Some s1 =>
      modify meanwhile1 ;;
      let! s2 := search_resume s1 in
      match s2 with
      | None => ret tt
      | Some s2 =>
          modify meanwhile2 ;;
          search_resume s2 ;;
          ret tt
      end
  end.

(** *** Initialization *)

(** [window.f = f]. *)
Definition expose (handler : string) : M unit :=
  modify (fun p =>
    Page.set_window_handlers (Page.window_handlers p ++ [handler]) p).

(** [movies[Math.floor(Math.random() * movies.length)]], for the value
    [random] that [Math.random()] returned: the product is a product of
    doubles, rounded, and [Math.floor] is exact. *)
Definition pick (random : Q) (movies : list Item.t) : option Item.t :=
  let index := Qfloor (mul random (inject_Z (Z.of_nat (length movies)))) in
  if index <? 0 then None else movies !! Z.to_nat index.

(** [init()], lines 263-287.  The three fetches of [Promise.all] are
    run one after the other: each of them catches its own failures and
    the answers of the network depend on the URL only, so the join
    gives the same three arrays, and the requests are issued in this
    order, each call reaching its first await before the next starts.
    The order of the console lines of fetches that fail is the one of
    this schedule, one of those the page can show: in the browser it
    follows the order in which the responses arrive. *)
Definition init (random : Q) : M unit :=
  let! movies := fetchTrending "movie" in
  let! tvShows := fetchTrending "tv" in
  let! anime := fetchTrendingAnime in
  (if (0 <? length movies)%nat then displayBanner (pick random movies)
   else ret tt) ;;
  displayList movies "movies-list" ;;
  displayList tvShows "tvshows-list" ;;
  displayList anime "anime-list" ;;
  expose "closeModal" ;;
  expose "changeServer" ;;
  expose "openSearchModal" ;;
  expose "closeSearchModal" ;;
  expose "searchTMDB".

End Script.

(** ** Specification-level notions *)

(** A string made of white space only: a sequence of code points that
    [trim] strips. *)
Inductive whitespace_only : string → Prop :=
| blank_empty : whitespace_only ""
| blank_cons (w s : string) :
    w ∈ white_space → whitespace_only s → whitespace_only (w +:+ s).

(** The posters [displayList] renders for [items]. *)
Definition posters (items : list Item.t) : list Node :=
  map (fun item => Element (create_poster item (ShowDetails item)))
    (filter (fun item => truthy (Item.poster_path item) = true) items).

(** The posters [searchTMDB] renders for the results [items]. *)
Definition search_posters (items : list Item.t) : list Node :=
  map (fun item => Element (create_poster item (CloseSearchThenShowDetails item)))
    (filter (fun item => skipped item = false) items).

(** A request fails: the transport fails, or the status is outside
    200-299. *)
Definition fetch_fails (net : Network) (url : string) : Prop :=
  net url = None ∨ ∃ r, net url = Some r ∧ ¬ (200 ≤ status r ≤ 299).

(** The items of a successful response, [None] when the request fails,
    the body is not JSON or has no [results]. *)
Definition page_results (net : Network) (url : string) : option (list Item.t) :=
  match net url with
  | Some r => if ok r then body r ≫= results else None
  | None => None
  end.


(** The integers a double holds exactly and that Number-to-String, the
    conversion a template literal applies, prints as their decimal
    numeral: those up to 2^53 - 1 in absolute value.  Beyond them the
    printed text has rounded digits, or an exponent, and is not modelled. *)
Definition safe_integer (n : Z) : Prop :=
  - 9007199254740991 ≤ n ≤ 9007199254740991.

(** The number of filled glyphs the specification gives a score: its
    half, rounded to the nearest integer, halves up. *)
Definition stars (q : Q) : Z := Qfloor (q / 2 + (1 # 2))%Q.

(** What a page of the trending list contributes to the anime list: the
    anime among its items, nothing when the page could not be had. *)
Definition anime_of_page (net : Network) (page : Z) : list Item.t :=
  match page_results net (anime_url page) with
  | Some items => filter (fun item => is_anime item = true) items
  | None => []
  end.

(** [p'] is [p] after the requests [urls]: apart from the request log
    and the console, nothing of the page has changed. *)
Definition after_requests (urls : list string) (p p' : Page.t) : Prop :=
  Page.currentItem p' = Page.currentItem p
  ∧ Page.children p' = Page.children p
  ∧ Page.properties p' = Page.properties p
  ∧ Page.window_handlers p' = Page.window_handlers p
  ∧ Page.requests p' = Page.requests p ++ urls.

(** The items a fetch of the trending list of a kind gives: those of the
    response, none when the request fails. *)
Definition trending_of (net : Network) (type : string) : list Item.t :=
  default [] (page_results net (trending_url type)).

(** The anime the three pages give, in page order. *)
Definition anime_of (net : Network) : list Item.t :=
  anime_of_page net 1 ++ anime_of_page net 2 ++ anime_of_page net 3.

(** What a search with a query that is not blank leaves in the
    container: the error message when the results could not be had, the
    no-results message when no result survives, the surviving posters
    otherwise. *)
Definition search_outcome (net : Network) (query : string) : list Node :=
  match page_results net (search_url query) with
  | None => [Markup error_message]
  | Some items =>
      if Nat.eqb (length (search_posters items)) 0
      then [Markup no_results_message] else search_posters items
  end.

(** ** Sample data *)

Module Sample.

Definition fight_club : Item.t :=
  Item.make 550 (Str "Fight Club") Undefined (Str "An insomniac office worker.")
    (Str "/fight_club.jpg") (Str "/fight_club_wide.jpg") (Some (84 # 10))
    (Some [18; 53]) (Str "en") (Str "movie").

Definition game_of_thrones : Item.t :=
  Item.make 1399 Undefined (Str "Game of Thrones") (Str "Seven noble families.")
    (Str "/got.jpg") (Str "/got_wide.jpg") (Some (85 # 10))
    (Some [10765; 18]) (Str "en") (Str "tv").

Definition one_piece : Item.t :=
  Item.make 37854 Undefined (Str "One Piece") Undefined
    (Str "/one_piece.jpg") Null (Some (87 # 10))
    (Some [10759; 35; 16]) (Str "ja") (Str "tv").

(** Japanese, live action: no animation genre. *)
Definition shogun : Item.t :=
  Item.make 126308 Undefined (Str "Shogun") Undefined
    (Str "/shogun.jpg") Null (Some (86 # 10))
    (Some [18; 10768]) (Str "ja") (Str "tv").

(** No poster. *)
Definition unreleased : Item.t :=
  Item.make 900001 (Str "Untitled Project") Undefined Undefined
    Null Null None (Some []) (Str "en") (Str "movie").

Definition someone : Item.t :=
  Item.make 287 Undefined (Str "Brad Pitt") Undefined
    Undefined Undefined None None Undefined (Str "person").

(** The page as the markup gives it: the four containers, empty, and
    nothing selected. *)
Definition fresh : Page.t :=
  Page.make None
    (list_to_map [("movies-list", []); ("tvshows-list", []);
                  ("anime-list", []); ("search-results", [])])
    ∅ [] [] [].

(** The details of [item] shown with the provider [server] chosen. *)
Definition watching (item : Item.t) (server : string) : Page.t :=
  with_prop "server" "value" server (Page.set_currentItem (Some item) fresh).

(** The search overlay with [query] typed and the posters of an
    earlier search still shown. *)
Definition searching (query : string) : Page.t :=
  with_prop "search-input" "value" query
    (with_children "search-results" (search_posters [fight_club]) fresh).

Definition response_of (items : list Item.t) : Response :=
  {| status := 200; body := Some {| results := Some items |} |}.

Definition demon_slayer : Item.t :=
  Item.make 85937 Undefined (Str "Demon Slayer") Undefined
    (Str "/demon_slayer.jpg") Null (Some (87 # 10))
    (Some [16; 10759]) (Str "ja") (Str "tv").

(** Page 1 and page 3 of the trending series answer, page 2 is
    refused; the trending movies answer, the trending series (without a
    page) do not. *)
Definition flaky : Network :=
  fun url =>
    if String.eqb url (anime_url 1)
    then Some (response_of [game_of_thrones; one_piece; shogun])
    else if String.eqb url (anime_url 2)
    then Some {| status := 503; body := None |}
    else if String.eqb url (anime_url 3)
    then Some (response_of [demon_slayer])
    else if String.eqb url (trending_url "movie")
    then Some (response_of [fight_club; unreleased])
    else None.

(** A backdrop, but no poster. *)
Definition teaser : Item.t :=
  Item.make 900002 (Str "Teaser") Undefined Undefined
    Null (Str "/teaser_wide.jpg") None (Some [28]) (Str "en") (Str "movie").

(** A network where every search finds a person and a title without
    images. *)
Definition obscure : Network :=
  fun _ => Some (response_of [someone; unreleased]).

(** A network where nothing answers. *)
Definition offline : Network := fun _ => None.

(** A network where every request is refused with status 500. *)
Definition broken : Network :=
  fun _ => Some {| status := 500; body := None |}.

End Sample.

(** ** Notions for the further properties *)

(** The glyphs [showDetails] writes for an item: those of its score,
    nothing when [renderRating] throws. *)
Definition rating_of (item : Item.t) : string :=
  match renderRating (to_number (Item.vote_average item)) with
  | Return glyphs => glyphs
  | Throw _ => ""
  end.

(** The score of an item is one [renderRating] accepts: absent, or from
    -1 up to, but not including, 11. *)
Definition score_in_range (item : Item.t) : Prop :=
  match Item.vote_average item with
  | None => True
  | Some q => (-1 <= q)%Q ∧ (q < 11)%Q
  end.

(** The providers [changeServer] knows. *)
Definition recognised (server : string) : Prop :=
  server = "vidsrc.cc" ∨ server = "vidsrc.net" ∨ server = "player.videasy.net".

(** More sample data. *)
Module Fixture.

(** A score out of the range of the rating. *)
Definition overrated : Item.t :=
  Item.make 77 (Str "Overrated") Undefined (Str "Twelve out of ten.")
    (Str "/overrated.jpg") Null (Some 12%Q) (Some [35]) (Str "en") (Str "movie").

(** The same id as [Sample.fight_club], as a series. *)
Definition fight_club_series : Item.t :=
  Item.make 550 Undefined (Str "Fight Club: The Series") Undefined
    (Str "/fcs.jpg") Null (Some 6%Q) (Some [18]) (Str "en") (Str "tv").

End Fixture.

(** The page with one more request in its log. *)
Definition with_request (url : string) (p : Page.t) : Page.t :=
  Page.set_requests (Page.requests p ++ [url]) p.

(** The page with one more line on the console, when there is an error. *)
Definition log_error (label : string) (e : option exn) (p : Page.t) : Page.t :=
  match e with
  | Some e => Page.set_console_errors (Page.console_errors p ++ [(label, e)]) p
  | None => p
  end.

(** What goes wrong when a URL is fetched and its body parsed: the
    transport, the status or the JSON of the body. *)
Definition fetch_error (net : Network) (url : string) : option exn :=
  match net url with
  | None => Some NetworkFailure
  | Some r =>
      if ok r then
        match body r with
        | None => Some SyntaxError
        | Some _ => None
        end
      else Some (HttpError (status r))
  end.

(** What goes wrong for a caller that needs the [results] array: the
    above, or a TypeError when the array is missing. *)
Definition results_error (net : Network) (url : string) : option exn :=
  match fetch_error net url with
  | Some e => Some e
  | None =>
      match page_results net url with
      | None => Some TypeError
      | Some _ => None
      end
  end.

(** The console lines [fetchTrendingAnime] writes for [pages]: one for
    each page whose results could not be had, in page order. *)
Definition anime_failures (net : Network) (pages : list Z)
  : list (string * exn) :=
  omap (fun page =>
          pair ("Error fetching trending anime page " +:+ pretty page +:+ ":")
            <$> results_error net (anime_url page))
    pages.

(** The page after the turns of the loop of [fetchTrendingAnime] for
    [pages]: each turn logs its request and, when it fails, its error. *)
Fixpoint anime_trace (net : Network) (pages : list Z) (p : Page.t) : Page.t :=
  match pages with
  | [] => p
  | page :: rest =>
      anime_trace net rest
        (log_error ("Error fetching trending anime page " +:+ pretty page +:+ ":")
           (results_error net (anime_url page))
           (with_request (anime_url page) p))
  end.

Module Fixture2.

(** A series with a backdrop only, as the search returns them. *)
Definition pilot : Item.t :=
  Item.make 4242 Undefined (Str "Pilot") Undefined
    Null (Str "/pilot_wide.jpg") (Some 7%Q) (Some [18]) (Str "en") (Str "tv").

(** A network where every search finds [pilot] after a person. *)
Definition finds_pilot : Network :=
  fun _ => Some (Sample.response_of [Sample.someone; pilot]).

(** A network where three movies are trending: the first with a
    backdrop, the second without, the third with one. *)
Definition trio : Network :=
  fun _ => Some (Sample.response_of
                   [Sample.fight_club; Sample.unreleased; Sample.teaser]).

(** A network that answers with JSON that has no results. *)
Definition hollow : Network :=
  fun _ => Some {| status := 200; body := Some {| results := None |} |}.

End Fixture2.

(** The page after [showDetails] has run to its end for [item]. *)
Definition details_shown (item : Item.t) (p : Page.t) : Page.t :=
  with_prop "body" "style.overflow" "hidden"
    (with_prop "modal" "style.display" "flex"
       (with_prop "modal-video" "src" (embed_url "vidsrc.cc" item)
          (with_prop "server" "value" "vidsrc.cc"
             (with_prop "modal-rating" "innerHTML" (rating_of item)
                (with_prop "modal-image" "alt"
                   ("Poster for "
                      +:+ to_string (or_else (Item.title item) (Item.name item)))
                   (with_prop "modal-image" "src"
                      (API_CONFIG.IMG_URL +:+ to_string (Item.poster_path item))
                      (with_prop "modal-description" "textContent"
                         (to_text (or_else (Item.overview item)
                                     (Str "No description available.")))
                         (with_prop "modal-title" "textContent"
                            (to_text (or_else (Item.title item) (Item.name item)))
                            (Page.set_currentItem (Some item) p))))))))).

(** The page after [closeSearchModal] has run to its end. *)
Definition search_closed (p : Page.t) : Page.t :=
  with_prop "body" "style.overflow" "auto"
    (with_prop "search-input" "value" ""
       (with_children "search-results" []
          (with_prop "search-modal" "style.display" "none" p))).

(** The page after the three fetches of [init]. *)
Definition init_fetched (net : Network) (p : Page.t) : Page.t :=
  anime_trace net [1; 2; 3]
    (log_error "Error fetching trending tv:"
       (fetch_error net (trending_url "tv"))
       (with_request (trending_url "tv")
          (log_error "Error fetching trending movie:"
             (fetch_error net (trending_url "movie"))
             (with_request (trending_url "movie") p)))).

(** The page after [displayBanner]. *)
Definition banner_shown (item : option Item.t) (p : Page.t) : Page.t :=
  match item with
  | Some item =>
      if truthy (Item.backdrop_path item) then
        with_prop "banner-title" "textContent"
          (to_text (or_else (or_else (Item.title item) (Item.name item))
                      (Str "")))
          (with_prop "banner" "style.backgroundImage"
             ("url(" +:+ API_CONFIG.IMG_URL
                +:+ to_string (Item.backdrop_path item) +:+ ")") p)
      else p
  | None => p
  end.

(** The page after [displayList]. *)
Definition rendered (items : list Item.t) (id : string) (p : Page.t) : Page.t :=
  if bool_decide (is_Some (Page.children p !! id))
  then with_children id (posters items) p else p.

(** The movie [init] hands to [displayBanner], if any. *)
Definition banner_movie (net : Network) (random : Q) : option Item.t :=
  if (0 <? length (trending_of net "movie"))%nat
  then pick random (trending_of net "movie") else None.

(** The names [init] publishes on [window], in order. *)
Definition published : list string :=
  ["closeModal"; "changeServer"; "openSearchModal"; "closeSearchModal";
   "searchTMDB"].

(** The page after [init]. *)
Definition init_final (net : Network) (random : Q) (p : Page.t) : Page.t :=
  let p' :=
    rendered (anime_of net) "anime-list"
      (rendered (trending_of net "tv") "tvshows-list"
         (rendered (trending_of net "movie") "movies-list"
            (banner_shown (banner_movie net random) (init_fetched net p)))) in
  Page.set_window_handlers (Page.window_handlers p' ++ published) p'.

(** ** Notions for a search that overlaps other handlers *)

(** The results a call with this query receives: none when
    [encodeURIComponent] throws, so that no request is made, when the
    request fails, or when the body has no results. *)
Definition search_results (net : Network) (query : string)
  : option (list Item.t) :=
  if has_lone_surrogate query then None
  else page_results net (search_url query).

(** What runs while a call waits leaves the results container in the
    page. *)
Definition keeps_container (meanwhile : Page.t → Page.t) : Prop :=
  ∀ q, is_Some (Page.children q !! "search-results") →
       is_Some (Page.children (meanwhile q) !! "search-results").

(** What runs while a call waits leaves in the results container what it
    held. *)
Definition leaves_container (meanwhile : Page.t → Page.t) : Prop :=
  ∀ q, Page.children (meanwhile q) !! "search-results"
       = Page.children q !! "search-results".

(** A computation leaves an observation [f] of the page as it was,
    whether it returns or throws. *)
Definition unchanged {X A : Type} (f : Page.t → X) (m : M A) : Prop :=
  ∀ p, f (snd (m p)) = f p.

(** The page after the catch clause of [searchTMDB]. *)
Definition search_error (error : exn) (q : Page.t) : Page.t :=
  with_children "search-results" [Markup error_message]
    (log_error "Error during search:" (Some error) q).

(** What the container holds after the results [items] were rendered
    onto [nodes]: the posters of the survivors after [nodes], and the
    no-results message when that is nothing at all. *)
Definition rendered_onto (nodes : list Node) (items : list Item.t) : list Node :=
  if Nat.eqb (length (nodes ++ search_posters items)) 0
  then [Markup no_results_message]
  else nodes ++ search_posters items.

(** The page when a call of [searchTMDB] is over, in a page that has
    the results container: line by line, with what the rest of the page
    did while the call waited. *)
Definition search_trace (net : Network) (meanwhile1 meanwhile2 : Page.t → Page.t)
    (p : Page.t) : Page.t :=
  let query := trim (read_prop p "search-input" "value") in
  let cleared := with_children "search-results" [] p in
  if negb (nonempty query) then cleared
  else if has_lone_surrogate query then search_error URIError cleared
  else
    let responded := meanwhile1 (with_request (search_url query) cleared) in
    match net (search_url query) with
    | None => search_error NetworkFailure responded
    | Some r =>
        if negb (ok r) then search_error (HttpError (status r)) responded
        else
          let parsed := meanwhile2 responded in
          match body r with
          | None => search_error SyntaxError parsed
          | Some data =>
              match results data with
              | None => search_error TypeError parsed
              | Some items =>
                  with_children "search-results"
                    (rendered_onto
                       (default [] (Page.children parsed !! "search-results"))
                       items)
                    parsed
              end
          end
    end.

Module Overlap.

(** A network that finds a person for "pitt" and a film for "fight". *)
Definition catalogue : Network :=
  fun url =>
    if String.eqb url (search_url "pitt")
    then Some (Sample.response_of [Sample.someone])
    else if String.eqb url (search_url "fight")
    then Some (Sample.response_of [Sample.fight_club])
    else None.

(** The user types "fight" and a second search runs to its end. *)
Definition second_search (q : Page.t) : Page.t :=
  snd (search_run catalogue id id
         (with_prop "search-input" "value" "fight" q)).

(** The search overlay, empty, with "pitt" typed. *)
Definition typed_pitt : Page.t :=
  with_prop "search-input" "value" "pitt" Sample.fresh.

(** The user opens the details of a film. *)
Definition opens_details (q : Page.t) : Page.t :=
  snd (showDetails Sample.fight_club q).

(** A query that ends in a surrogate without its partner (U+D83D). *)
Definition half_emoji : string := "pitt" +:+ bytes [0xED; 0xA0; 0xBD]%N.

End Overlap.

(** * Properties *)

(** ** Rating glyphs *)

Lemma to_integer_inject (z : Z) : to_integer (Num (inject_Z z)) = z.
Proof.
  unfold to_integer.
  destruct (Qle_bool 0 (inject_Z z)); [apply Qfloor_Z | apply Qceiling_Z].
Qed.

Lemma to_integer_sub_inject (a b : Z) :
  to_integer (sub (Num (inject_Z a)) (Num (inject_Z b))) = a - b.
Proof.
  unfold sub, to_integer.
  assert (E : (inject_Z a - inject_Z b == inject_Z (a - b))%Q).
  { unfold Z.sub, Qminus. now rewrite inject_Z_plus, inject_Z_opp. }
  destruct (Qle_bool 0 (inject_Z a - inject_Z b)).
  - now rewrite E, Qfloor_Z.
  - unfold Qceiling. rewrite E, <- inject_Z_opp, Qfloor_Z. lia.
Qed.

Lemma round_half (q : Q) :
  round (half (Num q)) = Num (inject_Z (stars q)).
Proof. reflexivity. Qed.

Lemma stars_bounds (q : Q) : (0 <= q)%Q → (q <= 10)%Q → 0 ≤ stars q ≤ 5.
Proof.
  intros Hlo Hhi. unfold stars. split.
  - change 0 with (Qfloor 0). apply Qfloor_resp_le.
    apply Qle_trans with (0 / 2 + (1 # 2))%Q; [discriminate |].
    apply Qplus_le_l, Qmult_le_compat_r; [assumption | discriminate].
  - change 5 with (Qfloor (10 / 2 + (1 # 2))). apply Qfloor_resp_le.
    apply Qplus_le_l, Qmult_le_compat_r; [assumption | discriminate].
Qed.

(** The glyphs of a score whose rounded half lies between 0 and 5. *)
Lemma renderRating_stars (q : Q) :
  0 ≤ stars q ≤ 5 →
  renderRating (Num q)
  = Return (repeat_string "★" (Z.to_nat (stars q))
            +:+ repeat_string "☆" (Z.to_nat (5 - stars q))).
Proof.
  intros [Hlo Hhi]. unfold renderRating. rewrite round_half.
  unfold repeat. rewrite to_integer_inject.
  change (Num 5) with (Num (inject_Z 5)). rewrite to_integer_sub_inject.
  destruct (Z.ltb_spec (stars q) 0); [lia |].
  destruct (Z.ltb_spec (5 - stars q) 0); [lia |].
  reflexivity.
Qed.

(** Outside the range the script does not defend itself: a rounded
    half below 0 or above 5 makes one of the two [repeat] calls throw. *)
Lemma renderRating_out_of_range (q : Q) :
  stars q < 0 ∨ 5 < stars q → renderRating (Num q) = Throw RangeError.
Proof.
  intros Hout. unfold renderRating. rewrite round_half.
  unfold repeat. rewrite to_integer_inject.
  change (Num 5) with (Num (inject_Z 5)). rewrite to_integer_sub_inject.
  destruct (Z.ltb_spec (stars q) 0); [reflexivity |].
  destruct (Z.ltb_spec (5 - stars q) 0); [reflexivity | lia].
Qed.

(** A missing score is [NaN] and gives no glyph at all. *)
Lemma renderRating_missing : renderRating (to_number None) = Return "".
Proof. reflexivity. Qed.

(** C2: [renderRating] maps a score from 0 to 10 to five glyphs by
    halving it and rounding to the nearest integer, halves up: the number
    [n] of filled glyphs is the integer with [n - 1/2 <= score / 2 <
    n + 1/2], and [5 - n] empty glyphs follow.  A score of 10 gives five
    filled glyphs and no empty one, a score of 0 gives five empty glyphs,
    and a score of 7 gives four filled glyphs (3.5 rounds to 4) and one
    empty glyph. *)
Theorem renderRating_examples :
  renderRating (Num 10) = Return "★★★★★"
  ∧ renderRating (Num 10)
    = Return (repeat_string "★" 5 +:+ repeat_string "☆" 0)
  ∧ renderRating (Num 0) = Return "☆☆☆☆☆"
  ∧ renderRating (Num 0)
    = Return (repeat_string "★" 0 +:+ repeat_string "☆" 5)
  ∧ round (half (Num 7)) = Num 4
  ∧ renderRating (Num 7) = Return "★★★★☆"
  ∧ renderRating (Num 7)
    = Return (repeat_string "★" 4 +:+ repeat_string "☆" 1)
  ∧ (∀ score : Q,
       (0 <= score)%Q → (score <= 10)%Q →
       ∃ n : Z,
         (inject_Z n - (1 # 2) <= score / 2)%Q
         ∧ (score / 2 < inject_Z n + (1 # 2))%Q
         ∧ 0 ≤ n ≤ 5
         ∧ round (half (Num score)) = Num (inject_Z n)
         ∧ renderRating (Num score)
           = Return (repeat_string "★" (Z.to_nat n)
                     +:+ repeat_string "☆" (Z.to_nat (5 - n)))).
Proof.
  do 7 (split; [vm_compute; reflexivity |]).
  intros score Hlo Hhi. exists (stars score).
  pose proof (stars_bounds score Hlo Hhi) as Hb.
  pose proof (Qfloor_le (score / 2 + (1 # 2))) as Hfloor.
  pose proof (Qlt_floor (score / 2 + (1 # 2))) as Hceil.
  rewrite inject_Z_plus in Hceil. change (inject_Z 1) with 1%Q in Hceil.
  fold (stars score) in Hfloor, Hceil.
  set (h := (score / 2)%Q) in *.
  split; [lra |]. split; [lra |]. split; [exact Hb |].
  split; [apply round_half |]. now apply renderRating_stars.
Qed.

Lemma renderRating_examples_witness :
  ∃ n : Z,
    (inject_Z n - (1 # 2) <= 5 / 2)%Q
    ∧ (5 / 2 < inject_Z n + (1 # 2))%Q
    ∧ 0 ≤ n ≤ 5
    ∧ round (half (Num 5)) = Num (inject_Z n)
    ∧ renderRating (Num 5)
      = Return (repeat_string "★" (Z.to_nat n)
                +:+ repeat_string "☆" (Z.to_nat (5 - n))).
Proof.
  apply (proj2 (proj2 (proj2 (proj2 (proj2 (proj2 (proj2
           renderRating_examples))))))); discriminate.
Defined.

(** C9: for every score from 0 to 10, [renderRating] returns five
    glyphs: [k] filled ones followed by [5 - k] empty ones, for some [k]
    from 0 to 5. *)
Theorem renderRating_five_glyphs (voteAverage : Q) :
  (0 <= voteAverage)%Q → (voteAverage <= 10)%Q →
  ∃ k : nat,
    (k ≤ 5)%nat
    ∧ renderRating (Num voteAverage)
      = Return (repeat_string "★" k +:+ repeat_string "☆" (5 - k)).
Proof.
  intros Hlo Hhi.
  pose proof (stars_bounds voteAverage Hlo Hhi) as Hb.
  exists (Z.to_nat (stars voteAverage)). split; [lia |].
  rewrite renderRating_stars by assumption.
  do 3 f_equal. lia.
Qed.

Lemma renderRating_five_glyphs_witness :
  ∃ k : nat,
    (k ≤ 5)%nat
    ∧ renderRating (Num (73 # 10))
      = Return (repeat_string "★" k +:+ repeat_string "☆" (5 - k)).
Proof. apply (renderRating_five_glyphs (73 # 10)); discriminate. Defined.

(** ** Changing the server *)

Lemma truthy_spec (f : field) :
  truthy f = true ↔ ∃ s, f = Str s ∧ s ≠ "".
Proof.
  destruct f as [| | s]; simpl.
  - split; [discriminate | intros (s & [=] & _)].
  - split; [discriminate | intros (s & [=] & _)].
  - destruct (String.eqb_spec s ""); simpl.
    + split; [discriminate | intros (s' & [= <-] & Hne); contradiction].
    + split; [eauto | reflexivity].
Qed.

Lemma strict_eq_spec (f : field) (lit : string) :
  strict_eq f lit = true ↔ f = Str lit.
Proof.
  destruct f as [| | s]; simpl; try (split; discriminate).
  rewrite String.eqb_eq. split; [congruence | now intros [= ->]].
Qed.

Lemma kind_of_movie (item : Item.t) :
  kind_of item = "movie"
  ↔ Item.media_type item = Str "movie" ∨ truthy (Item.title item) = true.
Proof.
  unfold kind_of. rewrite <- strict_eq_spec, <- orb_true_iff.
  destruct (_ || _); split; congruence.
Qed.

Lemma kind_of_tv (item : Item.t) :
  kind_of item = "tv"
  ↔ ¬ (Item.media_type item = Str "movie" ∨ truthy (Item.title item) = true).
Proof.
  rewrite <- kind_of_movie. unfold kind_of.
  destruct (_ || _); split; congruence.
Qed.

(** An empty title does not count as a title. *)
Lemma kind_of_empty_title (item : Item.t) :
  Item.title item = Str "" → Item.media_type item ≠ Str "movie" →
  kind_of item = "tv".
Proof.
  intros Htitle Hmedia. apply kind_of_tv. rewrite Htitle.
  intros [H | H]; [contradiction | discriminate].
Qed.

Lemma read_with_prop (p : Page.t) (element property value : string) :
  read_prop (with_prop element property value p) element property = value.
Proof.
  unfold read_prop, with_prop, Page.set_properties.
  cbn [Page.properties]. now rewrite lookup_insert_eq.
Qed.

(** With an item selected, [changeServer] assigns the chosen URL to the
    video frame and touches nothing else. *)
Lemma changeServer_selected (p : Page.t) (item : Item.t) :
  Page.currentItem p = Some item →
  changeServer p
  = (Return tt,
     with_prop "modal-video" "src"
       (embed_url (read_prop p "server" "value") item) p).
Proof. intros H. unfold changeServer. now rewrite H. Qed.

(** C4: with an item selected, the kind flag is "movie" exactly when the
    item has media_type "movie" or carries a title (a non-empty string,
    which is what the test of the source accepts), and "tv" otherwise;
    with the provider "vidsrc.cc", [changeServer] assigns
    https://vidsrc.cc/v2/embed/movie/N to the video frame for a movie item
    of id N, and https://vidsrc.cc/v2/embed/tv/N for a TV item (a name, no
    title), N being the decimal numeral of the id, an integer in the safe
    range. *)
Theorem changeServer_vidsrc_cc (p : Page.t) (item : Item.t) :
  Page.currentItem p = Some item →
  (kind_of item = "movie"
   ↔ Item.media_type item = Str "movie" ∨ truthy (Item.title item) = true)
  ∧ (kind_of item = "tv"
     ↔ ¬ (Item.media_type item = Str "movie"
          ∨ truthy (Item.title item) = true))
  ∧ (read_prop p "server" "value" = "vidsrc.cc" →
     safe_integer (Item.id item) →
     changeServer p
     = (Return tt,
        with_prop "modal-video" "src"
          ("https://vidsrc.cc/v2/embed/" +:+ kind_of item +:+ "/"
             +:+ pretty (Item.id item)) p)
     ∧ (Item.media_type item = Str "movie"
        ∨ truthy (Item.title item) = true →
        read_prop (snd (changeServer p)) "modal-video" "src"
        = "https://vidsrc.cc/v2/embed/movie/" +:+ pretty (Item.id item))
     ∧ (truthy (Item.name item) = true →
        truthy (Item.title item) = false →
        Item.media_type item ≠ Str "movie" →
        read_prop (snd (changeServer p)) "modal-video" "src"
        = "https://vidsrc.cc/v2/embed/tv/" +:+ pretty (Item.id item))).
Proof.
  intros Hsel. split; [apply kind_of_movie |]. split; [apply kind_of_tv |].
  intros Hserver _. rewrite (changeServer_selected p item Hsel), Hserver.
  cbn [snd]. rewrite read_with_prop.
  assert (Hurl : embed_url "vidsrc.cc" item
                 = "https://vidsrc.cc/v2/embed/" +:+ kind_of item +:+ "/"
                     +:+ pretty (Item.id item)) by reflexivity.
  rewrite Hurl. split; [reflexivity |]. split.
  - intros Hmovie. apply kind_of_movie in Hmovie. now rewrite Hmovie.
  - intros _ Htitle Hmedia.
    assert (Htv : kind_of item = "tv").
    { apply kind_of_tv. intros [H | H]; congruence. }
    now rewrite Htv.
Qed.

(** C8: with no item selected, [changeServer] returns at once and leaves
    the whole page, the source of the video frame included, as it was. *)
Theorem changeServer_no_selection (p : Page.t) :
  Page.currentItem p = None → changeServer p = (Return tt, p).
Proof. intros H. unfold changeServer. now rewrite H. Qed.

Lemma changeServer_no_selection_witness :
  changeServer Sample.fresh = (Return tt, Sample.fresh).
Proof. apply (changeServer_no_selection Sample.fresh). reflexivity. Defined.

Lemma changeServer_vidsrc_cc_witness :
  read_prop (snd (changeServer (Sample.watching Sample.fight_club "vidsrc.cc")))
    "modal-video" "src"
  = "https://vidsrc.cc/v2/embed/movie/550"
  ∧ read_prop
      (snd (changeServer (Sample.watching Sample.game_of_thrones "vidsrc.cc")))
      "modal-video" "src"
    = "https://vidsrc.cc/v2/embed/tv/1399".
Proof.
  split.
  - destruct (changeServer_vidsrc_cc
                (Sample.watching Sample.fight_club "vidsrc.cc")
                Sample.fight_club eq_refl) as (_ & _ & H).
    destruct (H eq_refl) as (_ & Hmovie & _); [unfold safe_integer; cbn; lia |].
    apply Hmovie. left. reflexivity.
  - destruct (changeServer_vidsrc_cc
                (Sample.watching Sample.game_of_thrones "vidsrc.cc")
                Sample.game_of_thrones eq_refl) as (_ & _ & H).
    destruct (H eq_refl) as (_ & _ & Htv); [unfold safe_integer; cbn; lia |].
    apply Htv; [reflexivity | reflexivity | discriminate].
Defined.

(** C10: with an item selected and a provider that is none of
    "vidsrc.cc", "vidsrc.net" and "player.videasy.net", [changeServer]
    assigns the empty string to the source of the video frame. *)
Theorem changeServer_unknown_server (p : Page.t) (item : Item.t) :
  Page.currentItem p = Some item →
  read_prop p "server" "value" ≠ "vidsrc.cc" →
  read_prop p "server" "value" ≠ "vidsrc.net" →
  read_prop p "server" "value" ≠ "player.videasy.net" →
  changeServer p = (Return tt, with_prop "modal-video" "src" "" p)
  ∧ read_prop (snd (changeServer p)) "modal-video" "src" = "".
Proof.
  intros Hsel H1 H2 H3.
  rewrite (changeServer_selected p item Hsel). unfold embed_url.
  apply String.eqb_neq in H1, H2, H3. rewrite H1, H2, H3.
  split; [reflexivity | apply read_with_prop].
Qed.

Lemma changeServer_unknown_server_witness :
  read_prop
    (snd (changeServer
            (with_prop "modal-video" "src" "https://vidsrc.cc/v2/embed/movie/550"
               (Sample.watching Sample.fight_club "vidsrc.me"))))
    "modal-video" "src"
  = "".
Proof.
  apply (changeServer_unknown_server
           (with_prop "modal-video" "src" "https://vidsrc.cc/v2/embed/movie/550"
              (Sample.watching Sample.fight_club "vidsrc.me"))
           Sample.fight_club eq_refl);
    vm_compute; discriminate.
Defined.

(** ** Rendering lists *)

Lemma with_children_same (p : Page.t) (id : string) (nodes : list Node) :
  Page.children p !! id = Some nodes → with_children id nodes p = p.
Proof.
  intros H. destruct p as [sel ch props reqs errs hs]. simpl in H.
  unfold with_children, Page.set_children. cbn [Page.children Page.currentItem
    Page.properties Page.requests Page.console_errors Page.window_handlers].
  now rewrite insert_id.
Qed.

Lemma with_children_twice (p : Page.t) (id : string) (a b : list Node) :
  with_children id b (with_children id a p) = with_children id b p.
Proof.
  unfold with_children, Page.set_children. cbn. now rewrite insert_insert_eq.
Qed.

Lemma children_with_children (p : Page.t) (id : string) (nodes : list Node) :
  Page.children (with_children id nodes p) !! id = Some nodes.
Proof. unfold with_children. cbn. apply lookup_insert_eq. Qed.

Lemma children_with_children_ne (p : Page.t) (id id' : string) (nodes : list Node) :
  id ≠ id' →
  Page.children (with_children id nodes p) !! id' = Page.children p !! id'.
Proof. intros H. unfold with_children. cbn. now apply lookup_insert_ne. Qed.

Lemma appendChild_there (p : Page.t) (id : string) (nodes : list Node) (node : Node) :
  Page.children p !! id = Some nodes →
  appendChild id node p = (Return tt, with_children id (nodes ++ [node]) p).
Proof. intros H. unfold appendChild. now rewrite H. Qed.

Lemma set_innerHTML_there (p : Page.t) (id html : string) :
  is_Some (Page.children p !! id) →
  set_innerHTML id html p = (Return tt, with_children id (parse_html html) p).
Proof. intros [nodes H]. unfold set_innerHTML. now rewrite H. Qed.

(** A [forEach] whose body appends [mk item] for the items that [keep]
    accepts, and does nothing for the others, appends the kept items in
    order. *)
Lemma forEach_append (keep : Item.t → bool) (mk : Item.t → Node)
    (id : string) (f : Item.t → M unit) (items : list Item.t) :
  (∀ item, f item = if keep item then appendChild id (mk item) else ret tt) →
  ∀ (p : Page.t) (nodes : list Node),
    Page.children p !! id = Some nodes →
    forEach items f p
    = (Return tt,
       with_children id
         (nodes ++ map mk (filter (fun item => keep item = true) items)) p).
Proof.
  intros Hf. induction items as [| item rest IH]; intros p nodes Hp.
  - cbn. rewrite app_nil_r. now rewrite with_children_same.
  - cbn [forEach]. unfold bind. rewrite Hf.
    destruct (keep item) eqn:Hkeep.
    + rewrite (appendChild_there p id nodes _ Hp).
      rewrite (IH _ (nodes ++ [mk item])) by apply children_with_children.
      rewrite with_children_twice, filter_cons_True by assumption.
      cbn [map]. now rewrite <- app_assoc.
    + unfold ret. rewrite (IH p nodes Hp).
      rewrite filter_cons_False by congruence. reflexivity.
Qed.

(** What [displayList] does to the page, container present or not. *)
Lemma displayList_run (items : list Item.t) (containerId : string) (p : Page.t) :
  displayList items containerId p
  = (Return tt,
     if bool_decide (is_Some (Page.children p !! containerId))
     then with_children containerId (posters items) p else p).
Proof.
  unfold displayList, bind at 1, getElementById.
  destruct (bool_decide_reflect (is_Some (Page.children p !! containerId)))
    as [Hc | Hc]; cbn [negb]; [| reflexivity].
  unfold bind. rewrite (set_innerHTML_there p containerId "" Hc).
  change (parse_html "") with (@nil Node).
  rewrite (forEach_append (fun item => truthy (Item.poster_path item))
             (fun item => Element (create_poster item (ShowDetails item)))
             containerId _ items) with (nodes := @nil Node).
  - now rewrite with_children_twice.
  - intros item. now destruct (truthy (Item.poster_path item)).
  - apply children_with_children.
Qed.

(** Without the container [displayList] does nothing. *)
Lemma displayList_no_container (items : list Item.t) (containerId : string)
    (p : Page.t) :
  Page.children p !! containerId = None →
  displayList items containerId p = (Return tt, p).
Proof.
  intros H. rewrite displayList_run, bool_decide_eq_false_2; [reflexivity |].
  rewrite H. now intros [x Hx].
Qed.

(** C5: for every list of items and every container that exists,
    [displayList] replaces the content of the container (whatever it was)
    by one image per item that has a poster_path, in the order of the
    input; the images are as many as the items with a poster path, and an
    item without one gives no element. *)
Theorem displayList_posters (items : list Item.t) (containerId : string)
    (p : Page.t) :
  is_Some (Page.children p !! containerId) →
  let with_poster :=
    filter (fun item => truthy (Item.poster_path item) = true) items in
  let rendered :=
    map (fun item => Element (create_poster item (ShowDetails item)))
      with_poster in
  displayList items containerId p
  = (Return tt, with_children containerId rendered p)
  ∧ Page.children (snd (displayList items containerId p)) !! containerId
    = Some rendered
  ∧ length rendered = length with_poster
  ∧ (∀ node, node ∈ rendered →
     ∃ item, item ∈ items ∧ truthy (Item.poster_path item) = true
             ∧ node = Element (create_poster item (ShowDetails item))).
Proof.
  intros Hc with_poster rendered.
  rewrite displayList_run, bool_decide_eq_true_2 by assumption.
  fold (posters items). split; [reflexivity |].
  split; [apply children_with_children |].
  split; [apply length_map |].
  intros node Hnode. apply list_elem_of_fmap in Hnode as (item & -> & Hin).
  apply list_elem_of_filter in Hin as [Hkeep Hin]. eauto.
Qed.

Lemma displayList_posters_witness :
  Page.children
    (snd (displayList [Sample.fight_club; Sample.unreleased; Sample.one_piece]
            "movies-list"
            (with_children "movies-list" [Markup "<p>Loading</p>"] Sample.fresh)))
    !! "movies-list"
  = Some [Element (create_poster Sample.fight_club (ShowDetails Sample.fight_club));
          Element (create_poster Sample.one_piece (ShowDetails Sample.one_piece))].
Proof.
  apply (displayList_posters
           [Sample.fight_club; Sample.unreleased; Sample.one_piece]
           "movies-list"
           (with_children "movies-list" [Markup "<p>Loading</p>"] Sample.fresh)).
  vm_compute. eauto.
Defined.

(** ** Fetching *)

Lemma fetch_run (net : Network) (url : string) (p : Page.t) :
  fetch net url p
  = (match net url with
     | Some response => Return response
     | None => Throw NetworkFailure
     end,
     Page.set_requests (Page.requests p ++ [url]) p).
Proof. unfold fetch. now destruct (net url). Qed.

Lemma after_requests_refl (p : Page.t) : after_requests [] p p.
Proof. unfold after_requests. now rewrite app_nil_r. Qed.

Lemma after_requests_trans (a b : list string) (p q r : Page.t) :
  after_requests a p q → after_requests b q r → after_requests (a ++ b) p r.
Proof.
  unfold after_requests.
  intros (H1 & H2 & H3 & H4 & H5) (G1 & G2 & G3 & G4 & G5).
  rewrite G1, G2, G3, G4, G5, H5, app_assoc. auto.
Qed.

Lemma after_requests_fetch (url : string) (p : Page.t) :
  after_requests [url] p (Page.set_requests (Page.requests p ++ [url]) p).
Proof. unfold after_requests. cbn. auto. Qed.

Lemma after_requests_console (urls : list string) (p q : Page.t)
    (label : string) (e : exn) :
  after_requests urls p q →
  after_requests urls p (snd (console_error label e q)).
Proof. unfold after_requests. cbn. auto. Qed.

(** The failure branch of a fetch: the handler logs the error and
    returns; the page has only seen the request. *)
Ltac caught p :=
  unfold throw, bind, console_error, modify, ret;
  eexists; split; [| reflexivity];
  now apply (after_requests_console _ p).

Lemma ok_spec (r : Response) : ok r = true ↔ 200 ≤ status r ≤ 299.
Proof. unfold ok. rewrite andb_true_iff, !Z.leb_le. reflexivity. Qed.

Lemma page_results_fails (net : Network) (url : string) :
  fetch_fails net url → page_results net url = None.
Proof.
  unfold page_results. intros [-> | (r & -> & Hr)]; [reflexivity |].
  destruct (ok r) eqn:Hok; [| reflexivity]. now apply ok_spec in Hok.
Qed.

(** One turn of the loop of [fetchTrendingAnime]: the request of the
    page is issued and the anime of the page, if any, are added. *)
Lemma anime_pages_step (net : Network) (page : Z) (rest : list Z)
    (allResults : list Item.t) (p : Page.t) :
  ∃ p', after_requests [anime_url page] p p'
        ∧ anime_pages net (page :: rest) allResults p
          = anime_pages net rest (allResults ++ anime_of_page net page) p'.
Proof.
  cbn [anime_pages]. unfold bind at 1.
  match goal with |- context [try_catch ?m ?h p] => set (block := try_catch m h) end.
  assert (Hblock : ∃ p', after_requests [anime_url page] p p'
                         ∧ block p = (Return (allResults ++ anime_of_page net page), p')).
  { subst block. unfold try_catch, bind at 1. rewrite fetch_run.
    unfold anime_of_page, page_results.
    pose proof (after_requests_fetch (anime_url page) p) as Hp.
    destruct (net (anime_url page)) as [r |]; [destruct (ok r); cbn [negb] |].
    - unfold json. destruct (body r) as [data |]; cbn [mbind option_bind].
      + unfold bind, ret, array_of.
        destruct (results data) as [items |]; cbn [mbind option_bind throw].
        * eauto.
        * rewrite app_nil_r. caught p.
      + rewrite app_nil_r. caught p.
    - rewrite app_nil_r. caught p.
    - rewrite app_nil_r. caught p. }
  destruct Hblock as (p' & Hp' & ->). eauto.
Qed.

Lemma anime_pages_run (net : Network) (pages : list Z) :
  ∀ (allResults : list Item.t) (p : Page.t),
    ∃ p', after_requests (map anime_url pages) p p'
          ∧ anime_pages net pages allResults p
            = (Return (allResults ++ concat (map (anime_of_page net) pages)), p').
Proof.
  induction pages as [| page rest IH]; intros allResults p.
  - exists p. cbn. rewrite app_nil_r. split; [apply after_requests_refl | reflexivity].
  - destruct (anime_pages_step net page rest allResults p) as (q & Hq & ->).
    destruct (IH (allResults ++ anime_of_page net page) q) as (r & Hr & ->).
    exists r. split.
    + apply (after_requests_trans [anime_url page] _ p q r); assumption.
    + cbn [map concat]. now rewrite app_assoc.
Qed.

Lemma is_anime_spec (item : Item.t) :
  is_anime item = true
  ↔ Item.original_language item = Str "ja"
    ∧ ∃ ids, Item.genre_ids item = Some ids ∧ 16 ∈ ids.
Proof.
  unfold is_anime. rewrite andb_true_iff, strict_eq_spec.
  apply and_iff_compat_l.
  destruct (Item.genre_ids item) as [ids |].
  - rewrite existsb_exists. split.
    + intros (x & Hin & Hx). apply Z.eqb_eq in Hx. subst x.
      exists ids. split; [reflexivity | now apply list_elem_of_In].
    + intros (ids' & [= <-] & Hin). exists 16.
      split; [now apply list_elem_of_In | reflexivity].
  - split; [discriminate | intros (ids & [=] & _)].
Qed.

Lemma anime_of_page_anime (net : Network) (page : Z) (item : Item.t) :
  item ∈ anime_of_page net page → is_anime item = true.
Proof.
  unfold anime_of_page.
  destruct (page_results net (anime_url page)) as [items |].
  - intros H. now apply list_elem_of_filter in H as [H _].
  - intros H. now apply elem_of_nil in H.
Qed.

Lemma fetchTrendingAnime_run (net : Network) (p : Page.t) :
  ∃ p', after_requests [anime_url 1; anime_url 2; anime_url 3] p p'
        ∧ fetchTrendingAnime net p
          = (Return (anime_of_page net 1 ++ anime_of_page net 2
                       ++ anime_of_page net 3), p').
Proof.
  destruct (anime_pages_run net (seqZ 1 MAX_PAGES) [] p) as (p' & Hp' & Hrun).
  exists p'. split; [exact Hp' |].
  unfold fetchTrendingAnime. rewrite Hrun.
  change (seqZ 1 MAX_PAGES) with [1; 2; 3].
  cbn [map concat app]. now rewrite app_nil_r.
Qed.

(** C3: [fetchTrendingAnime] issues the requests for pages 1, 2 and 3,
    one after the other, and returns, in page order, what each page
    contributes: from a page that answers, exactly its items whose
    original_language is "ja" and whose genre_ids contain 16, in their
    order; from a page that fails, nothing, while the other pages still
    contribute.  So every item returned is Japanese and has genre 16, and
    an item with language "ja" but without genre 16 is not returned. *)
Theorem fetchTrendingAnime_pages (net : Network) (p : Page.t) :
  (∃ p',
     fetchTrendingAnime net p
     = (Return (anime_of_page net 1 ++ anime_of_page net 2
                  ++ anime_of_page net 3), p')
     ∧ after_requests [anime_url 1; anime_url 2; anime_url 3] p p')
  ∧ (∀ page items,
       page_results net (anime_url page) = Some items →
       anime_of_page net page
       = filter (fun item => is_anime item = true) items)
  ∧ (∀ item,
       is_anime item = true
       ↔ Item.original_language item = Str "ja"
         ∧ ∃ ids, Item.genre_ids item = Some ids ∧ 16 ∈ ids)
  ∧ (∀ page, fetch_fails net (anime_url page) → anime_of_page net page = [])
  ∧ (∀ item,
       item ∈ anime_of_page net 1 ++ anime_of_page net 2 ++ anime_of_page net 3 →
       Item.original_language item = Str "ja"
       ∧ ∃ ids, Item.genre_ids item = Some ids ∧ 16 ∈ ids)
  ∧ (∀ item ids,
       Item.original_language item = Str "ja" →
       Item.genre_ids item = Some ids → 16 ∉ ids →
       item ∉ anime_of_page net 1 ++ anime_of_page net 2 ++ anime_of_page net 3).
Proof.
  assert (Hin : ∀ item,
    item ∈ anime_of_page net 1 ++ anime_of_page net 2 ++ anime_of_page net 3 →
    is_anime item = true).
  { intros item H. rewrite !elem_of_app in H.
    destruct H as [H | [H | H]]; eapply anime_of_page_anime; eassumption. }
  split; [| split; [| split; [| split; [| split]]]].
  - destruct (fetchTrendingAnime_run net p) as (p' & Hp' & Hrun). eauto.
  - intros page items Hpage. unfold anime_of_page. now rewrite Hpage.
  - apply is_anime_spec.
  - intros page Hfail. unfold anime_of_page.
    now rewrite page_results_fails.
  - intros item Hitem. apply is_anime_spec, Hin. assumption.
  - intros item ids Hlang Hids Hno Hitem.
    apply Hin, is_anime_spec in Hitem as (_ & ids' & Hids' & H16).
    congruence.
Qed.

Lemma fetchTrendingAnime_pages_witness :
  fst (fetchTrendingAnime Sample.flaky Sample.fresh)
  = Return [Sample.one_piece; Sample.demon_slayer]
  ∧ anime_of_page Sample.flaky 1 = [Sample.one_piece]
  ∧ anime_of_page Sample.flaky 2 = []
  ∧ Sample.shogun ∉ anime_of_page Sample.flaky 1 ++ anime_of_page Sample.flaky 2
                     ++ anime_of_page Sample.flaky 3.
Proof.
  destruct (fetchTrendingAnime_pages Sample.flaky Sample.fresh)
    as ((p' & Hrun & _) & Hanswer & _ & Hfail & _ & Hexcluded).
  split; [| split; [| split]].
  - rewrite Hrun. vm_compute. reflexivity.
  - rewrite (Hanswer 1 [Sample.game_of_thrones; Sample.one_piece; Sample.shogun]);
      vm_compute; reflexivity.
  - apply Hfail. right. exists {| status := 503; body := None |}.
    split; [vm_compute; reflexivity | cbn; lia].
  - apply (Hexcluded Sample.shogun [18; 10768]); [reflexivity | reflexivity |].
    rewrite !not_elem_of_cons. repeat split; [discriminate | discriminate |].
    apply not_elem_of_nil.
Defined.

Lemma fetchTrending_run (net : Network) (type : string) (p : Page.t) :
  ∃ p', after_requests [trending_url type] p p'
        ∧ fetchTrending net type p
          = (Return (default [] (page_results net (trending_url type))), p').
Proof.
  unfold fetchTrending, try_catch, bind at 1. rewrite fetch_run.
  unfold page_results.
  pose proof (after_requests_fetch (trending_url type) p) as Hp.
  destruct (net (trending_url type)) as [r |]; [destruct (ok r); cbn [negb] |].
  - unfold json. destruct (body r) as [data |]; cbn [mbind option_bind].
    + unfold bind, ret. eauto.
    + caught p.
  - caught p.
  - caught p.
Qed.


(** ** Initialization *)

Lemma displayList_children (items : list Item.t) (id id' : string) (p : Page.t) :
  Page.children (snd (displayList items id p)) !! id'
  = if decide (id = id')
    then (λ _, posters items) <$> Page.children p !! id
    else Page.children p !! id'.
Proof.
  rewrite displayList_run. cbn [snd].
  destruct (bool_decide_reflect (is_Some (Page.children p !! id))) as [Hc | Hc].
  - destruct (decide (id = id')) as [<- | Hne].
    + rewrite children_with_children. now destruct Hc as [nodes ->].
    + now apply children_with_children_ne.
  - destruct (decide (id = id')) as [<- | Hne]; [| reflexivity].
    destruct (Page.children p !! id); [| reflexivity].
    exfalso. apply Hc. eauto.
Qed.

Lemma displayBanner_run (item : option Item.t) (p : Page.t) :
  ∃ p', displayBanner item p = (Return tt, p')
        ∧ Page.children p' = Page.children p.
Proof.
  unfold displayBanner. destruct item as [item |]; [| now exists p].
  destruct (truthy (Item.backdrop_path item)); [| now exists p].
  eexists. split; reflexivity.
Qed.

(** [init] never throws, and fills each list container that exists with
    the posters of its own fetch. *)
Lemma init_run (net : Network) (random : Q) (p : Page.t) :
  ∃ p',
    init net random p = (Return tt, p')
    ∧ Page.children p' !! "movies-list"
      = (λ _, posters (trending_of net "movie")) <$> Page.children p !! "movies-list"
    ∧ Page.children p' !! "tvshows-list"
      = (λ _, posters (trending_of net "tv")) <$> Page.children p !! "tvshows-list"
    ∧ Page.children p' !! "anime-list"
      = (λ _, posters (anime_of net)) <$> Page.children p !! "anime-list".
Proof.
  unfold init.
  destruct (fetchTrending_run net "movie" p) as (p1 & (_ & H1 & _) & R1).
  destruct (fetchTrending_run net "tv" p1) as (p2 & (_ & H2 & _) & R2).
  destruct (fetchTrendingAnime_run net p2) as (p3 & (_ & H3 & _) & R3).
  fold (trending_of net "movie") in R1. fold (trending_of net "tv") in R2.
  fold (anime_of net) in R3.
  unfold bind at 1. rewrite R1. unfold bind at 1. rewrite R2.
  unfold bind at 1. rewrite R3.
  set (banner := if (0 <? length (trending_of net "movie"))%nat
                 then displayBanner (pick random (trending_of net "movie"))
                 else ret tt).
  assert (Hbanner : ∃ p4, banner p3 = (Return tt, p4)
                          ∧ Page.children p4 = Page.children p3).
  { subst banner. destruct (0 <? length (trending_of net "movie"))%nat.
    - apply displayBanner_run.
    - now exists p3. }
  destruct Hbanner as (p4 & R4 & H4).
  unfold bind at 1. rewrite R4.
  pose proof (displayList_run (trending_of net "movie") "movies-list" p4) as R5.
  pose proof (displayList_children (trending_of net "movie") "movies-list") as L5.
  set (p5 := snd (displayList (trending_of net "movie") "movies-list" p4)) in *.
  pose proof (displayList_run (trending_of net "tv") "tvshows-list" p5) as R6.
  pose proof (displayList_children (trending_of net "tv") "tvshows-list") as L6.
  set (p6 := snd (displayList (trending_of net "tv") "tvshows-list" p5)) in *.
  pose proof (displayList_run (anime_of net) "anime-list" p6) as R7.
  pose proof (displayList_children (anime_of net) "anime-list") as L7.
  set (p7 := snd (displayList (anime_of net) "anime-list" p6)) in *.
  assert (E5 : displayList (trending_of net "movie") "movies-list" p4 = (Return tt, p5)).
  { subst p5. now rewrite R5. }
  assert (E6 : displayList (trending_of net "tv") "tvshows-list" p5 = (Return tt, p6)).
  { subst p6. now rewrite R6. }
  assert (E7 : displayList (anime_of net) "anime-list" p6 = (Return tt, p7)).
  { subst p7. now rewrite R7. }
  unfold bind at 1. rewrite E5. unfold bind at 1. rewrite E6.
  unfold bind at 1. rewrite E7.
  eexists. split; [reflexivity |].
  cbn [Page.children Page.set_window_handlers].
  assert (H0 : Page.children p4 = Page.children p) by congruence.
  subst p7 p6 p5.
  rewrite !(L7 _ _), !(L6 _ _), !(L5 _ _), H0.
  repeat split.
Qed.

(** C6: for every media kind, when the request of [fetchTrending] fails
    (the transport fails, or the status is outside 200-299)
    [fetchTrending] catches the failure and returns the empty array instead
    of throwing; hence [init] always completes, and each of the three list
    containers is filled with the posters of its own fetch, whatever
    happened to the other two. *)
Theorem fetchTrending_fails_soft (net : Network) :
  (∀ type p,
     fetch_fails net (trending_url type) →
     trending_of net type = []
     ∧ ∃ p', fetchTrending net type p = (Return [], p')
             ∧ after_requests [trending_url type] p p')
  ∧ (∀ type p, ∃ p', fetchTrending net type p = (Return (trending_of net type), p'))
  ∧ (∀ random p, ∃ p',
       init net random p = (Return tt, p')
       ∧ Page.children p' !! "movies-list"
         = (λ _, posters (trending_of net "movie"))
             <$> Page.children p !! "movies-list"
       ∧ Page.children p' !! "tvshows-list"
         = (λ _, posters (trending_of net "tv"))
             <$> Page.children p !! "tvshows-list"
       ∧ Page.children p' !! "anime-list"
         = (λ _, posters (anime_of net)) <$> Page.children p !! "anime-list").
Proof.
  split; [| split].
  - intros type p Hfail.
    assert (E : trending_of net type = []).
    { unfold trending_of. now rewrite page_results_fails. }
    split; [exact E |].
    destruct (fetchTrending_run net type p) as (p' & Hp' & Hrun).
    fold (trending_of net type) in Hrun. rewrite E in Hrun. eauto.
  - intros type p.
    destruct (fetchTrending_run net type p) as (p' & _ & Hrun). eauto.
  - apply init_run.
Qed.

Lemma fetchTrending_fails_soft_witness :
  fst (fetchTrending Sample.flaky "tv" Sample.fresh) = Return []
  ∧ fst (fetchTrending Sample.broken "movie" Sample.fresh) = Return []
  ∧ ∃ p',
      init Sample.flaky (1 # 2) Sample.fresh = (Return tt, p')
      ∧ Page.children p' !! "movies-list" = Some (posters [Sample.fight_club])
      ∧ Page.children p' !! "tvshows-list" = Some []
      ∧ Page.children p' !! "anime-list"
        = Some (posters [Sample.one_piece; Sample.demon_slayer]).
Proof.
  split; [| split].
  - destruct (fetchTrending_fails_soft Sample.flaky) as (Hfail & _ & _).
    destruct (Hfail "tv" Sample.fresh) as (_ & p' & -> & _);
      [left; vm_compute; reflexivity | reflexivity].
  - destruct (fetchTrending_fails_soft Sample.broken) as (Hfail & _ & _).
    destruct (Hfail "movie" Sample.fresh) as (_ & p' & -> & _); [| reflexivity].
    right. exists {| status := 500; body := None |}.
    split; [reflexivity | cbn; lia].
  - destruct (fetchTrending_fails_soft Sample.flaky) as (_ & _ & Hinit).
    destruct (Hinit (1 # 2) Sample.fresh) as (p' & Hrun & Hm & Ht & Ha).
    exists p'. split; [exact Hrun |].
    rewrite Hm, Ht, Ha. repeat split.
Defined.

(** ** Search *)

Lemma trimStart_white_space (w s : string) :
  w ∈ white_space → trimStart (w +:+ s) = trimStart s.
Proof.
  intros H. unfold white_space in H. cbn [map] in H.
  repeat (apply elem_of_cons in H as [-> | H]; [reflexivity |]).
  now apply elem_of_nil in H.
Qed.

Lemma trimStart_whitespace_only (s : string) :
  whitespace_only s → trimStart s = "".
Proof.
  induction 1 as [| w s Hw _ IH]; [reflexivity |].
  now rewrite trimStart_white_space.
Qed.

(** [trim] leaves nothing of a string of white space. *)
Lemma trim_whitespace_only (s : string) : whitespace_only s → trim s = "".
Proof.
  intros H. unfold trim. now rewrite trimStart_whitespace_only.
Qed.

Lemma searchTMDB_blank (net : Network) (p : Page.t) :
  is_Some (Page.children p !! "search-results") →
  trim (read_prop p "search-input" "value") = "" →
  searchTMDB net p = (Return tt, with_children "search-results" [] p).
Proof.
  intros Hc Hq. unfold searchTMDB, bind at 1, get_prop.
  unfold bind at 1. rewrite (set_innerHTML_there p _ _ Hc), Hq. reflexivity.
Qed.

(** Without its container [searchTMDB] throws before any request. *)
Lemma searchTMDB_no_container (net : Network) (p : Page.t) :
  Page.children p !! "search-results" = None →
  searchTMDB net p = (Throw TypeError, p).
Proof.
  intros H. unfold searchTMDB, bind at 1, get_prop.
  unfold bind at 1, set_innerHTML. now rewrite H.
Qed.

Lemma space_white_space : " " ∈ white_space.
Proof. unfold white_space. cbn [map]. do 5 apply list_elem_of_further. apply list_elem_of_here. Qed.

Lemma spaces_whitespace_only (n : nat) : whitespace_only (repeat_string " " n).
Proof.
  induction n as [| n IH]; [apply blank_empty |].
  apply (blank_cons " " (repeat_string " " n) space_white_space IH).
Qed.

(** C1, as the code has it: for every search input that is empty or
    made of white space only, [searchTMDB] returns without issuing any
    request and leaves the search-results container empty (it clears the
    container before it looks at the query); nothing else on the page
    changes. *)
Theorem searchTMDB_blank_query (net : Network) (p : Page.t) :
  whitespace_only (read_prop p "search-input" "value") →
  is_Some (Page.children p !! "search-results") →
  searchTMDB net p = (Return tt, with_children "search-results" [] p)
  ∧ Page.requests (snd (searchTMDB net p)) = Page.requests p
  ∧ Page.children (snd (searchTMDB net p)) !! "search-results" = Some [].
Proof.
  intros Hblank Hc.
  rewrite (searchTMDB_blank net p Hc (trim_whitespace_only _ Hblank)).
  split; [reflexivity |]. split; [reflexivity |].
  apply children_with_children.
Qed.

Lemma searchTMDB_blank_query_witness :
  searchTMDB Sample.offline (Sample.searching "   ")
  = (Return tt, with_children "search-results" [] (Sample.searching "   ")).
Proof.
  apply (searchTMDB_blank_query Sample.offline (Sample.searching "   ")).
  - apply (spaces_whitespace_only 3).
  - vm_compute. eauto.
Defined.

(** C1 as stated fails: with the posters of an earlier search in the
    container and three spaces in the input, [searchTMDB] issues no
    request but the container does not keep its content. *)
Lemma searchTMDB_blank_query_counterexample :
  whitespace_only (read_prop (Sample.searching "   ") "search-input" "value")
  ∧ Page.requests (snd (searchTMDB Sample.offline (Sample.searching "   ")))
    = Page.requests (Sample.searching "   ")
  ∧ Page.children (Sample.searching "   ") !! "search-results"
    = Some (search_posters [Sample.fight_club])
  ∧ Page.children (snd (searchTMDB Sample.offline (Sample.searching "   ")))
      !! "search-results"
    = Some []
  ∧ Page.children (snd (searchTMDB Sample.offline (Sample.searching "   ")))
      !! "search-results"
    ≠ Page.children (Sample.searching "   ") !! "search-results".
Proof.
  split; [apply (spaces_whitespace_only 3) |].
  split; [reflexivity |]. split; [reflexivity |]. split; [reflexivity |].
  intros H. vm_compute in H. discriminate H.
Qed.

Lemma skipped_spec (item : Item.t) :
  skipped item = true
  ↔ Item.media_type item = Str "person"
    ∨ (truthy (Item.poster_path item) = false
       ∧ truthy (Item.backdrop_path item) = false)
    ∨ (truthy (Item.title item) = false ∧ truthy (Item.name item) = false).
Proof.
  unfold skipped.
  rewrite !orb_true_iff, !andb_true_iff, !negb_true_iff, strict_eq_spec.
  tauto.
Qed.

Lemma nonempty_true (s : string) : s ≠ "" → nonempty s = true.
Proof. intros H. unfold nonempty. now destruct (String.eqb_spec s ""). Qed.

(** *** The stages of a search *)

Lemma search_failed_run (error : exn) (q : Page.t) :
  is_Some (Page.children q !! "search-results") →
  search_failed error q = (Return None, search_error error q).
Proof.
  intros Hc. unfold search_failed, bind at 1, console_error, modify.
  unfold bind at 1. rewrite set_innerHTML_there by exact Hc.
  reflexivity.
Qed.

(** The first stage: the container is cleared; then the call is over
    for a blank query, fails for a query that cannot be encoded, and
    waits for the response otherwise, its request issued. *)
Lemma search_start_run (p : Page.t) :
  is_Some (Page.children p !! "search-results") →
  search_start p
  = if negb (nonempty (trim (read_prop p "search-input" "value")))
    then (Return None, with_children "search-results" [] p)
    else if has_lone_surrogate (trim (read_prop p "search-input" "value"))
    then (Return None,
          search_error URIError (with_children "search-results" [] p))
    else (Return (Some (AwaitingResponse
                          (search_url (trim (read_prop p "search-input" "value"))))),
          with_request (search_url (trim (read_prop p "search-input" "value")))
            (with_children "search-results" [] p)).
Proof.
  intros Hc. unfold search_start, bind at 1, get_prop.
  unfold bind at 1. rewrite (set_innerHTML_there p _ _ Hc).
  change (parse_html "") with (@nil Node).
  destruct (nonempty _); cbn [negb]; [| reflexivity].
  unfold encode_component. destruct (has_lone_surrogate _); [| reflexivity].
  apply search_failed_run. rewrite children_with_children. eauto.
Qed.

(** The second stage, with the response. *)
Lemma search_respond_run (net : Network) (url : string) (q : Page.t) :
  is_Some (Page.children q !! "search-results") →
  search_resume net (AwaitingResponse url) q
  = match net url with
    | None => (Return None, search_error NetworkFailure q)
    | Some r =>
        if negb (ok r) then (Return None, search_error (HttpError (status r)) q)
        else (Return (Some (AwaitingBody r)), q)
    end.
Proof.
  intros Hc. unfold search_resume, try_catch, bind, settle.
  destruct (net url) as [r |]; cbn [throw ret].
  - destruct (ok r); cbn [negb throw ret]; [reflexivity |].
    now apply search_failed_run.
  - now apply search_failed_run.
Qed.

(** The third stage, with the body: the survivors are appended to what
    the container holds by then. *)
Lemma search_render_run (net : Network) (r : Response) (q : Page.t)
    (nodes : list Node) :
  Page.children q !! "search-results" = Some nodes →
  search_resume net (AwaitingBody r) q
  = match body r with
    | None => (Return None, search_error SyntaxError q)
    | Some data =>
        match results data with
        | None => (Return None, search_error TypeError q)
        | Some items =>
            (Return None,
             with_children "search-results" (rendered_onto nodes items) q)
        end
    end.
Proof.
  intros Hn. assert (Hc : is_Some (Page.children q !! "search-results")) by eauto.
  unfold search_resume, try_catch, bind at 1, json.
  destruct (body r) as [data |]; [| now apply search_failed_run].
  unfold ret at 1, bind at 1, array_of.
  destruct (results data) as [items |]; [| now apply search_failed_run].
  unfold ret at 1, bind at 1. unfold bind at 1.
  rewrite (forEach_append (fun item => negb (skipped item))
             (fun item => Element (create_poster item (CloseSearchThenShowDetails item)))
             "search-results" _ items) with (nodes := nodes);
    [| intros item; now destruct (skipped item) | exact Hn].
  assert (Hposters :
    map (fun item => Element (create_poster item (CloseSearchThenShowDetails item)))
      (filter (fun item => negb (skipped item) = true) items)
    = search_posters items).
  { unfold search_posters. f_equal. apply list_filter_iff.
    intros item. apply negb_true_iff. }
  rewrite Hposters.
  unfold bind at 1, children_length. rewrite children_with_children.
  unfold rendered_onto, bind.
  destruct (Nat.eqb (length (nodes ++ search_posters items)) 0).
  - rewrite set_innerHTML_there by (rewrite children_with_children; eauto).
    change (parse_html no_results_message) with [Markup no_results_message].
    now rewrite with_children_twice.
  - reflexivity.
Qed.

(** A whole call, whatever runs while it waits, as long as that leaves
    the container in the page. *)
Lemma search_run_exact (net : Network) (meanwhile1 meanwhile2 : Page.t → Page.t)
    (p : Page.t) :
  is_Some (Page.children p !! "search-results") →
  keeps_container meanwhile1 → keeps_container meanwhile2 →
  search_run net meanwhile1 meanwhile2 p
  = (Return tt, search_trace net meanwhile1 meanwhile2 p).
Proof.
  intros Hc H1 H2. unfold search_run, bind at 1.
  rewrite (search_start_run p Hc). unfold search_trace.
  set (query := trim (read_prop p "search-input" "value")).
  destruct (nonempty query); cbn [negb]; [| reflexivity].
  destruct (has_lone_surrogate query); [reflexivity |].
  unfold bind at 1, modify. unfold bind at 1.
  set (responded := meanwhile1 _).
  assert (Hr : is_Some (Page.children responded !! "search-results")).
  { apply H1. cbn. rewrite lookup_insert_eq. eauto. }
  rewrite (search_respond_run net _ _ Hr).
  destruct (net (search_url query)) as [r |]; [| reflexivity].
  destruct (ok r); cbn [negb]; [| reflexivity].
  unfold bind at 1, modify. unfold bind at 1.
  destruct (H2 _ Hr) as [nodes Hn].
  rewrite (search_render_run net r _ nodes Hn), Hn. cbn [default].
  destruct (body r) as [data |]; [| reflexivity].
  destruct (results data); reflexivity.
Qed.

(** A finished call leaves the container in the page. *)
Lemma search_trace_container (net : Network)
    (meanwhile1 meanwhile2 : Page.t → Page.t) (p : Page.t) :
  is_Some (Page.children (search_trace net meanwhile1 meanwhile2 p)
             !! "search-results").
Proof.
  unfold search_trace, search_error.
  repeat match goal with
         | |- context [if ?b then _ else _] => destruct b
         | |- context [match ?x with Some _ => _ | None => _ end] => destruct x
         end;
    rewrite children_with_children; eauto.
Qed.

Lemma search_run_keeps (net : Network) (meanwhile1 meanwhile2 : Page.t → Page.t)
    (value : string) :
  keeps_container meanwhile1 → keeps_container meanwhile2 →
  keeps_container
    (fun q => snd (search_run net meanwhile1 meanwhile2
                     (with_prop "search-input" "value" value q))).
Proof.
  intros H1 H2 q Hc.
  rewrite search_run_exact by assumption.
  apply search_trace_container.
Qed.

Lemma children_search_error (error : exn) (q : Page.t) :
  Page.children (search_error error q) !! "search-results"
  = Some [Markup error_message].
Proof. apply children_with_children. Qed.

(** *** What a stage leaves as it was *)

Section Unchanged.

Context {X : Type} (f : Page.t → X).

Lemma unchanged_ret {A} (a : A) : unchanged f (ret a).
Proof. intros p. reflexivity. Qed.

Lemma unchanged_throw {A} (e : exn) : unchanged f (@throw A e).
Proof. intros p. reflexivity. Qed.

Lemma unchanged_bind {A B} (m : M A) (k : A → M B) :
  unchanged f m → (∀ a, unchanged f (k a)) → unchanged f (bind m k).
Proof.
  intros Hm Hk p. unfold bind. specialize (Hm p).
  destruct (m p) as [[a | e] p']; cbn [snd] in *; [rewrite Hk |]; exact Hm.
Qed.

Lemma unchanged_try_catch {A} (m : M A) (handler : exn → M A) :
  unchanged f m → (∀ e, unchanged f (handler e)) →
  unchanged f (try_catch m handler).
Proof.
  intros Hm Hh p. unfold try_catch. specialize (Hm p).
  destruct (m p) as [[a | e] p']; cbn [snd] in *; [| rewrite Hh]; exact Hm.
Qed.

Lemma unchanged_forEach {A} (l : list A) (g : A → M unit) :
  (∀ x, unchanged f (g x)) → unchanged f (forEach l g).
Proof.
  intros Hg. induction l as [| x rest IH]; cbn [forEach].
  - apply unchanged_ret.
  - apply unchanged_bind; [apply Hg | intros _; exact IH].
Qed.

Lemma unchanged_modify (g : Page.t → Page.t) :
  (∀ p, f (g p) = f p) → unchanged f (modify g).
Proof. intros Hg p. apply Hg. Qed.

Lemma unchanged_get_prop (element property : string) :
  unchanged f (get_prop element property).
Proof. intros p. reflexivity. Qed.

Lemma unchanged_children_length (id : string) :
  unchanged f (children_length id).
Proof.
  intros p. unfold children_length. now destruct (Page.children p !! id).
Qed.

(** Observations that do not look at the results container nor at the
    console. *)
Hypothesis f_children : ∀ nodes p, f (with_children "search-results" nodes p) = f p.
Hypothesis f_console : ∀ errors p, f (Page.set_console_errors errors p) = f p.

Lemma unchanged_set_innerHTML (html : string) :
  unchanged f (set_innerHTML "search-results" html).
Proof.
  intros p. unfold set_innerHTML.
  destruct (Page.children p !! "search-results"); [apply f_children | reflexivity].
Qed.

Lemma unchanged_appendChild (node : Node) :
  unchanged f (appendChild "search-results" node).
Proof.
  intros p. unfold appendChild.
  destruct (Page.children p !! "search-results"); [apply f_children | reflexivity].
Qed.

Lemma unchanged_search_failed (error : exn) : unchanged f (search_failed error).
Proof.
  unfold search_failed. apply unchanged_bind.
  - apply unchanged_modify. intros p. apply f_console.
  - intros _. apply unchanged_bind; [apply unchanged_set_innerHTML |].
    intros _. apply unchanged_ret.
Qed.

(** A stage after an await writes to the results container and to the
    console only. *)
Lemma unchanged_search_resume (net : Network) (s : suspended) :
  unchanged f (search_resume net s).
Proof.
  destruct s as [url | response]; cbn [search_resume];
    (apply unchanged_try_catch; [| apply unchanged_search_failed]).
  - apply unchanged_bind.
    + unfold settle. destruct (net url); [apply unchanged_ret | apply unchanged_throw].
    + intros r. destruct (negb (ok r)); [apply unchanged_throw | apply unchanged_ret].
  - apply unchanged_bind.
    { unfold json. destruct (body response);
        [apply unchanged_ret | apply unchanged_throw]. }
    intros data. apply unchanged_bind.
    { unfold array_of. destruct (results data);
        [apply unchanged_ret | apply unchanged_throw]. }
    intros items. apply unchanged_bind.
    { apply unchanged_forEach. intros item.
      destruct (skipped item); [apply unchanged_ret | apply unchanged_appendChild]. }
    intros _. apply unchanged_bind; [apply unchanged_children_length |].
    intros count. apply unchanged_bind; [| intros _; apply unchanged_ret].
    destruct (Nat.eqb count 0); [apply unchanged_set_innerHTML | apply unchanged_ret].
Qed.

(** The first stage writes to the request log as well. *)
Lemma unchanged_search_start :
  (∀ requests p, f (Page.set_requests requests p) = f p) →
  unchanged f search_start.
Proof.
  intros f_requests. unfold search_start.
  apply unchanged_bind; [apply unchanged_get_prop |]. intros value.
  apply unchanged_bind; [apply unchanged_set_innerHTML |]. intros _.
  destruct (negb (nonempty (trim value))); [apply unchanged_ret |].
  destruct (encode_component (trim value)) as [encoded | error];
    [| apply unchanged_search_failed].
  apply unchanged_bind; [| intros _; apply unchanged_ret].
  apply unchanged_modify. intros p. apply f_requests.
Qed.

End Unchanged.

(** A result with a backdrop and no poster is kept, and its image points
    at the text of [null]. *)
Lemma search_posters_backdrop_only :
  search_posters [Sample.teaser]
  = [Element (create_poster Sample.teaser
                (CloseSearchThenShowDetails Sample.teaser))]
  ∧ src (create_poster Sample.teaser (CloseSearchThenShowDetails Sample.teaser))
    = "https://image.tmdb.org/t/p/originalnull".
Proof. split; reflexivity. Qed.

(** C7 as stated fails when searches overlap.  With "pitt" typed, a
    call starts and waits for its response; the user types "fight" and a
    second call runs to its end, leaving its poster; the first call then
    receives its results, a person only, of which none survives, finds
    the container not empty and writes no message: the container holds
    the poster of the other search. *)
Lemma searchTMDB_messages_counterexample :
  trim (read_prop Overlap.typed_pitt "search-input" "value") = "pitt"
  ∧ search_results Overlap.catalogue "pitt" = Some [Sample.someone]
  ∧ filter (fun item => skipped item = false) [Sample.someone] = []
  ∧ fst (search_run Overlap.catalogue Overlap.second_search id Overlap.typed_pitt)
    = Return tt
  ∧ Page.children
      (snd (search_run Overlap.catalogue Overlap.second_search id
              Overlap.typed_pitt))
      !! "search-results"
    = Some (search_posters [Sample.fight_club])
  ∧ Page.children
      (snd (search_run Overlap.catalogue Overlap.second_search id
              Overlap.typed_pitt))
      !! "search-results"
    ≠ Some [Markup no_results_message].
Proof.
  split; [reflexivity |]. split; [reflexivity |]. split; [reflexivity |].
  split; [reflexivity |]. split; [reflexivity |].
  intros H. vm_compute in H. discriminate H.
Qed.

(** C7, as the code has it: for every query that is not empty after
    trimming, a call of [searchTMDB] ends without throwing, whatever runs
    while it waits for the network; it skips the results that are of type
    person, or lack both poster and backdrop, or lack both title and
    name.  When the call receives results and what runs meanwhile leaves
    the results container as it is, the container ends up holding
    exactly the no-results message if no result survives, and exactly the
    posters of the survivors otherwise.  When the request fails
    (transport, or a status outside 200-299) the container holds exactly
    the error message as the call ends, whatever ran meanwhile. *)
Theorem searchTMDB_messages (net : Network)
    (meanwhile1 meanwhile2 : Page.t → Page.t) (p : Page.t) :
  is_Some (Page.children p !! "search-results") →
  trim (read_prop p "search-input" "value") ≠ "" →
  keeps_container meanwhile1 → keeps_container meanwhile2 →
  let query := trim (read_prop p "search-input" "value") in
  let content :=
    Page.children (snd (search_run net meanwhile1 meanwhile2 p))
      !! "search-results" in
  fst (search_run net meanwhile1 meanwhile2 p) = Return tt
  ∧ (∀ item,
       skipped item = true
       ↔ Item.media_type item = Str "person"
         ∨ (truthy (Item.poster_path item) = false
            ∧ truthy (Item.backdrop_path item) = false)
         ∨ (truthy (Item.title item) = false
            ∧ truthy (Item.name item) = false))
  ∧ (∀ items,
       search_results net query = Some items →
       leaves_container meanwhile1 → leaves_container meanwhile2 →
       let surviving := filter (fun item => skipped item = false) items in
       (surviving = [] → content = Some [Markup no_results_message])
       ∧ (surviving ≠ [] →
          content
          = Some (map (fun item =>
                         Element (create_poster item
                                    (CloseSearchThenShowDetails item)))
                    surviving)))
  ∧ (fetch_fails net (search_url query) →
     content = Some [Markup error_message]).
Proof.
  intros Hc Hq H1 H2 query content. subst content.
  rewrite (search_run_exact net meanwhile1 meanwhile2 p Hc H1 H2).
  cbn [fst snd]. split; [reflexivity |]. split; [apply skipped_spec |].
  unfold search_trace. fold query.
  rewrite (nonempty_true query Hq). cbn [negb]. split.
  - intros items Hitems Hq1 Hq2. cbv zeta.
    unfold search_results, page_results in Hitems.
    destruct (has_lone_surrogate query); [discriminate |].
    destruct (net (search_url query)) as [r |]; [| discriminate].
    destruct (ok r); [| discriminate]. cbn [negb].
    destruct (body r) as [data |]; [| discriminate].
    cbn [mbind option_bind] in Hitems. rewrite Hitems.
    rewrite children_with_children, Hq2, Hq1.
    assert (Hempty :
      Page.children
        (with_request (search_url query) (with_children "search-results" [] p))
        !! "search-results" = Some []).
    { cbn. apply lookup_insert_eq. }
    rewrite Hempty. unfold rendered_onto, search_posters, default, id.
    cbn [from_option app]. set (surviving := filter (fun item => skipped item = false) items).
    rewrite length_map. split.
    + intros ->. reflexivity.
    + intros Hne. destruct surviving; [contradiction | reflexivity].
  - intros Hfail.
    destruct (has_lone_surrogate query); [apply children_search_error |].
    destruct Hfail as [-> | (r & -> & Hr)]; [apply children_search_error |].
    destruct (ok r) eqn:Hok; [now apply ok_spec in Hok |].
    apply children_search_error.
Qed.

Lemma searchTMDB_messages_witness :
  Page.children
    (snd (search_run Sample.obscure Overlap.opens_details id
            (Sample.searching " pitt ")))
    !! "search-results"
  = Some [Markup no_results_message]
  ∧ Page.children
      (snd (search_run Sample.offline Overlap.second_search id
              (Sample.searching " pitt ")))
      !! "search-results"
    = Some [Markup error_message]
  ∧ Page.children
      (snd (search_run Sample.broken id id (Sample.searching " pitt ")))
      !! "search-results"
    = Some [Markup error_message].
Proof.
  assert (Hc : ∀ q, is_Some (Page.children (Sample.searching q) !! "search-results")).
  { intros q. vm_compute. eauto. }
  assert (Hq : trim (read_prop (Sample.searching " pitt ") "search-input" "value") ≠ "").
  { vm_compute. discriminate. }
  assert (Hid : leaves_container id) by (intros q; reflexivity).
  assert (Hkid : keeps_container id) by (intros q H; exact H).
  assert (Hdetails : leaves_container Overlap.opens_details).
  { intros q. reflexivity. }
  assert (Hkdetails : keeps_container Overlap.opens_details).
  { intros q H. rewrite Hdetails. exact H. }
  assert (Hsecond : keeps_container Overlap.second_search).
  { apply (search_run_keeps Overlap.catalogue id id "fight" Hkid Hkid). }
  split; [| split].
  - destruct (searchTMDB_messages Sample.obscure Overlap.opens_details id
                (Sample.searching " pitt ") (Hc _) Hq Hkdetails Hkid)
      as (_ & _ & Hok & _).
    apply (Hok [Sample.someone; Sample.unreleased]);
      [reflexivity | exact Hdetails | exact Hid | reflexivity].
  - destruct (searchTMDB_messages Sample.offline Overlap.second_search id
                (Sample.searching " pitt ") (Hc _) Hq Hsecond Hkid)
      as (_ & _ & _ & Hfail).
    apply Hfail. left. reflexivity.
  - destruct (searchTMDB_messages Sample.broken id id
                (Sample.searching " pitt ") (Hc _) Hq Hkid Hkid)
      as (_ & _ & _ & Hfail).
    apply Hfail. right. exists {| status := 500; body := None |}.
    split; [reflexivity | cbn; lia].
Defined.

(** ** Selection *)

Lemma read_with_prop_ne (p : Page.t) (e k e' k' v : string) :
  (e, k) ≠ (e', k') →
  read_prop (with_prop e k v p) e' k' = read_prop p e' k'.
Proof.
  intros H. unfold read_prop, with_prop, Page.set_properties.
  cbn [Page.properties]. now rewrite lookup_insert_ne.
Qed.

(** [showDetails] makes the item the selection, chooses the first
    provider and loads its URL in the video frame; the containers are left
    alone. *)
Lemma showDetails_selects (item : Item.t) (q : Q) (p : Page.t) :
  Item.vote_average item = Some q → 0 ≤ stars q ≤ 5 →
  ∃ p',
    showDetails item p = (Return tt, p')
    ∧ Page.currentItem p' = Some item
    ∧ Page.children p' = Page.children p
    ∧ read_prop p' "server" "value" = "vidsrc.cc"
    ∧ read_prop p' "modal-video" "src" = embed_url "vidsrc.cc" item.
Proof.
  intros Hq Hstars. unfold showDetails. rewrite Hq. cbn [to_number].
  rewrite (renderRating_stars q Hstars).
  unfold bind, set_prop, modify, lift, ret.
  set (p1 := with_prop "server" "value" "vidsrc.cc" _).
  assert (Hsel : Page.currentItem p1 = Some item) by reflexivity.
  rewrite (changeServer_selected p1 item Hsel).
  assert (Hserver : read_prop p1 "server" "value" = "vidsrc.cc")
    by apply read_with_prop.
  rewrite Hserver.
  eexists. split; [reflexivity |]. split; [reflexivity |]. split; [reflexivity |].
  split.
  - now rewrite !read_with_prop_ne by discriminate.
  - rewrite !read_with_prop_ne by discriminate. apply read_with_prop.
Qed.

(** * Further properties *)

(** ** The range of the rating *)

Lemma Qfloor_ge (z : Z) (x : Q) : z ≤ Qfloor x ↔ (inject_Z z <= x)%Q.
Proof.
  split.
  - intros H. apply Qle_trans with (inject_Z (Qfloor x)); [| apply Qfloor_le].
    now rewrite <- Zle_Qle.
  - intros H. rewrite <- (Qfloor_Z z). now apply Qfloor_resp_le.
Qed.

Lemma stars_negative (q : Q) : stars q < 0 ↔ (q < -1)%Q.
Proof.
  unfold stars. change (q / 2)%Q with (q * (1 # 2))%Q. split.
  - intros H. apply Qnot_le_lt. intros Hq.
    assert (0 ≤ Qfloor (q * (1 # 2) + (1 # 2))); [| lia].
    apply Qfloor_ge. change (inject_Z 0) with 0%Q. lra.
  - intros H. apply Z.nle_gt. intros Hs. apply Qfloor_ge in Hs.
    change (inject_Z 0) with 0%Q in Hs. lra.
Qed.

Lemma stars_above_five (q : Q) : 5 < stars q ↔ (11 <= q)%Q.
Proof.
  unfold stars. change (q / 2)%Q with (q * (1 # 2))%Q. split.
  - intros H. assert (Hs : 6 ≤ Qfloor (q * (1 # 2) + (1 # 2))) by lia.
    apply Qfloor_ge in Hs. change (inject_Z 6) with 6%Q in Hs. lra.
  - intros H. assert (6 ≤ Qfloor (q * (1 # 2) + (1 # 2))); [| lia].
    apply Qfloor_ge. change (inject_Z 6) with 6%Q. lra.
Qed.

Lemma stars_range (q : Q) :
  0 ≤ stars q ≤ 5 ↔ (-1 <= q)%Q ∧ (q < 11)%Q.
Proof.
  split.
  - intros H. split.
    + apply Qnot_lt_le. rewrite <- stars_negative. lia.
    + apply Qnot_le_lt. rewrite <- stars_above_five. lia.
  - intros [Hlo Hhi]. split.
    + apply Z.nlt_ge. rewrite stars_negative. lra.
    + apply Z.nlt_ge. rewrite stars_above_five. lra.
Qed.

(** X1: [renderRating] throws a RangeError exactly for the scores below
    -1 and the scores from 11 on; for every other score, those a little
    outside 0-10 included, it returns [k] filled glyphs followed by
    [5 - k] empty ones. *)
Theorem renderRating_range (q : Q) :
  (renderRating (Num q) = Throw RangeError ↔ (q < -1)%Q ∨ (11 <= q)%Q)
  ∧ ((-1 <= q)%Q → (q < 11)%Q →
     ∃ k : nat,
       (k ≤ 5)%nat
       ∧ renderRating (Num q)
         = Return (repeat_string "★" k +:+ repeat_string "☆" (5 - k))).
Proof.
  split.
  - split.
    + intros Hthrow. destruct (decide (0 ≤ stars q ≤ 5)) as [Hs | Hs].
      * rewrite (renderRating_stars q Hs) in Hthrow. discriminate.
      * rewrite <- stars_negative, <- stars_above_five. lia.
    + intros Hout. apply renderRating_out_of_range.
      now rewrite stars_negative, stars_above_five.
  - intros Hlo Hhi.
    assert (Hs : 0 ≤ stars q ≤ 5) by now apply stars_range.
    exists (Z.to_nat (stars q)). split; [lia |].
    rewrite (renderRating_stars q Hs). do 3 f_equal. lia.
Qed.

Lemma renderRating_range_witness :
  ∃ k : nat,
    (k ≤ 5)%nat
    ∧ renderRating (Num (-1))
      = Return (repeat_string "★" k +:+ repeat_string "☆" (5 - k)).
Proof.
  apply (proj2 (renderRating_range (-1))); [discriminate | reflexivity].
Defined.

(** ** The details modal *)

Lemma rating_of_in_range (item : Item.t) :
  score_in_range item →
  renderRating (to_number (Item.vote_average item)) = Return (rating_of item).
Proof.
  unfold score_in_range, rating_of.
  destruct (Item.vote_average item) as [q |]; [| reflexivity].
  intros Hq. cbn [to_number].
  now rewrite (renderRating_stars q (proj2 (stars_range q) Hq)).
Qed.

Lemma with_prop_twice (p : Page.t) (e k v v' : string) :
  with_prop e k v (with_prop e k v' p) = with_prop e k v p.
Proof.
  unfold with_prop, Page.set_properties. cbn. now rewrite insert_insert_eq.
Qed.

(** Reading a property through a stack of assignments. *)
Ltac read_props :=
  repeat first
    [ rewrite read_with_prop
    | rewrite read_with_prop_ne by discriminate ].

(** X2: for an item whose score [renderRating] accepts and whose id is
    an integer in the safe range, [showDetails] completes; the item
    becomes the selection, the title falls back to the name and the
    description to a fixed text, the provider is reset to "vidsrc.cc"
    whatever it was and the video frame gets the vidsrc.cc URL of this
    item, which ends in the decimal numeral of its id, the modal is shown
    and scrolling suspended; the containers and the request log are
    untouched. *)
Theorem showDetails_opens (item : Item.t) (p : Page.t) :
  score_in_range item →
  safe_integer (Item.id item) →
  ∃ p',
    showDetails item p = (Return tt, p')
    ∧ Page.currentItem p' = Some item
    ∧ read_prop p' "modal-title" "textContent"
      = to_text (if truthy (Item.title item) then Item.title item
                 else Item.name item)
    ∧ read_prop p' "modal-description" "textContent"
      = (if truthy (Item.overview item) then to_text (Item.overview item)
         else "No description available.")
    ∧ read_prop p' "modal-rating" "innerHTML" = rating_of item
    ∧ read_prop p' "server" "value" = "vidsrc.cc"
    ∧ read_prop p' "modal-video" "src"
      = "https://vidsrc.cc/v2/embed/" +:+ kind_of item +:+ "/"
          +:+ pretty (Item.id item)
    ∧ read_prop p' "modal" "style.display" = "flex"
    ∧ read_prop p' "body" "style.overflow" = "hidden"
    ∧ Page.children p' = Page.children p
    ∧ Page.requests p' = Page.requests p.
Proof.
  intros Hscore _. unfold showDetails.
  rewrite (rating_of_in_range item Hscore).
  unfold bind, set_prop, modify, lift, ret.
  set (p1 := with_prop "server" "value" "vidsrc.cc" _).
  assert (Hsel : Page.currentItem p1 = Some item) by reflexivity.
  rewrite (changeServer_selected p1 item Hsel).
  assert (Hserver : read_prop p1 "server" "value" = "vidsrc.cc")
    by apply read_with_prop.
  rewrite Hserver. subst p1.
  eexists. split; [reflexivity |]. split; [reflexivity |].
  repeat split; read_props; try reflexivity.
  unfold or_else. now destruct (truthy (Item.overview item)).
Qed.

Lemma showDetails_opens_witness :
  ∃ p',
    showDetails Sample.one_piece (Sample.watching Sample.fight_club "vidsrc.net")
    = (Return tt, p')
    ∧ Page.currentItem p' = Some Sample.one_piece
    ∧ read_prop p' "modal-title" "textContent" = "One Piece"
    ∧ read_prop p' "modal-description" "textContent" = "No description available."
    ∧ read_prop p' "modal-video" "src" = "https://vidsrc.cc/v2/embed/tv/37854".
Proof.
  destruct (showDetails_opens Sample.one_piece
              (Sample.watching Sample.fight_club "vidsrc.net"))
    as (p' & Hrun & Hsel & Htitle & Hdesc & _ & _ & Hsrc & _).
  - split; [discriminate | reflexivity].
  - unfold safe_integer; cbn; lia.
  - exists p'. repeat split; assumption.
Defined.

(** X3: for an item whose score is below -1 or at least 11,
    [showDetails] throws the RangeError of [renderRating] half way: the
    item is already the selection and its title, description and image
    are written, but the rating, the provider, the video frame, the
    display of the modal and the scrolling are as they were. *)
Theorem showDetails_bad_score (item : Item.t) (q : Q) (p : Page.t) :
  Item.vote_average item = Some q → (q < -1)%Q ∨ (11 <= q)%Q →
  ∃ p',
    showDetails item p = (Throw RangeError, p')
    ∧ Page.currentItem p' = Some item
    ∧ read_prop p' "modal-title" "textContent"
      = to_text (or_else (Item.title item) (Item.name item))
    ∧ read_prop p' "modal-image" "src"
      = API_CONFIG.IMG_URL +:+ to_string (Item.poster_path item)
    ∧ read_prop p' "modal-rating" "innerHTML" = read_prop p "modal-rating" "innerHTML"
    ∧ read_prop p' "server" "value" = read_prop p "server" "value"
    ∧ read_prop p' "modal-video" "src" = read_prop p "modal-video" "src"
    ∧ read_prop p' "modal" "style.display" = read_prop p "modal" "style.display"
    ∧ read_prop p' "body" "style.overflow" = read_prop p "body" "style.overflow".
Proof.
  intros Hq Hout. unfold showDetails. rewrite Hq. cbn [to_number].
  rewrite renderRating_out_of_range
    by now rewrite stars_negative, stars_above_five.
  unfold bind, set_prop, modify, lift, ret.
  eexists. split; [reflexivity |]. split; [reflexivity |].
  repeat split; read_props; reflexivity.
Qed.

Lemma showDetails_bad_score_witness :
  ∃ p',
    showDetails Fixture.overrated
      (with_prop "modal-video" "src" "https://vidsrc.cc/v2/embed/movie/550"
         (Sample.watching Sample.fight_club "vidsrc.cc"))
    = (Throw RangeError, p')
    ∧ Page.currentItem p' = Some Fixture.overrated
    ∧ read_prop p' "modal-video" "src" = "https://vidsrc.cc/v2/embed/movie/550".
Proof.
  destruct (showDetails_bad_score Fixture.overrated 12
              (with_prop "modal-video" "src" "https://vidsrc.cc/v2/embed/movie/550"
                 (Sample.watching Sample.fight_club "vidsrc.cc")))
    as (p' & Hrun & Hsel & _ & _ & _ & _ & Hsrc & _).
  - reflexivity.
  - right. discriminate.
  - exists p'. repeat split; assumption.
Defined.

(** ** Changing the server, again *)

Lemma changeServer_run (p : Page.t) :
  changeServer p
  = (Return tt,
     match Page.currentItem p with
     | Some item =>
         with_prop "modal-video" "src"
           (embed_url (read_prop p "server" "value") item) p
     | None => p
     end).
Proof. unfold changeServer. now destruct (Page.currentItem p). Qed.

(** X4: [changeServer] never throws, changes nothing but the source of
    the video frame (the selection, the containers, the request log and
    every other property stay), and doing it twice is the same as doing it
    once. *)
Theorem changeServer_frame (p : Page.t) :
  fst (changeServer p) = Return tt
  ∧ Page.currentItem (snd (changeServer p)) = Page.currentItem p
  ∧ Page.children (snd (changeServer p)) = Page.children p
  ∧ Page.requests (snd (changeServer p)) = Page.requests p
  ∧ (∀ element property,
       (element, property) ≠ ("modal-video", "src") →
       read_prop (snd (changeServer p)) element property
       = read_prop p element property)
  ∧ changeServer (snd (changeServer p)) = changeServer p.
Proof.
  rewrite (changeServer_run (snd (changeServer p))), !changeServer_run.
  cbn [fst snd].
  destruct (Page.currentItem p) as [item |] eqn:Hsel.
  - split; [reflexivity |]. split; [exact Hsel |].
    do 2 (split; [reflexivity |]). split.
    + intros element property Hne. now apply read_with_prop_ne.
    + cbn [Page.currentItem with_prop Page.set_properties].
      rewrite Hsel, with_prop_twice.
      now rewrite read_with_prop_ne by discriminate.
  - rewrite Hsel. do 4 (split; [reflexivity |]). split; reflexivity.
Qed.

Lemma embed_url_templates (item : Item.t) :
  embed_url "vidsrc.cc" item
  = "https://vidsrc.cc/v2/embed/" +:+ kind_of item +:+ "/"
      +:+ pretty (Item.id item)
  ∧ embed_url "vidsrc.net" item
    = "https://vidsrc.net/embed/" +:+ kind_of item +:+ "/?tmdb="
        +:+ pretty (Item.id item)
  ∧ embed_url "player.videasy.net" item
    = "https://player.videasy.net/" +:+ kind_of item +:+ "/"
        +:+ pretty (Item.id item).
Proof. repeat split. Qed.

(** For a recognised provider the URL tells the kind and the id. *)
Lemma embed_url_inj (server : string) (a b : Item.t) :
  recognised server →
  embed_url server a = embed_url server b →
  kind_of a = kind_of b ∧ Item.id a = Item.id b.
Proof.
  intros Hrec Hurl.
  assert (Hk : ∀ i, kind_of i = "movie" ∨ kind_of i = "tv").
  { intros i. unfold kind_of. destruct (_ || _); auto. }
  destruct (embed_url_templates a) as (Ha1 & Ha2 & Ha3).
  destruct (embed_url_templates b) as (Hb1 & Hb2 & Hb3).
  destruct Hrec as [-> | [-> | ->]];
    [rewrite Ha1, Hb1 in Hurl | rewrite Ha2, Hb2 in Hurl
     | rewrite Ha3, Hb3 in Hurl];
    clear Ha1 Ha2 Ha3 Hb1 Hb2 Hb3;
    destruct (Hk a) as [Ha | Ha], (Hk b) as [Hb | Hb];
    rewrite Ha, Hb in *; cbn [String.append] in Hurl; simplify_eq;
    (split; [reflexivity | assumption]).
Qed.

(** X5: with an item selected whose id is an integer in the safe range,
    and the provider "vidsrc.net", the frame gets
    https://vidsrc.net/embed/KIND/?tmdb=ID, with "player.videasy.net" it
    gets https://player.videasy.net/KIND/ID, ID being the decimal numeral
    of the id; and for each recognised provider the URL tells such items
    apart: two items with ids in the safe range get the same URL only
    when they have the same kind and the same id. *)
Theorem changeServer_providers (p : Page.t) (item : Item.t) :
  Page.currentItem p = Some item →
  safe_integer (Item.id item) →
  (read_prop p "server" "value" = "vidsrc.net" →
   read_prop (snd (changeServer p)) "modal-video" "src"
   = "https://vidsrc.net/embed/" +:+ kind_of item +:+ "/?tmdb="
       +:+ pretty (Item.id item))
  ∧ (read_prop p "server" "value" = "player.videasy.net" →
     read_prop (snd (changeServer p)) "modal-video" "src"
     = "https://player.videasy.net/" +:+ kind_of item +:+ "/"
         +:+ pretty (Item.id item))
  ∧ (∀ other,
       safe_integer (Item.id other) →
       recognised (read_prop p "server" "value") →
       embed_url (read_prop p "server" "value") other
       = embed_url (read_prop p "server" "value") item →
       kind_of other = kind_of item ∧ Item.id other = Item.id item).
Proof.
  intros Hsel _. rewrite (changeServer_selected p item Hsel). cbn [snd].
  rewrite read_with_prop. split; [| split].
  - intros Hserver. now rewrite Hserver.
  - intros Hserver. now rewrite Hserver.
  - intros other _ Hrec Hurl. now apply (embed_url_inj _ _ _ Hrec).
Qed.

Lemma changeServer_frame_witness :
  read_prop (snd (changeServer (Sample.watching Sample.fight_club "vidsrc.net")))
    "server" "value"
  = "vidsrc.net".
Proof.
  destruct (changeServer_frame (Sample.watching Sample.fight_club "vidsrc.net"))
    as (_ & _ & _ & _ & Hother & _).
  rewrite Hother; [reflexivity | discriminate].
Defined.

Lemma changeServer_providers_witness :
  read_prop (snd (changeServer (Sample.watching Sample.fight_club "vidsrc.net")))
    "modal-video" "src"
  = "https://vidsrc.net/embed/movie/?tmdb=550"
  ∧ read_prop
      (snd (changeServer (Sample.watching Sample.game_of_thrones "player.videasy.net")))
      "modal-video" "src"
    = "https://player.videasy.net/tv/1399"
  ∧ embed_url "vidsrc.net" Fixture.fight_club_series
    ≠ embed_url "vidsrc.net" Sample.fight_club.
Proof.
  assert (Hsafe : ∀ n, - 9007199254740991 ≤ n ≤ 9007199254740991 → safe_integer n)
    by (intros n Hn; exact Hn).
  split; [| split].
  - apply (changeServer_providers
             (Sample.watching Sample.fight_club "vidsrc.net")
             Sample.fight_club eq_refl); [apply Hsafe; cbn; lia |].
    reflexivity.
  - apply (changeServer_providers
             (Sample.watching Sample.game_of_thrones "player.videasy.net")
             Sample.game_of_thrones eq_refl); [apply Hsafe; cbn; lia |].
    reflexivity.
  - intros Hurl.
    destruct (changeServer_providers
                (Sample.watching Sample.fight_club "vidsrc.net")
                Sample.fight_club eq_refl) as (_ & _ & Hinj);
      [apply Hsafe; cbn; lia |].
    destruct (Hinj Fixture.fight_club_series) as [Hkind _].
    + apply Hsafe; cbn; lia.
    + right. left. reflexivity.
    + exact Hurl.
    + discriminate Hkind.
Defined.

(** X6: [closeModal] hides the modal, empties the source of the video
    frame and restores scrolling, but keeps the selection and the chosen
    provider: a later [changeServer] loads the player of the item again,
    in the hidden modal. *)
Theorem closeModal_keeps_selection (p : Page.t) :
  ∃ p',
    closeModal p = (Return tt, p')
    ∧ read_prop p' "modal" "style.display" = "none"
    ∧ read_prop p' "modal-video" "src" = ""
    ∧ read_prop p' "body" "style.overflow" = "auto"
    ∧ Page.currentItem p' = Page.currentItem p
    ∧ read_prop p' "server" "value" = read_prop p "server" "value"
    ∧ Page.children p' = Page.children p
    ∧ (∀ item,
         Page.currentItem p = Some item →
         read_prop (snd (changeServer p')) "modal-video" "src"
         = embed_url (read_prop p "server" "value") item
         ∧ read_prop (snd (changeServer p')) "modal" "style.display" = "none").
Proof.
  unfold closeModal, bind, set_prop, modify.
  eexists. split; [reflexivity |].
  do 3 (split; [read_props; reflexivity |]).
  split; [reflexivity |]. split; [read_props; reflexivity |].
  split; [reflexivity |].
  intros item Hsel. rewrite changeServer_run. cbn [snd].
  cbn [Page.currentItem with_prop Page.set_properties]. rewrite Hsel.
  fold (with_prop "modal" "style.display" "none" p).
  fold (with_prop "modal-video" "src" ""
          (with_prop "modal" "style.display" "none" p)).
  fold (with_prop "body" "style.overflow" "auto"
          (with_prop "modal-video" "src" ""
             (with_prop "modal" "style.display" "none" p))).
  split; read_props; reflexivity.
Qed.

Lemma closeModal_keeps_selection_witness :
  ∃ p',
    closeModal (snd (showDetails Sample.fight_club Sample.fresh)) = (Return tt, p')
    ∧ read_prop p' "modal-video" "src" = ""
    ∧ read_prop (snd (changeServer p')) "modal-video" "src"
      = "https://vidsrc.cc/v2/embed/movie/550".
Proof.
  destruct (closeModal_keeps_selection
              (snd (showDetails Sample.fight_club Sample.fresh)))
    as (p' & Hrun & _ & Hsrc & _ & _ & _ & _ & Hagain).
  exists p'. split; [exact Hrun |]. split; [exact Hsrc |].
  apply (Hagain Sample.fight_club). reflexivity.
Defined.

(** ** Rendered posters *)

Lemma displayList_rendered (items : list Item.t) (containerId : string)
    (p : Page.t) (node : Node) :
  is_Some (Page.children p !! containerId) →
  (node ∈ default [] (Page.children (snd (displayList items containerId p))
                        !! containerId)
   ↔ ∃ item, item ∈ items ∧ truthy (Item.poster_path item) = true
             ∧ node = Element (create_poster item (ShowDetails item))).
Proof.
  intros Hc. rewrite displayList_run, bool_decide_eq_true_2 by assumption.
  cbn [snd]. rewrite children_with_children. cbn [default].
  unfold posters. split.
  - intros H. apply list_elem_of_fmap in H as (item & -> & Hin).
    apply list_elem_of_filter in Hin as [Hk Hin]. eauto.
  - intros (item & Hin & Hk & ->). apply list_elem_of_fmap.
    exists item. split; [reflexivity |]. now apply list_elem_of_filter.
Qed.

(** X7: every poster [displayList] puts in an existing container is a
    button that can be focused, whose click opens the details of its item
    and whose key handler does the same on Enter and on Space and nothing
    on any other key. *)
Theorem displayList_keyboard_parity (items : list Item.t) (containerId : string)
    (p : Page.t) (node : Node) :
  is_Some (Page.children p !! containerId) →
  node ∈ default [] (Page.children (snd (displayList items containerId p))
                       !! containerId) →
  ∃ img item,
    node = Element img ∧ item ∈ items
    ∧ role img = "button" ∧ tabindex img = "0"
    ∧ classList img = ["media-poster"]
    ∧ onclick img = ShowDetails item
    ∧ onkeydown img "Enter" = Some (ShowDetails item)
    ∧ onkeydown img " " = Some (ShowDetails item)
    ∧ (∀ key, key ≠ "Enter" → key ≠ " " → onkeydown img key = None).
Proof.
  intros Hc Hnode.
  apply (displayList_rendered items containerId p node Hc) in Hnode
    as (item & Hin & _ & ->).
  exists (create_poster item (ShowDetails item)), item.
  do 8 (split; [reflexivity || assumption |]).
  intros key HE HS. cbn [onkeydown create_poster].
  apply String.eqb_neq in HE, HS. now rewrite HE, HS.
Qed.

Lemma displayList_keyboard_parity_witness :
  ∃ img item,
    Element (create_poster Sample.one_piece (ShowDetails Sample.one_piece))
    = Element img
    ∧ item ∈ [Sample.unreleased; Sample.one_piece]
    ∧ role img = "button" ∧ tabindex img = "0"
    ∧ classList img = ["media-poster"]
    ∧ onclick img = ShowDetails item
    ∧ onkeydown img "Enter" = Some (ShowDetails item)
    ∧ onkeydown img " " = Some (ShowDetails item)
    ∧ (∀ key, key ≠ "Enter" → key ≠ " " → onkeydown img key = None).
Proof.
  apply (displayList_keyboard_parity [Sample.unreleased; Sample.one_piece]
           "anime-list" Sample.fresh).
  - vm_compute. eauto.
  - vm_compute. apply list_elem_of_here.
Defined.

(** X8: the image of every poster [displayList] renders points at the
    image base URL followed by the non-empty poster path of its item, so
    never at the text of [null] or [undefined]; its alternative text is
    "Poster for " followed by the title, or by the name when there is no
    title. *)
Theorem displayList_sources (items : list Item.t) (containerId : string)
    (p : Page.t) (node : Node) :
  is_Some (Page.children p !! containerId) →
  node ∈ default [] (Page.children (snd (displayList items containerId p))
                       !! containerId) →
  ∃ img item path,
    node = Element img ∧ item ∈ items
    ∧ Item.poster_path item = Str path ∧ path ≠ ""
    ∧ src img = "https://image.tmdb.org/t/p/original" +:+ path
    ∧ alt img
      = "Poster for "
          +:+ to_string (if truthy (Item.title item) then Item.title item
                         else Item.name item).
Proof.
  intros Hc Hnode.
  apply (displayList_rendered items containerId p node Hc) in Hnode
    as (item & Hin & Hposter & ->).
  apply truthy_spec in Hposter as (path & Hpath & Hne).
  exists (create_poster item (ShowDetails item)), item, path.
  do 4 (split; [reflexivity || assumption |]).
  cbn [src alt create_poster]. rewrite Hpath. split; reflexivity.
Qed.

Lemma displayList_sources_witness :
  ∃ img item path,
    Element (create_poster Sample.one_piece (ShowDetails Sample.one_piece))
    = Element img
    ∧ item ∈ [Sample.unreleased; Sample.one_piece]
    ∧ Item.poster_path item = Str path ∧ path ≠ ""
    ∧ src img = "https://image.tmdb.org/t/p/original" +:+ path
    ∧ alt img
      = "Poster for "
          +:+ to_string (if truthy (Item.title item) then Item.title item
                         else Item.name item).
Proof.
  apply (displayList_sources [Sample.unreleased; Sample.one_piece]
           "anime-list" Sample.fresh).
  - vm_compute. eauto.
  - vm_compute. apply list_elem_of_here.
Defined.

(** X9: [displayList] never throws and touches nothing but its own
    container: the selection, the properties, the request log and the
    other containers stay; without the container the page is unchanged;
    and rendering again replaces what was rendered, it does not add to
    it. *)
Theorem displayList_frame (items items' : list Item.t) (containerId : string)
    (p : Page.t) :
  fst (displayList items containerId p) = Return tt
  ∧ Page.currentItem (snd (displayList items containerId p)) = Page.currentItem p
  ∧ Page.properties (snd (displayList items containerId p)) = Page.properties p
  ∧ Page.requests (snd (displayList items containerId p)) = Page.requests p
  ∧ (∀ other,
       other ≠ containerId →
       Page.children (snd (displayList items containerId p)) !! other
       = Page.children p !! other)
  ∧ (Page.children p !! containerId = None →
     snd (displayList items containerId p) = p)
  ∧ displayList items containerId (snd (displayList items' containerId p))
    = displayList items containerId p.
Proof.
  rewrite (displayList_run items containerId (snd (displayList items' containerId p))).
  rewrite !displayList_run. cbn [fst snd].
  destruct (bool_decide_reflect (is_Some (Page.children p !! containerId)))
    as [Hc | Hc].
  - do 4 (split; [reflexivity |]). split; [| split].
    + intros other Hne. now apply children_with_children_ne.
    + intros Hnone. rewrite Hnone in Hc. now destruct Hc.
    + rewrite bool_decide_eq_true_2
        by (rewrite children_with_children; eauto).
      now rewrite with_children_twice.
  - do 4 (split; [reflexivity |]). split; [reflexivity |]. split; [reflexivity |].
    now rewrite bool_decide_eq_false_2.
Qed.

Lemma displayList_frame_witness :
  Page.children
    (snd (displayList [Sample.fight_club] "movies-list"
            (Sample.searching "pitt")))
    !! "search-results"
  = Some (search_posters [Sample.fight_club])
  ∧ snd (displayList [Sample.fight_club] "no-such-list" Sample.fresh)
    = Sample.fresh.
Proof.
  split.
  - destruct (displayList_frame [Sample.fight_club] [] "movies-list"
                (Sample.searching "pitt")) as (_ & _ & _ & _ & Hother & _).
    rewrite Hother; [reflexivity | discriminate].
  - destruct (displayList_frame [Sample.fight_club] [] "no-such-list"
                Sample.fresh) as (_ & _ & _ & _ & _ & Hnone & _).
    apply Hnone. reflexivity.
Defined.

(** ** Fetching, to the letter *)

Lemma page_results_error (net : Network) (url : string) :
  page_results net url = None ↔ is_Some (results_error net url).
Proof.
  unfold results_error, fetch_error, page_results.
  destruct (net url) as [r |]; [| split; eauto].
  destruct (ok r); [| split; eauto].
  destruct (body r) as [data |]; cbn; [| split; eauto].
  destruct (results data); split; eauto; try discriminate.
  intros [e He]. discriminate.
Qed.

Lemma fetchTrending_exact (net : Network) (type : string) (p : Page.t) :
  fetchTrending net type p
  = (Return (trending_of net type),
     log_error ("Error fetching trending " +:+ type +:+ ":")
       (fetch_error net (trending_url type))
       (with_request (trending_url type) p)).
Proof.
  unfold fetchTrending, try_catch, bind at 1. rewrite fetch_run.
  unfold trending_of, page_results, fetch_error.
  destruct (net (trending_url type)) as [r |]; [| reflexivity].
  destruct (ok r); cbn [negb]; [| reflexivity].
  unfold json. now destruct (body r) as [data |].
Qed.

(** X10: [fetchTrending] never throws and issues exactly one request, to
    the trending URL of the kind; from a response that answers with JSON
    it returns the items as they come, unfiltered, and an empty array
    when the [results] are missing, without a word on the console; when
    the transport, the status or the JSON fails it returns the empty
    array and writes exactly one line on the console. *)
Theorem fetchTrending_once (net : Network) (type : string) (p : Page.t) :
  ∃ p',
    fetchTrending net type p = (Return (trending_of net type), p')
    ∧ Page.requests p' = Page.requests p ++ [trending_url type]
    ∧ (∀ r data,
         net (trending_url type) = Some r → 200 ≤ status r ≤ 299 →
         body r = Some data →
         trending_of net type = default [] (results data)
         ∧ Page.console_errors p' = Page.console_errors p)
    ∧ (∀ e,
         fetch_error net (trending_url type) = Some e →
         trending_of net type = []
         ∧ Page.console_errors p'
           = Page.console_errors p
               ++ [("Error fetching trending " +:+ type +:+ ":", e)])
    ∧ Page.currentItem p' = Page.currentItem p
    ∧ Page.children p' = Page.children p
    ∧ Page.properties p' = Page.properties p.
Proof.
  eexists. split; [apply fetchTrending_exact |].
  unfold trending_of, page_results, fetch_error.
  destruct (net (trending_url type)) as [r |] eqn:Hnet.
  - destruct (ok r) eqn:Hok.
    + destruct (body r) as [data |] eqn:Hbody.
      * split; [reflexivity |]. split; [| split; [discriminate | repeat split]].
        intros r' data' [= <-] _ Hbody'.
        assert (data' = data) as -> by congruence. split; reflexivity.
      * split; [reflexivity |]. split; [| split; [| repeat split]].
        -- intros r' data' [= <-] _ Hbody'. congruence.
        -- intros e [= <-]. split; reflexivity.
    + split; [reflexivity |]. split; [| split; [| repeat split]].
      * intros r' data' [= <-] Hr. apply ok_spec in Hr. congruence.
      * intros e [= <-]. split; reflexivity.
  - split; [reflexivity |]. split; [| split; [| repeat split]].
    + intros r' data' [=].
    + intros e [= <-]. split; reflexivity.
Qed.

Lemma fetchTrending_once_witness :
  trending_of Sample.flaky "movie" = [Sample.fight_club; Sample.unreleased]
  ∧ trending_of Sample.broken "tv" = [].
Proof.
  split.
  - destruct (fetchTrending_once Sample.flaky "movie" Sample.fresh)
      as (p' & _ & _ & Hok & _).
    apply (Hok (Sample.response_of [Sample.fight_club; Sample.unreleased])
             {| results := Some [Sample.fight_club; Sample.unreleased] |});
      [reflexivity | cbn; lia | reflexivity].
  - destruct (fetchTrending_once Sample.broken "tv" Sample.fresh)
      as (p' & _ & _ & _ & Hfail & _).
    apply (Hfail (HttpError 500)). reflexivity.
Defined.

Lemma anime_pages_exact (net : Network) (pages : list Z) :
  ∀ (allResults : list Item.t) (p : Page.t),
    anime_pages net pages allResults p
    = (Return (allResults ++ concat (map (anime_of_page net) pages)),
       anime_trace net pages p).
Proof.
  induction pages as [| page rest IH]; intros allResults p.
  - cbn. now rewrite app_nil_r.
  - cbn [anime_pages anime_trace map concat]. unfold bind at 1.
    match goal with
    | |- context [try_catch ?m ?h p] => set (block := try_catch m h)
    end.
    assert (Hblock :
      block p
      = (Return (allResults ++ anime_of_page net page),
         log_error ("Error fetching trending anime page " +:+ pretty page +:+ ":")
           (results_error net (anime_url page))
           (with_request (anime_url page) p))).
    { subst block. unfold try_catch, bind at 1. rewrite fetch_run.
      unfold anime_of_page, results_error, fetch_error, page_results.
      destruct (net (anime_url page)) as [r |];
        [| rewrite app_nil_r; reflexivity].
      destruct (ok r); cbn [negb]; [| rewrite app_nil_r; reflexivity].
      unfold json. destruct (body r) as [data |]; cbn [mbind option_bind];
        [| rewrite app_nil_r; reflexivity].
      unfold bind, ret, array_of.
      destruct (results data) as [items |]; cbn [mbind option_bind];
        [reflexivity | rewrite app_nil_r; reflexivity]. }
    rewrite Hblock, IH. now rewrite app_assoc.
Qed.

Lemma anime_trace_console (net : Network) (pages : list Z) :
  ∀ p, Page.console_errors (anime_trace net pages p)
       = Page.console_errors p ++ anime_failures net pages.
Proof.
  induction pages as [| page rest IH]; intros p.
  - cbn. now rewrite app_nil_r.
  - cbn [anime_trace]. rewrite IH. unfold anime_failures. cbn [omap list_omap].
    destruct (results_error net (anime_url page)) as [e |];
      cbn [fmap option_fmap option_map log_error Page.console_errors
           Page.set_console_errors with_request Page.set_requests].
    + now rewrite <- app_assoc.
    + reflexivity.
Qed.

(** X11: [fetchTrendingAnime] never throws and writes on the console
    one line for each page whose results could not be had, in page order
    and with the number of the page, and nothing else; a page that
    answers with JSON but without a [results] array counts as failed, with
    a TypeError. *)
Theorem fetchTrendingAnime_console (net : Network) (p : Page.t) :
  ∃ p',
    fetchTrendingAnime net p = (Return (anime_of net), p')
    ∧ Page.console_errors p'
      = Page.console_errors p
          ++ anime_failures net [1] ++ anime_failures net [2]
          ++ anime_failures net [3]
    ∧ (∀ page,
         (anime_failures net [page] = []
          ↔ is_Some (page_results net (anime_url page)))
         ∧ (page_results net (anime_url page) = None →
            ∃ e, anime_failures net [page]
                 = [("Error fetching trending anime page " +:+ pretty page
                       +:+ ":", e)]))
    ∧ (∀ page r data,
         net (anime_url page) = Some r → 200 ≤ status r ≤ 299 →
         body r = Some data → results data = None →
         anime_failures net [page]
         = [("Error fetching trending anime page " +:+ pretty page +:+ ":",
             TypeError)]).
Proof.
  exists (anime_trace net [1; 2; 3] p).
  split; [| split; [| split]].
  - unfold fetchTrendingAnime. change (seqZ 1 MAX_PAGES) with [1; 2; 3].
    rewrite anime_pages_exact. cbn [map concat app].
    unfold anime_of. now rewrite app_nil_r.
  - rewrite anime_trace_console. f_equal.
    unfold anime_failures. cbn [omap list_omap].
    destruct (results_error net (anime_url 1)),
      (results_error net (anime_url 2)), (results_error net (anime_url 3));
      reflexivity.
  - intros page. unfold anime_failures. cbn [omap list_omap].
    pose proof (page_results_error net (anime_url page)) as Herr.
    destruct (results_error net (anime_url page)) as [e |];
      cbn [fmap option_fmap option_map].
    + split.
      * split; [discriminate |]. intros [items Hitems].
        assert (Hnone : page_results net (anime_url page) = None)
          by (apply Herr; eauto).
        congruence.
      * eauto.
    + split.
      * split; [| reflexivity]. intros _.
        destruct (page_results net (anime_url page)); [eauto |].
        destruct (proj1 Herr eq_refl) as [e He]. discriminate.
      * intros Hnone. destruct (proj1 Herr Hnone) as [e He]. discriminate.
  - intros page r data Hnet Hok Hbody Hresults.
    unfold anime_failures, results_error, fetch_error, page_results.
    cbn [omap list_omap]. apply ok_spec in Hok.
    rewrite Hnet, Hok, Hbody. cbn [mbind option_bind]. now rewrite Hresults.
Qed.

Lemma fetchTrendingAnime_console_witness :
  anime_failures Sample.flaky [2]
  = [("Error fetching trending anime page 2:", HttpError 503)]
  ∧ anime_failures
      (fun _ => Some {| status := 200; body := Some {| results := None |} |}) [1]
    = [("Error fetching trending anime page 1:", TypeError)].
Proof.
  split.
  - destruct (fetchTrendingAnime_console Sample.flaky Sample.fresh)
      as (p' & _ & _ & Hpage & _).
    destruct (proj2 (Hpage 2) eq_refl) as [e He].
    rewrite He. vm_compute in He. now injection He as <-.
  - destruct (fetchTrendingAnime_console
                (fun _ => Some {| status := 200; body := Some {| results := None |} |})
                Sample.fresh) as (p' & _ & _ & _ & Hmissing).
    apply (Hmissing 1 {| status := 200; body := Some {| results := None |} |}
             {| results := None |}); [reflexivity | cbn; lia | reflexivity | reflexivity].
Defined.

(** ** Search, to the letter *)

Lemma with_children_logged (id : string) (a b : list Node) (label url : string)
    (e : option exn) (p : Page.t) :
  with_children id a (log_error label e (with_request url (with_children id b p)))
  = with_children id a (log_error label e (with_request url p)).
Proof.
  destruct p as [sel ch props reqs errs hs].
  destruct e; unfold with_children, log_error, with_request,
    Page.set_children, Page.set_requests, Page.set_console_errors; cbn;
    now rewrite insert_insert_eq.
Qed.

Lemma searchTMDB_exact (net : Network) (p : Page.t) :
  is_Some (Page.children p !! "search-results") →
  trim (read_prop p "search-input" "value") ≠ "" →
  searchTMDB net p
  = (Return tt,
     with_children "search-results"
       (search_outcome net (trim (read_prop p "search-input" "value")))
       (log_error "Error during search:"
          (results_error net
             (search_url (trim (read_prop p "search-input" "value"))))
          (with_request
             (search_url (trim (read_prop p "search-input" "value"))) p))).
Proof.
  intros Hc Hq. set (query := trim (read_prop p "search-input" "value")) in *.
  unfold searchTMDB, bind at 1, get_prop. fold query.
  unfold bind at 1. rewrite (set_innerHTML_there p _ _ Hc).
  rewrite (nonempty_true query Hq). cbn [negb].
  change (parse_html "") with (@nil Node).
  set (p1 := with_children "search-results" [] p).
  unfold try_catch, bind at 1. rewrite fetch_run.
  fold (with_request (search_url query) p1).
  set (p2 := with_request (search_url query) p1).
  assert (H2 : Page.children p2 !! "search-results" = Some []).
  { subst p2 p1. cbn. apply lookup_insert_eq. }
  assert (Hfail : ∀ e,
    (console_error "Error during search:" e ;;
     set_innerHTML "search-results" error_message) p2
    = (Return tt,
       with_children "search-results" [Markup error_message]
         (log_error "Error during search:" (Some e)
            (with_request (search_url query) p)))).
  { intros e. unfold bind, console_error, modify.
    rewrite set_innerHTML_there by (cbn; rewrite lookup_insert_eq; eauto).
    change (parse_html error_message) with [Markup error_message].
    subst p2 p1. f_equal.
    apply (with_children_logged "search-results" _ _ _ _ (Some e)). }
  unfold search_outcome, results_error, fetch_error, page_results.
  destruct (net (search_url query)) as [r |]; [| apply Hfail].
  destruct (ok r); cbn [negb]; [| apply Hfail].
  unfold json. destruct (body r) as [data |]; cbn [mbind option_bind];
    [| apply Hfail].
  unfold bind at 1, ret at 1, array_of.
  destruct (results data) as [items |]; cbn [mbind option_bind];
    [| apply Hfail].
  unfold bind at 1, ret at 1. unfold bind at 1.
  rewrite (forEach_append (fun item => negb (skipped item))
             (fun item => Element (create_poster item (CloseSearchThenShowDetails item)))
             "search-results" _ items) with (nodes := @nil Node);
    [| intros item; now destruct (skipped item) | exact H2].
  cbn [app].
  assert (Hposters :
    map (fun item => Element (create_poster item (CloseSearchThenShowDetails item)))
      (filter (fun item => negb (skipped item) = true) items)
    = search_posters items).
  { unfold search_posters. f_equal. apply list_filter_iff.
    intros item. apply negb_true_iff. }
  rewrite Hposters.
  set (p3 := with_children "search-results" (search_posters items) p2).
  unfold bind at 1, children_length.
  assert (H3 : Page.children p3 !! "search-results" = Some (search_posters items))
    by apply children_with_children.
  rewrite H3.
  assert (E3 : p3 = with_children "search-results" (search_posters items)
                      (with_request (search_url query) p)).
  { subst p3 p2 p1.
    apply (with_children_logged "search-results" _ _ "" _ None). }
  destruct (Nat.eqb (length (search_posters items)) 0).
  - rewrite set_innerHTML_there by eauto.
    change (parse_html no_results_message) with [Markup no_results_message].
    rewrite E3, with_children_twice. reflexivity.
  - unfold ret. now rewrite E3.
Qed.

(** The stages run with nothing in between, for a query that
    [encodeURIComponent] accepts, are [searchTMDB]. *)
Lemma searchTMDB_uninterrupted (net : Network) (p : Page.t) :
  has_lone_surrogate (trim (read_prop p "search-input" "value")) = false →
  search_run net id id p = searchTMDB net p.
Proof.
  intros Hwf.
  destruct (Page.children p !! "search-results") as [held |] eqn:Hheld.
  - assert (Hc : is_Some (Page.children p !! "search-results")) by eauto.
    assert (Hid : keeps_container id) by (intros q H; exact H).
    rewrite (search_run_exact net id id p Hc Hid Hid). unfold search_trace.
    destruct (decide (trim (read_prop p "search-input" "value") = "")) as [Hq | Hq].
    + rewrite (searchTMDB_blank net p Hc Hq), Hq. reflexivity.
    + rewrite (searchTMDB_exact net p Hc Hq), (nonempty_true _ Hq), Hwf.
      cbn [negb]. f_equal.
      set (url := search_url (trim (read_prop p "search-input" "value"))).
      unfold search_outcome, results_error, fetch_error, page_results, id.
      fold url. unfold search_error.
      destruct (net url) as [r |];
        [| apply (with_children_logged "search-results" _ _ _ _ (Some _))].
      destruct (ok r); cbn [negb];
        [| apply (with_children_logged "search-results" _ _ _ _ (Some _))].
      destruct (body r) as [data |]; cbn [mbind option_bind];
        [| apply (with_children_logged "search-results" _ _ _ _ (Some _))].
      destruct (results data) as [items |];
        [| apply (with_children_logged "search-results" _ _ _ _ (Some _))].
      assert (Hempty :
        Page.children (with_request url (with_children "search-results" [] p))
          !! "search-results" = Some []).
      { cbn. apply lookup_insert_eq. }
      rewrite Hempty. unfold rendered_onto, default, id.
      cbn [from_option app].
      apply (with_children_logged "search-results" _ _ "" _ None).
  - rewrite (searchTMDB_no_container net p Hheld).
    unfold search_run, bind at 1, search_start, bind at 1, get_prop.
    unfold bind at 1, set_innerHTML. now rewrite Hheld.
Qed.

(** X12: a search with a query that is not blank, in a page that has
    the results container, never throws, whatever runs while it waits (as
    long as that leaves the container in the page).  For a query with a
    lone surrogate [encodeURIComponent] throws inside the try: the call
    is over before any await, no request is issued, the container holds
    the error message and the console gets one line.  For any other
    query the first stage issues exactly one request, to the search URL
    of the trimmed and encoded query, and logs nothing.  The first stage
    leaves the selection, the properties and the other containers; the
    stages after an await also leave the request log, in any page.
    Whenever the results cannot be had, be it the encoding, the
    transport, the status, a body that is not JSON or a body without a
    [results] array, the container holds the error message and the last
    line of the console is the one of the catch clause; when the results
    are had the last stage writes nothing on the console. *)
Theorem searchTMDB_once (net : Network)
    (meanwhile1 meanwhile2 : Page.t → Page.t) (p : Page.t) :
  is_Some (Page.children p !! "search-results") →
  trim (read_prop p "search-input" "value") ≠ "" →
  keeps_container meanwhile1 → keeps_container meanwhile2 →
  let query := trim (read_prop p "search-input" "value") in
  let url := search_url query in
  let started := snd (search_start p) in
  let final := snd (search_run net meanwhile1 meanwhile2 p) in
  fst (search_run net meanwhile1 meanwhile2 p) = Return tt
  ∧ (has_lone_surrogate query = true →
     fst (search_start p) = Return None
     ∧ final = started
     ∧ Page.requests final = Page.requests p
     ∧ Page.children final !! "search-results" = Some [Markup error_message]
     ∧ Page.console_errors final
       = Page.console_errors p ++ [("Error during search:", URIError)])
  ∧ (has_lone_surrogate query = false →
     fst (search_start p) = Return (Some (AwaitingResponse url))
     ∧ Page.requests started = Page.requests p ++ [url]
     ∧ Page.console_errors started = Page.console_errors p)
  ∧ (Page.currentItem started = Page.currentItem p
     ∧ Page.properties started = Page.properties p
     ∧ ∀ other, other ≠ "search-results" →
         Page.children started !! other = Page.children p !! other)
  ∧ (∀ s q,
       Page.requests (snd (search_resume net s q)) = Page.requests q
       ∧ Page.currentItem (snd (search_resume net s q)) = Page.currentItem q
       ∧ Page.properties (snd (search_resume net s q)) = Page.properties q
       ∧ ∀ other, other ≠ "search-results" →
           Page.children (snd (search_resume net s q)) !! other
           = Page.children q !! other)
  ∧ (search_results net query = None →
     Page.children final !! "search-results" = Some [Markup error_message]
     ∧ ∃ error earlier,
         Page.console_errors final
         = earlier ++ [("Error during search:", error)])
  ∧ (∀ items,
       search_results net query = Some items →
       Page.console_errors final
       = Page.console_errors (meanwhile2 (meanwhile1 started)))
  ∧ (∀ r data,
       has_lone_surrogate query = false →
       net url = Some r → 200 ≤ status r ≤ 299 → body r = Some data →
       results data = None →
       Page.children final !! "search-results" = Some [Markup error_message]).
Proof.
  intros Hc Hq H1 H2 query url started final.
  assert (Hfinal : final = search_trace net meanwhile1 meanwhile2 p).
  { subst final. now rewrite (search_run_exact net _ _ p Hc H1 H2). }
  assert (Hstart := search_start_run p Hc). fold query url in Hstart.
  rewrite (nonempty_true query Hq) in Hstart. cbn [negb] in Hstart.
  assert (Hnone : search_results net query = None →
    Page.children final !! "search-results" = Some [Markup error_message]
    ∧ ∃ error earlier,
        Page.console_errors final = earlier ++ [("Error during search:", error)]).
  { intros Hres. rewrite Hfinal. unfold search_trace. fold query url.
    rewrite (nonempty_true query Hq). cbn [negb].
    unfold search_results, page_results in Hres. fold url in Hres.
    assert (Herror : ∀ e q,
      Page.children (search_error e q) !! "search-results"
      = Some [Markup error_message]
      ∧ ∃ error earlier,
          Page.console_errors (search_error e q)
          = earlier ++ [("Error during search:", error)]).
    { intros e q. split; [apply children_search_error |].
      exists e, (Page.console_errors q). reflexivity. }
    destruct (has_lone_surrogate query); [apply Herror |].
    destruct (net url) as [r |]; [| apply Herror].
    destruct (ok r); cbn [negb]; [| apply Herror].
    destruct (body r) as [data |]; [| apply Herror].
    cbn [mbind option_bind] in Hres. rewrite Hres. apply Herror. }
  split.
  { now rewrite (search_run_exact net _ _ p Hc H1 H2). }
  split.
  { intros Hlone. rewrite Hlone in Hstart.
    assert (Hsame : final = started).
    { subst started. rewrite Hstart, Hfinal. unfold search_trace. fold query.
      rewrite (nonempty_true query Hq), Hlone. reflexivity. }
    rewrite Hsame. subst started. rewrite Hstart. cbn [fst snd].
    split; [reflexivity |]. split; [reflexivity |]. split; [reflexivity |].
    split; [apply children_search_error | reflexivity]. }
  split.
  { intros Hwf. subst started. rewrite Hwf in Hstart. rewrite Hstart.
    split; [reflexivity |]. split; reflexivity. }
  split.
  { subst started. split; [| split].
    - apply (unchanged_search_start Page.currentItem); reflexivity.
    - apply (unchanged_search_start Page.properties); reflexivity.
    - intros other Hne.
      apply (unchanged_search_start (fun q => Page.children q !! other));
        try reflexivity.
      intros nodes q. apply children_with_children_ne. congruence. }
  split.
  { intros s q. split; [| split; [| split]].
    - apply (unchanged_search_resume Page.requests); reflexivity.
    - apply (unchanged_search_resume Page.currentItem); reflexivity.
    - apply (unchanged_search_resume Page.properties); reflexivity.
    - intros other Hne.
      apply (unchanged_search_resume (fun q => Page.children q !! other));
        try reflexivity.
      intros nodes q'. apply children_with_children_ne. congruence. }
  split; [exact Hnone |].
  split.
  { intros items Hres. rewrite Hfinal. subst started. unfold search_trace.
    fold query url. rewrite (nonempty_true query Hq). cbn [negb].
    unfold search_results, page_results in Hres. fold url in Hres.
    destruct (has_lone_surrogate query); [discriminate |].
    rewrite Hstart. cbn [snd].
    destruct (net url) as [r |]; [| discriminate].
    destruct (ok r); cbn [negb]; [| discriminate].
    destruct (body r) as [data |]; [| discriminate].
    cbn [mbind option_bind] in Hres. rewrite Hres. reflexivity. }
  intros r data Hwf Hnet Hok Hbody Hresults. apply Hnone.
  unfold search_results, page_results. fold url. apply ok_spec in Hok.
  rewrite Hwf, Hnet, Hok, Hbody. exact Hresults.
Qed.

Lemma searching_ready (query : string) :
  is_Some (Page.children (Sample.searching query) !! "search-results").
Proof. vm_compute. eauto. Qed.

Lemma searchTMDB_once_witness :
  Page.requests
    (snd (search_start (Sample.searching " brad pitt ")))
  = ["https://api.themoviedb.org/3/search/multi?api_key=420dd26414b8bcb319a5d49051b6ac25&query=brad%20pitt"]
  ∧ Page.children
      (snd (search_run Fixture2.hollow Overlap.opens_details id
              (Sample.searching " brad pitt ")))
      !! "search-results"
    = Some [Markup error_message]
  ∧ Page.requests
      (snd (search_run Fixture2.finds_pilot id id
              (Sample.searching Overlap.half_emoji)))
    = []
  ∧ Page.children
      (snd (search_run Fixture2.finds_pilot id id
              (Sample.searching Overlap.half_emoji)))
      !! "search-results"
    = Some [Markup error_message].
Proof.
  assert (Hq : trim (read_prop (Sample.searching " brad pitt ")
                       "search-input" "value") ≠ "")
    by (vm_compute; discriminate).
  assert (Hq' : trim (read_prop (Sample.searching Overlap.half_emoji)
                        "search-input" "value") ≠ "")
    by (vm_compute; discriminate).
  assert (Hid : keeps_container id) by (intros q H; exact H).
  assert (Hdetails : keeps_container Overlap.opens_details)
    by (intros q H; exact H).
  destruct (searchTMDB_once Fixture2.hollow Overlap.opens_details id
              (Sample.searching " brad pitt ") (searching_ready _) Hq Hdetails Hid)
    as (_ & _ & Hone & _ & _ & _ & _ & Hmissing).
  destruct (searchTMDB_once Fixture2.finds_pilot id id
              (Sample.searching Overlap.half_emoji) (searching_ready _) Hq' Hid Hid)
    as (_ & Hlone & _).
  split; [| split; [| split]].
  - destruct Hone as (_ & Hreq & _); [reflexivity |].
    rewrite Hreq. reflexivity.
  - apply (Hmissing {| status := 200; body := Some {| results := None |} |}
             {| results := None |});
      [reflexivity | reflexivity | cbn; lia | reflexivity | reflexivity].
  - destruct Hlone as (_ & _ & Hreq & _); [reflexivity |].
    rewrite Hreq. reflexivity.
  - destruct Hlone as (_ & _ & _ & Hcontent & _); [reflexivity |].
    exact Hcontent.
Defined.



(** ** The overlays *)

Lemma showDetails_run (item : Item.t) (p : Page.t) :
  score_in_range item →
  showDetails item p = (Return tt, details_shown item p).
Proof.
  intros Hscore. unfold showDetails.
  rewrite (rating_of_in_range item Hscore).
  unfold bind, set_prop, modify, lift, ret.
  set (p1 := with_prop "server" "value" "vidsrc.cc" _).
  assert (Hsel : Page.currentItem p1 = Some item) by reflexivity.
  rewrite (changeServer_selected p1 item Hsel).
  assert (Hserver : read_prop p1 "server" "value" = "vidsrc.cc")
    by apply read_with_prop.
  rewrite Hserver. reflexivity.
Qed.

Lemma closeSearchModal_run (p : Page.t) :
  is_Some (Page.children p !! "search-results") →
  closeSearchModal p = (Return tt, search_closed p).
Proof.
  intros Hc. unfold closeSearchModal, bind, set_prop, modify.
  rewrite set_innerHTML_there by exact Hc. reflexivity.
Qed.

Lemma read_with_children (p : Page.t) (id : string) (nodes : list Node)
    (e k : string) :
  read_prop (with_children id nodes p) e k = read_prop p e k.
Proof. reflexivity. Qed.

Lemma read_set_currentItem (p : Page.t) (sel : option Item.t) (e k : string) :
  read_prop (Page.set_currentItem sel p) e k = read_prop p e k.
Proof. reflexivity. Qed.

Ltac read_page :=
  repeat first
    [ rewrite read_with_prop
    | rewrite read_with_prop_ne by discriminate
    | rewrite read_with_children
    | rewrite read_set_currentItem ].

(** X14: in a page that has the results container, [closeSearchModal]
    hides the overlay, empties the results and the input and restores
    scrolling, without a request and without touching the selection; a
    [searchTMDB] right after it finds the input empty and changes
    nothing at all. *)
Theorem closeSearchModal_resets (net : Network) (p : Page.t) :
  is_Some (Page.children p !! "search-results") →
  ∃ p',
    closeSearchModal p = (Return tt, p')
    ∧ read_prop p' "search-modal" "style.display" = "none"
    ∧ Page.children p' !! "search-results" = Some []
    ∧ read_prop p' "search-input" "value" = ""
    ∧ read_prop p' "body" "style.overflow" = "auto"
    ∧ Page.currentItem p' = Page.currentItem p
    ∧ Page.requests p' = Page.requests p
    ∧ searchTMDB net p' = (Return tt, p').
Proof.
  intros Hc. exists (search_closed p).
  split; [now apply closeSearchModal_run |].
  assert (Hempty : Page.children (search_closed p) !! "search-results" = Some []).
  { unfold search_closed. cbn. apply lookup_insert_eq. }
  assert (Hinput : read_prop (search_closed p) "search-input" "value" = "").
  { unfold search_closed. now read_page. }
  split; [unfold search_closed; now read_page |].
  split; [exact Hempty |]. split; [exact Hinput |].
  split; [unfold search_closed; now read_page |].
  split; [reflexivity |]. split; [reflexivity |].
  rewrite searchTMDB_blank.
  - now rewrite (with_children_same _ _ _ Hempty).
  - eauto.
  - now rewrite Hinput.
Qed.

Lemma closeSearchModal_resets_witness :
  ∃ p',
    closeSearchModal (Sample.searching "pitt") = (Return tt, p')
    ∧ Page.children p' !! "search-results" = Some []
    ∧ searchTMDB Sample.obscure p' = (Return tt, p').
Proof.
  destruct (closeSearchModal_resets Sample.obscure (Sample.searching "pitt")
              (searching_ready _))
    as (p' & Hrun & _ & Hempty & _ & _ & _ & _ & Hsearch).
  exists p'. repeat split; assumption.
Defined.

(** X15: in a page without the results container [closeSearchModal]
    throws a TypeError after it has hidden the overlay: the input keeps
    its text and scrolling is not restored. *)
Theorem closeSearchModal_no_container (p : Page.t) :
  Page.children p !! "search-results" = None →
  closeSearchModal p
  = (Throw TypeError, with_prop "search-modal" "style.display" "none" p)
  ∧ read_prop (snd (closeSearchModal p)) "search-modal" "style.display" = "none"
  ∧ read_prop (snd (closeSearchModal p)) "search-input" "value"
    = read_prop p "search-input" "value"
  ∧ read_prop (snd (closeSearchModal p)) "body" "style.overflow"
    = read_prop p "body" "style.overflow".
Proof.
  intros Hnone.
  assert (Hrun : closeSearchModal p
    = (Throw TypeError, with_prop "search-modal" "style.display" "none" p)).
  { unfold closeSearchModal, bind, set_prop, modify, set_innerHTML.
    cbn [Page.children with_prop Page.set_properties]. now rewrite Hnone. }
  rewrite Hrun. cbn [snd]. repeat split; now read_page.
Qed.

Lemma closeSearchModal_no_container_witness :
  read_prop
    (snd (closeSearchModal
            (Page.set_children ∅ (snd (openSearchModal Sample.fresh)))))
    "body" "style.overflow"
  = "hidden".
Proof.
  destruct (closeSearchModal_no_container
              (Page.set_children ∅ (snd (openSearchModal Sample.fresh))))
    as (_ & _ & _ & Hscroll); [reflexivity |].
  rewrite Hscroll. reflexivity.
Defined.

(** X16: activating a search result (the action its click and its Enter
    and Space keys run) closes the search overlay and opens the details
    of the item: with the results container present, a score that
    [renderRating] accepts and an id that is an integer in the safe
    range, the overlay is hidden and reset, the item is the selection,
    the video frame has its vidsrc.cc URL, which ends in the decimal
    numeral of the id, the modal is shown and scrolling ends up
    suspended. *)
Theorem search_result_activated (item : Item.t) (p : Page.t) :
  is_Some (Page.children p !! "search-results") →
  score_in_range item →
  safe_integer (Item.id item) →
  ∃ p',
    run_action (CloseSearchThenShowDetails item) p = (Return tt, p')
    ∧ read_prop p' "search-modal" "style.display" = "none"
    ∧ Page.children p' !! "search-results" = Some []
    ∧ read_prop p' "search-input" "value" = ""
    ∧ Page.currentItem p' = Some item
    ∧ read_prop p' "modal-video" "src"
      = "https://vidsrc.cc/v2/embed/" +:+ kind_of item +:+ "/"
          +:+ pretty (Item.id item)
    ∧ read_prop p' "modal" "style.display" = "flex"
    ∧ read_prop p' "body" "style.overflow" = "hidden".
Proof.
  intros Hc Hscore _. exists (details_shown item (search_closed p)).
  split.
  - unfold run_action, bind. rewrite (closeSearchModal_run p Hc).
    now rewrite (showDetails_run item _ Hscore).
  - unfold details_shown, search_closed.
    split; [now read_page |].
    split; [cbn; apply lookup_insert_eq |].
    repeat split; now read_page.
Qed.

Lemma search_result_activated_witness :
  ∃ p',
    run_action (CloseSearchThenShowDetails Fixture2.pilot)
      (snd (openSearchModal (Sample.searching "pilot")))
    = (Return tt, p')
    ∧ Page.currentItem p' = Some Fixture2.pilot
    ∧ read_prop p' "modal-video" "src" = "https://vidsrc.cc/v2/embed/tv/4242"
    ∧ read_prop p' "body" "style.overflow" = "hidden".
Proof.
  destruct (search_result_activated Fixture2.pilot
              (snd (openSearchModal (Sample.searching "pilot"))))
    as (p' & Hrun & _ & _ & _ & Hsel & Hsrc & _ & Hscroll).
  - vm_compute. eauto.
  - split; [discriminate | reflexivity].
  - unfold safe_integer; cbn; lia.
  - exists p'. repeat split; assumption.
Defined.

(** X17: the scroll lock is not nested: with the details of an item
    shown, opening the search overlay and closing it again restores
    scrolling although the modal is still displayed. *)
Theorem scroll_lock_not_nested (item : Item.t) (p : Page.t) :
  is_Some (Page.children p !! "search-results") →
  score_in_range item →
  ∃ p1 p2 p3,
    showDetails item p = (Return tt, p1)
    ∧ openSearchModal p1 = (Return tt, p2)
    ∧ closeSearchModal p2 = (Return tt, p3)
    ∧ read_prop p1 "body" "style.overflow" = "hidden"
    ∧ read_prop p2 "body" "style.overflow" = "hidden"
    ∧ read_prop p3 "body" "style.overflow" = "auto"
    ∧ read_prop p3 "modal" "style.display" = "flex"
    ∧ Page.currentItem p3 = Some item.
Proof.
  intros Hc Hscore.
  exists (details_shown item p),
    (snd (openSearchModal (details_shown item p))),
    (search_closed (snd (openSearchModal (details_shown item p)))).
  split; [now apply showDetails_run |].
  split; [reflexivity |].
  split; [apply closeSearchModal_run; exact Hc |].
  unfold search_closed, openSearchModal, bind, set_prop, modify, details_shown.
  cbn [snd]. repeat split; now read_page.
Qed.

Lemma scroll_lock_not_nested_witness :
  ∃ p1 p2 p3,
    showDetails Sample.fight_club Sample.fresh = (Return tt, p1)
    ∧ openSearchModal p1 = (Return tt, p2)
    ∧ closeSearchModal p2 = (Return tt, p3)
    ∧ read_prop p1 "body" "style.overflow" = "hidden"
    ∧ read_prop p2 "body" "style.overflow" = "hidden"
    ∧ read_prop p3 "body" "style.overflow" = "auto"
    ∧ read_prop p3 "modal" "style.display" = "flex"
    ∧ Page.currentItem p3 = Some Sample.fight_club.
Proof.
  apply (scroll_lock_not_nested Sample.fight_club Sample.fresh).
  - vm_compute. eauto.
  - split; [discriminate | reflexivity].
Defined.

(** ** Initialization, to the letter *)

Lemma fetchTrendingAnime_exact (net : Network) (p : Page.t) :
  fetchTrendingAnime net p = (Return (anime_of net), anime_trace net [1; 2; 3] p).
Proof.
  unfold fetchTrendingAnime. change (seqZ 1 MAX_PAGES) with [1; 2; 3].
  rewrite anime_pages_exact. cbn [map concat app].
  unfold anime_of. now rewrite app_nil_r.
Qed.

Lemma displayBanner_exact (item : option Item.t) (p : Page.t) :
  displayBanner item p = (Return tt, banner_shown item p).
Proof.
  unfold displayBanner, banner_shown. destruct item as [item |]; [| reflexivity].
  now destruct (truthy (Item.backdrop_path item)).
Qed.

Lemma expose_all (q : Page.t) :
  (expose "closeModal" ;; expose "changeServer" ;; expose "openSearchModal" ;;
   expose "closeSearchModal" ;; expose "searchTMDB") q
  = (Return tt, Page.set_window_handlers (Page.window_handlers q ++ published) q).
Proof.
  destruct q as [sel ch props reqs errs hs].
  unfold bind, expose, modify, Page.set_window_handlers. cbn.
  unfold published. now rewrite <- !app_assoc.
Qed.

Lemma banner_step (net : Network) (random : Q) (q : Page.t) :
  (if (0 <? length (trending_of net "movie"))%nat
   then displayBanner (pick random (trending_of net "movie"))
   else ret tt) q
  = (Return tt, banner_shown (banner_movie net random) q).
Proof.
  unfold banner_movie.
  destruct (0 <? length (trending_of net "movie"))%nat;
    [apply displayBanner_exact | reflexivity].
Qed.

Lemma init_exact (net : Network) (random : Q) (p : Page.t) :
  init net random p = (Return tt, init_final net random p).
Proof.
  unfold init.
  unfold bind at 1. rewrite fetchTrending_exact.
  unfold bind at 1. rewrite fetchTrending_exact.
  unfold bind at 1. rewrite fetchTrendingAnime_exact.
  unfold bind at 1. rewrite banner_step.
  unfold bind at 1. rewrite displayList_run.
  unfold bind at 1. rewrite displayList_run.
  unfold bind at 1. rewrite displayList_run.
  rewrite expose_all. reflexivity.
Qed.

Lemma anime_trace_frame (net : Network) (pages : list Z) :
  ∀ p,
    Page.currentItem (anime_trace net pages p) = Page.currentItem p
    ∧ Page.children (anime_trace net pages p) = Page.children p
    ∧ Page.properties (anime_trace net pages p) = Page.properties p
    ∧ Page.window_handlers (anime_trace net pages p) = Page.window_handlers p
    ∧ Page.requests (anime_trace net pages p)
      = Page.requests p ++ map anime_url pages.
Proof.
  induction pages as [| page rest IH]; intros p.
  - cbn. now rewrite app_nil_r.
  - cbn [anime_trace map].
    destruct (IH (log_error
                    ("Error fetching trending anime page " +:+ pretty page +:+ ":")
                    (results_error net (anime_url page))
                    (with_request (anime_url page) p)))
      as (H1 & H2 & H3 & H4 & H5).
    rewrite H1, H2, H3, H4, H5.
    destruct (results_error net (anime_url page));
      cbn [log_error with_request Page.currentItem Page.children Page.properties
           Page.window_handlers Page.requests Page.set_requests
           Page.set_console_errors];
      now rewrite <- app_assoc.
Qed.

Lemma init_fetched_frame (net : Network) (p : Page.t) :
  Page.currentItem (init_fetched net p) = Page.currentItem p
  ∧ Page.children (init_fetched net p) = Page.children p
  ∧ Page.properties (init_fetched net p) = Page.properties p
  ∧ Page.window_handlers (init_fetched net p) = Page.window_handlers p
  ∧ Page.requests (init_fetched net p)
    = Page.requests p
        ++ [trending_url "movie"; trending_url "tv";
            anime_url 1; anime_url 2; anime_url 3].
Proof.
  unfold init_fetched.
  destruct (anime_trace_frame net [1; 2; 3]
              (log_error "Error fetching trending tv:"
                 (fetch_error net (trending_url "tv"))
                 (with_request (trending_url "tv")
                    (log_error "Error fetching trending movie:"
                       (fetch_error net (trending_url "movie"))
                       (with_request (trending_url "movie") p)))))
    as (H1 & H2 & H3 & H4 & H5).
  rewrite H1, H2, H3, H4, H5.
  destruct (fetch_error net (trending_url "tv")),
    (fetch_error net (trending_url "movie"));
    cbn [log_error with_request Page.currentItem Page.children Page.properties
         Page.window_handlers Page.requests Page.set_requests
         Page.set_console_errors map];
    now rewrite <- !app_assoc.
Qed.

Lemma rendered_frame (items : list Item.t) (id : string) (p : Page.t) :
  Page.currentItem (rendered items id p) = Page.currentItem p
  ∧ Page.properties (rendered items id p) = Page.properties p
  ∧ Page.window_handlers (rendered items id p) = Page.window_handlers p
  ∧ Page.requests (rendered items id p) = Page.requests p.
Proof. unfold rendered. now destruct (bool_decide _). Qed.

Lemma banner_shown_frame (item : option Item.t) (p : Page.t) :
  Page.currentItem (banner_shown item p) = Page.currentItem p
  ∧ Page.children (banner_shown item p) = Page.children p
  ∧ Page.window_handlers (banner_shown item p) = Page.window_handlers p
  ∧ Page.requests (banner_shown item p) = Page.requests p.
Proof.
  unfold banner_shown. destruct item as [item |]; [| easy].
  now destruct (truthy (Item.backdrop_path item)).
Qed.

(** X18: [init] never throws; it issues exactly five requests, in this
    order: trending movies, trending series, and pages 1, 2 and 3 of the
    trending series; it publishes exactly the five handlers closeModal,
    changeServer, openSearchModal, closeSearchModal and searchTMDB on
    [window], in this order; and it leaves the selection as it was. *)
Theorem init_trace (net : Network) (random : Q) (p : Page.t) :
  ∃ p',
    init net random p = (Return tt, p')
    ∧ Page.requests p'
      = Page.requests p
          ++ [trending_url "movie"; trending_url "tv";
              anime_url 1; anime_url 2; anime_url 3]
    ∧ Page.window_handlers p'
      = Page.window_handlers p
          ++ ["closeModal"; "changeServer"; "openSearchModal";
              "closeSearchModal"; "searchTMDB"]
    ∧ Page.currentItem p' = Page.currentItem p.
Proof.
  exists (init_final net random p). split; [apply init_exact |].
  unfold init_final.
  set (q3 := rendered (anime_of net) "anime-list" _).
  cbn [Page.requests Page.window_handlers Page.currentItem
       Page.set_window_handlers].
  subst q3.
  repeat match goal with
         | |- context [rendered ?items ?id ?q] =>
             destruct (rendered_frame items id q) as (-> & _ & -> & ->)
         end.
  destruct (banner_shown_frame (banner_movie net random) (init_fetched net p))
    as (-> & _ & -> & ->).
  destruct (init_fetched_frame net p) as (-> & _ & _ & -> & ->).
  repeat split.
Qed.

Lemma round_half_even_upper (z : Q) :
  (inject_Z (round_half_even z) <= z + (1 # 2))%Q.
Proof.
  unfold round_half_even.
  pose proof (Qfloor_le z) as Hf.
  destruct (z - inject_Z (Qfloor z) ?= 1 # 2)%Q eqn:Hc.
  - apply Qeq_alt in Hc.
    destruct (Z.even (Qfloor z)); [lra |].
    rewrite inject_Z_plus. change (inject_Z 1) with 1%Q. lra.
  - lra.
  - apply Qgt_alt in Hc. rewrite inject_Z_plus. change (inject_Z 1) with 1%Q. lra.
Qed.

Lemma round_half_even_nonneg (z : Q) : (0 <= z)%Q → 0 ≤ round_half_even z.
Proof.
  intros Hz. unfold round_half_even.
  assert (Hf : 0 ≤ Qfloor z).
  { apply Qfloor_ge. exact Hz. }
  destruct (z - inject_Z (Qfloor z) ?= 1 # 2)%Q; [| lia | lia].
  destruct (Z.even (Qfloor z)); lia.
Qed.

Lemma two_power_pos (e : Z) : (0 < 2 ^ e)%Q.
Proof. apply Qpower_0_lt. reflexivity. Qed.

Lemma two_power_log2 (n : Z) :
  0 < n → (2 ^ Z.log2 n <= inject_Z n)%Q ∧ (inject_Z n < 2 ^ (Z.log2 n + 1))%Q.
Proof.
  intros Hn. destruct (Z.log2_spec n Hn) as [Hlo Hhi].
  pose proof (Z.log2_nonneg n) as Hnn.
  change 2%Q with (inject_Z 2).
  rewrite <- !Zpower_Qpower by lia. split.
  - now rewrite <- Zle_Qle.
  - rewrite <- Zlt_Qlt. now rewrite <- Z.add_1_r in Hhi.
Qed.

Lemma binade_le (x : Q) : (0 < x)%Q → (2 ^ binade x <= x)%Q.
Proof.
  intros Hx. unfold binade.
  destruct (Qle_bool (2 ^ (Z.log2 (Qnum x) - Z.log2 (Z.pos (Qden x)))) x) eqn:Ht.
  - now apply Qle_bool_iff.
  - clear Ht. destruct x as [n d]. cbn [Qnum Qden].
    assert (Hn : 0 < n).
    { unfold Qlt in Hx. cbn in Hx. lia. }
    destruct (two_power_log2 n Hn) as [Ha _].
    destruct (two_power_log2 (Z.pos d) eq_refl) as [_ Hb].
    replace (Z.log2 n - Z.log2 (Z.pos d) - 1)
      with (Z.log2 n - (Z.log2 (Z.pos d) + 1)) by lia.
    rewrite Qpower_minus by discriminate.
    rewrite (Qmake_Qdiv n d).
    pose proof (two_power_pos (Z.log2 (Z.pos d) + 1)) as HD.
    pose proof (two_power_pos (Z.log2 n)) as HA.
    assert (Hd : (0 < inject_Z (Z.pos d))%Q) by reflexivity.
    apply Qle_shift_div_r; [exact HD |].
    unfold Qdiv. rewrite <- Qmult_assoc, (Qmult_comm (/ _)), Qmult_assoc.
    apply Qle_shift_div_l; [exact Hd |].
    apply Qle_trans with (inject_Z n * inject_Z (Z.pos d))%Q.
    + apply Qmult_le_compat_r; [exact Ha | now apply Qlt_le_weak].
    + apply Qmult_le_l; [| now apply Qlt_le_weak].
      change 0%Q with (inject_Z 0). now rewrite <- Zlt_Qlt.
Qed.

Lemma round_significand_bounds (x : Q) :
  (0 < x)%Q →
  (0 <= round_significand x)%Q
  ∧ (round_significand x <= x * (1 + (1 # 9007199254740992)))%Q.
Proof.
  intros Hx. unfold round_significand.
  set (u := (2 ^ (binade x - 52))%Q).
  assert (Hu : (0 < u)%Q) by apply two_power_pos.
  assert (Hux : (u <= x * (1 # 4503599627370496))%Q).
  { subst u. unfold Z.sub. rewrite Qpower_plus by discriminate.
    change (2 ^ (- (52)))%Q with (1 # 4503599627370496)%Q.
    apply Qmult_le_compat_r; [now apply binade_le | discriminate]. }
  assert (Hz : (0 <= x / u)%Q).
  { apply Qle_shift_div_l; [exact Hu | lra]. }
  split.
  - apply Qmult_le_0_compat; [| now apply Qlt_le_weak].
    change 0%Q with (inject_Z 0). rewrite <- Zle_Qle.
    now apply round_half_even_nonneg.
  - apply Qle_trans with ((x / u + (1 # 2)) * u)%Q.
    + apply Qmult_le_compat_r; [apply round_half_even_upper | now apply Qlt_le_weak].
    + assert (E : ((x / u + (1 # 2)) * u == x + (1 # 2) * u)%Q).
      { field. intros H0. rewrite H0 in Hu. discriminate Hu. }
      rewrite E. lra.
Qed.

Lemma pick_index (random : Q) (n : Z) :
  (0 <= random)%Q → (random <= 1 - (1 # 9007199254740992))%Q → 0 < n →
  0 ≤ Qfloor (mul random (inject_Z n)) < n.
Proof.
  intros Hlo Hhi Hn. unfold mul, nearest_double.
  assert (Hn' : (0 < inject_Z n)%Q).
  { change 0%Q with (inject_Z 0). now rewrite <- Zlt_Qlt. }
  assert (Hx0 : (0 <= random * inject_Z n)%Q).
  { apply Qmult_le_0_compat; [assumption | now apply Qlt_le_weak]. }
  assert (Hx1 : (random * inject_Z n
                 <= (1 - (1 # 9007199254740992)) * inject_Z n)%Q).
  { apply Qmult_le_compat_r; [assumption | now apply Qlt_le_weak]. }
  set (x := (random * inject_Z n)%Q) in *.
  destruct (x ?= 0)%Q eqn:Hc.
  - change (Qfloor 0) with 0. lia.
  - apply Qlt_alt in Hc. lra.
  - apply Qgt_alt in Hc.
    destruct (round_significand_bounds x Hc) as [H0 H1]. split.
    + now apply Qfloor_ge.
    + apply Z.nle_gt. intros H. apply Qfloor_ge in H. lra.
Qed.

Lemma pick_index_some (random : Q) (movies : list Item.t) :
  (0 <= random)%Q → (random <= 1 - (1 # 9007199254740992))%Q → movies ≠ [] →
  ∃ item, pick random movies = Some item ∧ item ∈ movies.
Proof.
  intros Hlo Hhi Hne. unfold pick.
  assert (Hn : 0 < Z.of_nat (length movies)).
  { destruct movies; [contradiction | cbn [length]; lia]. }
  pose proof (pick_index random _ Hlo Hhi Hn) as [H0 H1].
  destruct (Z.ltb_spec (Qfloor (mul random (inject_Z (Z.of_nat (length movies))))) 0);
    [lia |].
  destruct (lookup_lt_is_Some_2 movies
              (Z.to_nat (Qfloor (mul random (inject_Z (Z.of_nat (length movies)))))))
    as [item Hitem]; [lia |].
  exists item. split; [exact Hitem |].
  apply list_elem_of_lookup. eauto.
Qed.

(** The product is rounded before the floor is taken: two thirds, as a
    double, times three is two. *)
Lemma pick_rounds_up :
  pick (6004799503160661 # 9007199254740992)
    [Sample.fight_club; Sample.unreleased; Sample.teaser]
  = Some Sample.teaser
  ∧ Qfloor ((6004799503160661 # 9007199254740992) * 3) = 1.
Proof. split; vm_compute; reflexivity. Qed.

(** X19: for a value of [Math.random], a double from 0 up to, but not
    including, 1 (so at most 1 - 2^-53), and a list of movies that is not
    empty, the index [init] computes, the floor of the product rounded to
    a double, is within the bounds of the list, and the movie picked for
    the banner is one of the list. *)
Theorem pick_in_bounds (random : Q) (movies : list Item.t) :
  (0 <= random)%Q → (random <= 1 - (1 # 9007199254740992))%Q → movies ≠ [] →
  (∃ item, pick random movies = Some item ∧ item ∈ movies)
  ∧ 0 ≤ Qfloor (mul random (inject_Z (Z.of_nat (length movies))))
      < Z.of_nat (length movies).
Proof.
  intros Hlo Hhi Hne. split; [now apply pick_index_some |].
  apply pick_index; [assumption | assumption |].
  destruct movies; [contradiction | cbn [length]; lia].
Qed.

Lemma pick_in_bounds_witness :
  (∃ item,
     pick (6004799503160661 # 9007199254740992)
       [Sample.fight_club; Sample.unreleased; Sample.teaser]
     = Some item
     ∧ item ∈ [Sample.fight_club; Sample.unreleased; Sample.teaser])
  ∧ 0 ≤ Qfloor (mul (9007199254740991 # 9007199254740992) (inject_Z 3)) < 3.
Proof.
  split.
  - apply (pick_in_bounds (6004799503160661 # 9007199254740992));
      discriminate.
  - apply (pick_in_bounds (9007199254740991 # 9007199254740992)
             [Sample.fight_club; Sample.unreleased; Sample.teaser]);
      discriminate.
Defined.

Lemma init_final_properties (net : Network) (random : Q) (p : Page.t) :
  Page.properties (init_final net random p)
  = Page.properties (banner_shown (banner_movie net random) p).
Proof.
  unfold init_final. cbn [Page.properties Page.set_window_handlers].
  repeat match goal with
         | |- context [rendered ?items ?id ?q] =>
             destruct (rendered_frame items id q) as (_ & -> & _ & _)
         end.
  destruct (init_fetched_frame net p) as (_ & _ & Hprops & _).
  unfold banner_shown. destruct (banner_movie net random) as [item |];
    [| exact Hprops].
  destruct (truthy (Item.backdrop_path item)); [| exact Hprops].
  unfold with_prop. cbn [Page.properties Page.set_properties].
  now rewrite Hprops.
Qed.

(** X20: the banner of [init], for a value of [Math.random], a double
    from 0 up to, but not including, 1 (so at most 1 - 2^-53).  When no
    trending movie came back, no property of the page is touched.
    Otherwise exactly one movie of the list is picked, the one at the
    floor of the rounded product: if it has a backdrop, the banner gets
    it as background image and the title (or the name, or the empty text)
    as title; if it has none, no property is touched, whatever the other
    movies have: there is no second pick. *)
Theorem init_banner (net : Network) (random : Q) (p : Page.t) :
  (0 <= random)%Q → (random <= 1 - (1 # 9007199254740992))%Q →
  let p' := snd (init net random p) in
  (trending_of net "movie" = [] → Page.properties p' = Page.properties p)
  ∧ (trending_of net "movie" ≠ [] →
     ∃ movie,
       movie ∈ trending_of net "movie"
       ∧ pick random (trending_of net "movie") = Some movie
       ∧ (truthy (Item.backdrop_path movie) = false →
          Page.properties p' = Page.properties p)
       ∧ (∀ path,
            Item.backdrop_path movie = Str path → path ≠ "" →
            read_prop p' "banner" "style.backgroundImage"
            = "url(https://image.tmdb.org/t/p/original" +:+ path +:+ ")"
            ∧ read_prop p' "banner-title" "textContent"
              = to_text (if truthy (Item.title movie) then Item.title movie
                         else if truthy (Item.name movie) then Item.name movie
                         else Str ""))).
Proof.
  intros Hlo Hhi p'. subst p'. rewrite init_exact. cbn [snd].
  unfold read_prop. rewrite init_final_properties. unfold banner_movie.
  split.
  - intros ->. reflexivity.
  - intros Hne.
    destruct (pick_index_some random (trending_of net "movie") Hlo Hhi Hne)
      as (movie & Hpick & Hin).
    exists movie. split; [exact Hin |]. split; [exact Hpick |].
    assert (Hlen : (0 <? length (trending_of net "movie"))%nat = true).
    { apply Nat.ltb_lt. destruct (trending_of net "movie");
        [contradiction | cbn; lia]. }
    rewrite Hlen, Hpick. unfold banner_shown. split.
    + intros ->. reflexivity.
    + intros path Hpath Hnonempty.
      assert (Ht : truthy (Item.backdrop_path movie) = true).
      { apply truthy_spec. eauto. }
      rewrite Ht, Hpath.
      fold (read_prop
              (with_prop "banner-title" "textContent"
                 (to_text (or_else (or_else (Item.title movie) (Item.name movie))
                             (Str "")))
                 (with_prop "banner" "style.backgroundImage"
                    ("url(" +:+ API_CONFIG.IMG_URL +:+ to_string (Str path) +:+ ")")
                    p))
              "banner" "style.backgroundImage").
      fold (read_prop
              (with_prop "banner-title" "textContent"
                 (to_text (or_else (or_else (Item.title movie) (Item.name movie))
                             (Str "")))
                 (with_prop "banner" "style.backgroundImage"
                    ("url(" +:+ API_CONFIG.IMG_URL +:+ to_string (Str path) +:+ ")")
                    p))
              "banner-title" "textContent").
      split; read_page; [reflexivity |].
      unfold or_else. destruct (truthy (Item.title movie)) eqn:Htitle.
      * now rewrite Htitle.
      * now destruct (truthy (Item.name movie)) eqn:Hname; rewrite ?Hname.
Qed.

Lemma init_banner_witness :
  read_prop (snd (init Sample.flaky 0 Sample.fresh)) "banner" "style.backgroundImage"
  = "url(https://image.tmdb.org/t/p/original/fight_club_wide.jpg)"
  ∧ pick (1 # 2) (trending_of Sample.flaky "movie") = Some Sample.unreleased
  ∧ Page.properties (snd (init Sample.flaky (1 # 2) Sample.fresh))
    = Page.properties Sample.fresh
  ∧ read_prop
      (snd (init Fixture2.trio (6004799503160661 # 9007199254740992) Sample.fresh))
      "banner" "style.backgroundImage"
    = "url(https://image.tmdb.org/t/p/original/teaser_wide.jpg)".
Proof.
  assert (Hne : trending_of Sample.flaky "movie" ≠ []) by (vm_compute; discriminate).
  assert (Hne3 : trending_of Fixture2.trio "movie" ≠ []) by (vm_compute; discriminate).
  split; [| split; [| split]].
  - destruct (init_banner Sample.flaky 0 Sample.fresh) as [_ Hsome];
      [discriminate | discriminate |].
    destruct (Hsome Hne) as (movie & _ & Hpick & _ & Hbackdrop).
    vm_compute in Hpick. injection Hpick as <-.
    apply (Hbackdrop "/fight_club_wide.jpg"); [reflexivity | discriminate].
  - vm_compute. reflexivity.
  - destruct (init_banner Sample.flaky (1 # 2) Sample.fresh) as [_ Hsome];
      [discriminate | discriminate |].
    destruct (Hsome Hne) as (movie & _ & Hpick & Hnone & _).
    vm_compute in Hpick. injection Hpick as <-.
    apply Hnone. reflexivity.
  - destruct (init_banner Fixture2.trio (6004799503160661 # 9007199254740992)
                Sample.fresh) as [_ Hsome]; [discriminate | discriminate |].
    destruct (Hsome Hne3) as (movie & _ & Hpick & _ & Hbackdrop).
    vm_compute in Hpick. injection Hpick as <-.
    apply (Hbackdrop "/teaser_wide.jpg"); [reflexivity | discriminate].
Defined.

(** ** What the operations leave alone *)

Lemma searchTMDB_cases (net : Network) (p : Page.t) :
  searchTMDB net p = (Throw TypeError, p)
  ∨ searchTMDB net p = (Return tt, with_children "search-results" [] p)
  ∨ ∃ nodes e,
      searchTMDB net p
      = (Return tt,
         with_children "search-results" nodes
           (log_error "Error during search:" e
              (with_request
                 (search_url (trim (read_prop p "search-input" "value"))) p))).
Proof.
  destruct (Page.children p !! "search-results") as [nodes |] eqn:Hc.
  - destruct (decide (trim (read_prop p "search-input" "value") = "")) as [Hq | Hq].
    + right. left. apply searchTMDB_blank; eauto.
    + right. right. eexists _, _. apply searchTMDB_exact; eauto.
  - left. now apply searchTMDB_no_container.
Qed.

Lemma changeServer_fields (p : Page.t) :
  Page.currentItem (snd (changeServer p)) = Page.currentItem p
  ∧ Page.requests (snd (changeServer p)) = Page.requests p
  ∧ Page.children (snd (changeServer p)) = Page.children p.
Proof.
  rewrite changeServer_run. cbn [snd].
  destruct (Page.currentItem p) eqn:Hsel; cbn; rewrite ?Hsel; auto.
Qed.

(** X21: the selection is written by [showDetails] only: [changeServer],
    [closeModal], [openSearchModal], [closeSearchModal], [displayBanner],
    [displayList], [fetchTrending], [fetchTrendingAnime], [searchTMDB]
    and [init] all leave it as it was, whether they return or throw. *)
Theorem selection_kept (net : Network) (p : Page.t) :
  Page.currentItem (snd (changeServer p)) = Page.currentItem p
  ∧ Page.currentItem (snd (closeModal p)) = Page.currentItem p
  ∧ Page.currentItem (snd (openSearchModal p)) = Page.currentItem p
  ∧ Page.currentItem (snd (closeSearchModal p)) = Page.currentItem p
  ∧ (∀ item, Page.currentItem (snd (displayBanner item p)) = Page.currentItem p)
  ∧ (∀ items id,
       Page.currentItem (snd (displayList items id p)) = Page.currentItem p)
  ∧ (∀ type,
       Page.currentItem (snd (fetchTrending net type p)) = Page.currentItem p)
  ∧ Page.currentItem (snd (fetchTrendingAnime net p)) = Page.currentItem p
  ∧ Page.currentItem (snd (searchTMDB net p)) = Page.currentItem p
  ∧ (∀ random,
       Page.currentItem (snd (init net random p)) = Page.currentItem p).
Proof.
  split; [apply changeServer_fields |].
  split; [reflexivity |]. split; [reflexivity |].
  split.
  { unfold closeSearchModal, bind, set_prop, modify, set_innerHTML.
    cbn [Page.children with_prop Page.set_properties].
    now destruct (Page.children p !! "search-results"). }
  split.
  { intros item. rewrite displayBanner_exact. apply banner_shown_frame. }
  split.
  { intros items id. rewrite displayList_run. cbn [snd].
    now destruct (bool_decide _). }
  split.
  { intros type. rewrite fetchTrending_exact. cbn [snd].
    now destruct (fetch_error net (trending_url type)). }
  split.
  { rewrite fetchTrendingAnime_exact. apply anime_trace_frame. }
  split.
  { destruct (searchTMDB_cases net p) as [-> | [-> | (nodes & e & ->)]];
      try reflexivity.
    now destruct e. }
  intros random. rewrite init_exact. cbn [snd]. unfold init_final.
  cbn [Page.currentItem Page.set_window_handlers].
  repeat match goal with
         | |- context [rendered ?items ?id ?q] =>
             destruct (rendered_frame items id q) as (-> & _ & _ & _)
         end.
  destruct (banner_shown_frame (banner_movie net random) (init_fetched net p))
    as (-> & _).
  apply init_fetched_frame.
Qed.

(** X22: only the fetches, the search and [init] talk to the network:
    [showDetails] (whether it returns or throws), [changeServer],
    [closeModal], [openSearchModal], [closeSearchModal], [displayBanner]
    and [displayList] never issue a request. *)
Theorem no_request (p : Page.t) :
  (∀ item, Page.requests (snd (showDetails item p)) = Page.requests p)
  ∧ Page.requests (snd (changeServer p)) = Page.requests p
  ∧ Page.requests (snd (closeModal p)) = Page.requests p
  ∧ Page.requests (snd (openSearchModal p)) = Page.requests p
  ∧ Page.requests (snd (closeSearchModal p)) = Page.requests p
  ∧ (∀ item, Page.requests (snd (displayBanner item p)) = Page.requests p)
  ∧ (∀ items id, Page.requests (snd (displayList items id p)) = Page.requests p)
  ∧ (∀ action, Page.requests (snd (run_action action p)) = Page.requests p).
Proof.
  assert (Hshow : ∀ item q,
    Page.requests (snd (showDetails item q)) = Page.requests q).
  { intros item q. unfold showDetails, bind at 1, modify.
    unfold bind at 1, set_prop, modify. unfold bind at 1, modify.
    unfold bind at 1, modify. unfold bind at 1, modify.
    unfold bind at 1, bind at 1, lift.
    destruct (renderRating (to_number (Item.vote_average item))) as [s | e];
      [| reflexivity].
    unfold modify, bind.
    match goal with
    | |- context [changeServer ?q'] =>
        pose proof (changeServer_fields q') as (_ & Hreq & _);
        pose proof (changeServer_run q') as Hrun;
        destruct (changeServer q') as [c q'']
    end.
    injection Hrun as -> _. cbn [snd] in *.
    change (Page.requests q'' = Page.requests q). rewrite Hreq. reflexivity. }
  assert (Hclose : ∀ q,
    Page.requests (snd (closeSearchModal q)) = Page.requests q).
  { intros q. unfold closeSearchModal, bind, set_prop, modify, set_innerHTML.
    cbn [Page.children with_prop Page.set_properties].
    now destruct (Page.children q !! "search-results"). }
  split; [intros item; apply Hshow |].
  split; [apply changeServer_fields |].
  split; [reflexivity |]. split; [reflexivity |].
  split; [apply Hclose |].
  split.
  { intros item. rewrite displayBanner_exact. apply banner_shown_frame. }
  split.
  { intros items id. rewrite displayList_run. cbn [snd].
    now destruct (bool_decide _). }
  intros [item | item]; cbn [run_action]; [apply Hshow |].
  unfold bind. pose proof (Hclose p) as Hc.
  destruct (closeSearchModal p) as [[[] | e] q]; cbn [snd] in *.
  - now rewrite Hshow.
  - exact Hc.
Qed.

Lemma search_trace_held (net : Network)
    (meanwhile1 meanwhile2 : Page.t → Page.t) (p : Page.t) (held : list Node) :
  search_trace net meanwhile1 meanwhile2 (with_children "search-results" held p)
  = search_trace net meanwhile1 meanwhile2 p.
Proof.
  unfold search_trace. now rewrite read_with_children, with_children_twice.
Qed.

(** X23: what a search does to what the results container holds.  What
    it held when the call started is gone: the call clears it first, and
    ends in the same page whatever that was.  What other handlers put
    there while the call waits stays: the last stage appends the posters
    of the survivors to what the container holds by then, and writes the
    no-results message only when that leaves it empty; so a call that
    finds posters of another search there adds to them.  With nothing in
    between, for a query that can be encoded, the stages are
    [searchTMDB] as one step. *)
Theorem search_clears_then_appends (net : Network)
    (meanwhile1 meanwhile2 : Page.t → Page.t) (p : Page.t) (held : list Node) :
  is_Some (Page.children p !! "search-results") →
  keeps_container meanwhile1 → keeps_container meanwhile2 →
  search_run net meanwhile1 meanwhile2 (with_children "search-results" held p)
  = search_run net meanwhile1 meanwhile2 p
  ∧ Page.children (snd (search_start p)) !! "search-results"
    ∈ [Some []; Some [Markup error_message]]
  ∧ (∀ r data items q found,
       body r = Some data → results data = Some items →
       Page.children q !! "search-results" = Some found →
       search_resume net (AwaitingBody r) q
       = (Return None,
          with_children "search-results" (rendered_onto found items) q)
       ∧ (found ≠ [] →
          Page.children (snd (search_resume net (AwaitingBody r) q))
            !! "search-results"
          = Some (found ++ search_posters items))
       ∧ (found = [] → search_posters items = [] →
          Page.children (snd (search_resume net (AwaitingBody r) q))
            !! "search-results"
          = Some [Markup no_results_message]))
  ∧ (has_lone_surrogate (trim (read_prop p "search-input" "value")) = false →
     search_run net id id p = searchTMDB net p).
Proof.
  intros Hc H1 H2.
  assert (Hc' : is_Some (Page.children (with_children "search-results" held p)
                           !! "search-results")).
  { rewrite children_with_children. eauto. }
  split.
  { rewrite !search_run_exact by assumption. now rewrite search_trace_held. }
  split.
  { rewrite (search_start_run p Hc).
    destruct (negb _); cbn [snd];
      [rewrite children_with_children; apply list_elem_of_here |].
    destruct (has_lone_surrogate _); cbn [snd].
    - rewrite children_search_error.
      apply list_elem_of_further, list_elem_of_here.
    - cbn. rewrite lookup_insert_eq. apply list_elem_of_here. }
  split; [| apply searchTMDB_uninterrupted].
  intros r data items q found Hbody Hresults Hfound.
  rewrite (search_render_run net r q found Hfound), Hbody, Hresults.
  cbn [snd]. rewrite children_with_children. unfold rendered_onto.
  split; [reflexivity |]. split.
  - intros Hne. destruct found; [contradiction | reflexivity].
  - intros -> ->. reflexivity.
Qed.

Lemma search_clears_then_appends_witness :
  search_run Sample.obscure Overlap.opens_details id (Sample.searching "pitt")
  = search_run Sample.obscure Overlap.opens_details id
      (with_prop "search-input" "value" "pitt" Sample.fresh)
  ∧ Page.children
      (snd (search_resume Sample.obscure
              (AwaitingBody (Sample.response_of [Fixture2.pilot]))
              (Sample.searching "pitt")))
      !! "search-results"
    = Some (search_posters [Sample.fight_club; Fixture2.pilot]).
Proof.
  assert (Hid : keeps_container id) by (intros q H; exact H).
  assert (Hdetails : keeps_container Overlap.opens_details)
    by (intros q H; exact H).
  destruct (search_clears_then_appends Sample.obscure Overlap.opens_details id
              (with_prop "search-input" "value" "pitt" Sample.fresh)
              (search_posters [Sample.fight_club]))
    as (Hsame & _ & Happend & _);
    [vm_compute; eauto | exact Hdetails | exact Hid |].
  split; [exact Hsame |].
  destruct (Happend (Sample.response_of [Fixture2.pilot])
              {| results := Some [Fixture2.pilot] |} [Fixture2.pilot]
              (Sample.searching "pitt") (search_posters [Sample.fight_club]))
    as (_ & Hstays & _); [reflexivity | reflexivity | reflexivity |].
  rewrite Hstays; [reflexivity | discriminate].
Defined.

(** ** The search URL *)

Lemma code_bound (c : ascii) : (code c < 256)%N.
Proof. apply N_ascii_bounded. Qed.

Lemma hex_digit_code (n : N) :
  (n < 16)%N →
  code (hex_digit n) = (if (n <? 10)%N then 48 + n else 55 + n)%N.
Proof.
  intros Hn. unfold code, hex_digit. apply N_ascii_embedding.
  destruct (N.ltb_spec n 10); lia.
Qed.

Lemma hex_digit_unreserved (n : N) :
  (n < 16)%N → unreserved (hex_digit n) = true.
Proof.
  intros Hn.
  assert (H : (n = 0 ∨ n = 1 ∨ n = 2 ∨ n = 3 ∨ n = 4 ∨ n = 5 ∨ n = 6 ∨ n = 7
               ∨ n = 8 ∨ n = 9 ∨ n = 10 ∨ n = 11 ∨ n = 12 ∨ n = 13 ∨ n = 14
               ∨ n = 15)%N) by lia.
  repeat (destruct H as [-> | H]; [reflexivity |]). now subst n.
Qed.

Lemma hex_digit_inj (n m : N) :
  (n < 16)%N → (m < 16)%N → hex_digit n = hex_digit m → n = m.
Proof.
  intros Hn Hm H. apply (f_equal code) in H.
  rewrite !hex_digit_code in H by assumption.
  destruct (N.ltb_spec n 10), (N.ltb_spec m 10); lia.
Qed.

Lemma code_inj (c d : ascii) : code c = code d → c = d.
Proof.
  unfold code. intros H. apply (f_equal ascii_of_N) in H.
  now rewrite !ascii_N_embedding in H.
Qed.

(** X24: the query that [searchTMDB] puts in its URL is made of
    unreserved characters and percent signs only, so no character of the
    input can end the parameter or start another one; and the encoding
    loses nothing: two queries with the same search URL are the same
    query. *)
Theorem search_url_safe (query : string) :
  (∀ c, c ∈ list_ascii_of_string (encodeURIComponent query) →
        unreserved c = true ∨ c = "%"%char)
  ∧ (∀ c, c ∈ list_ascii_of_string (encodeURIComponent query) →
          c ≠ "&"%char ∧ c ≠ "="%char ∧ c ≠ "#"%char ∧ c ≠ "?"%char
          ∧ c ≠ "/"%char ∧ c ≠ " "%char)
  ∧ (∀ other, search_url other = search_url query → other = query).
Proof.
  assert (Hsafe : ∀ s c, c ∈ list_ascii_of_string (encodeURIComponent s) →
                         unreserved c = true ∨ c = "%"%char).
  { induction s as [| a s IH]; intros c Hc; [now apply elem_of_nil in Hc |].
    cbn [encodeURIComponent] in Hc.
    pose proof (code_bound a) as Ha.
    destruct (unreserved a) eqn:Hu; cbn [list_ascii_of_string] in Hc.
    - apply elem_of_cons in Hc as [-> | Hc]; auto.
    - apply elem_of_cons in Hc as [-> | Hc]; [auto |].
      apply elem_of_cons in Hc as [-> | Hc].
      { left. apply hex_digit_unreserved. apply N.Div0.div_lt_upper_bound. lia. }
      apply elem_of_cons in Hc as [-> | Hc]; [| auto].
      left. apply hex_digit_unreserved. now apply N.mod_lt. }
  split; [apply Hsafe |]. split.
  - intros c Hc. destruct (Hsafe query c Hc) as [Hu | ->].
    + repeat split; intros ->; discriminate Hu.
    + repeat split; discriminate.
  - assert (Hinj : ∀ s t, encodeURIComponent s = encodeURIComponent t → s = t).
    { induction s as [| a s IH]; intros [| b t] H; cbn [encodeURIComponent] in H.
      - reflexivity.
      - destruct (unreserved b); discriminate H.
      - destruct (unreserved a); discriminate H.
      - pose proof (code_bound a) as Ha. pose proof (code_bound b) as Hb.
        destruct (unreserved a) eqn:Hua, (unreserved b) eqn:Hub.
        + injection H as -> H. f_equal. now apply IH.
        + injection H as -> _. discriminate Hua.
        + injection H as <- _. discriminate Hub.
        + injection H as H1 H2 H.
          apply hex_digit_inj in H1;
            [| apply N.Div0.div_lt_upper_bound; lia
             | apply N.Div0.div_lt_upper_bound; lia].
          apply hex_digit_inj in H2; [| now apply N.mod_lt | now apply N.mod_lt].
          assert (Hcode : code a = code b).
          { rewrite (N.div_mod (code a) 16), (N.div_mod (code b) 16) by lia.
            now rewrite H1, H2. }
          apply code_inj in Hcode. subst b. f_equal. now apply IH. }
    intros other H. unfold search_url in H. apply Hinj.
    unfold API_CONFIG.BASE_URL, API_CONFIG.KEY in H.
    cbn [String.append] in H. now simplify_eq.
Qed.

Lemma search_url_safe_witness :
¬ ("&"%char ∈ list_ascii_of_string (encodeURIComponent "tom & jerry"))
  ∧ search_url "tom & jerry"
    = "https://api.themoviedb.org/3/search/multi?api_key=420dd26414b8bcb319a5d49051b6ac25&query=tom%20%26%20jerry".
Proof.
  split; [| reflexivity].
  intros Hin.
  destruct (search_url_safe "tom & jerry") as (_ & Hnone & _).
  destruct (Hnone "&"%char Hin) as [Hamp _]. now apply Hamp.
Defined.

(** ** Blank queries *)

Lemma append_cons (a : ascii) (s t : string) :
  String a s +:+ t = String a (s +:+ t).
Proof. reflexivity. Qed.

Lemma append_empty (t : string) : "" +:+ t = t.
Proof. reflexivity. Qed.

Lemma append_nil_r (s : string) : s +:+ "" = s.
Proof.
  induction s as [| a s' IH]; [reflexivity |].
  now rewrite append_cons, IH.
Qed.

Lemma append_assoc (a b c : string) : (a +:+ b) +:+ c = a +:+ (b +:+ c).
Proof.
  induction a as [| x a' IH]; [reflexivity |].
  now rewrite !append_cons, IH.
Qed.

Lemma rev_app_append (s acc : string) :
  String.rev_app s acc = String.rev s +:+ acc.
Proof.
  revert acc. induction s as [| a s' IH]; intros acc; [reflexivity |].
  unfold String.rev. cbn [String.rev_app].
  rewrite (IH (String a acc)), (IH (String a "")), append_assoc. reflexivity.
Qed.

Lemma rev_cons (a : ascii) (s : string) :
  String.rev (String a s) = String.rev s +:+ String a "".
Proof. unfold String.rev at 1. cbn [String.rev_app]. apply rev_app_append. Qed.

Lemma rev_append (s t : string) :
  String.rev (s +:+ t) = String.rev t +:+ String.rev s.
Proof.
  induction s as [| a s' IH].
  - now rewrite append_empty, append_nil_r.
  - now rewrite append_cons, !rev_cons, IH, append_assoc.
Qed.

Lemma rev_involutive (s : string) : String.rev (String.rev s) = s.
Proof.
  induction s as [| a s' IH]; [reflexivity |].
  now rewrite rev_cons, rev_append, IH.
Qed.

Lemma whitespace_only_app (s t : string) :
  whitespace_only s → whitespace_only t → whitespace_only (s +:+ t).
Proof.
  induction 1 as [| w s Hw _ IH]; intros Ht; [exact Ht |].
  rewrite append_assoc. apply blank_cons; auto.
Qed.

Lemma whitespace_only_token (w : string) :
  w ∈ white_space → whitespace_only w.
Proof.
  intros Hw. rewrite <- (append_nil_r w). apply blank_cons; [exact Hw |].
  apply blank_empty.
Qed.

Lemma is_white_space (w : string) :
  existsb (String.eqb w) white_space = true → w ∈ white_space.
Proof.
  intros H. apply existsb_exists in H as (x & Hin & Hx).
  apply String.eqb_eq in Hx. subst x. now apply list_elem_of_In.
Qed.

Lemma trimStart_eq (a : ascii) (s1 : string) :
  trimStart (String a s1)
  = if is_ws1 a then trimStart s1
    else match s1 with
         | String b s2 =>
             if is_ws2 a b then trimStart s2
             else match s2 with
                  | String c s3 =>
                      if is_ws3 a b c then trimStart s3 else String a s1
                  | "" => String a s1
                  end
         | "" => String a s1
         end.
Proof. reflexivity. Qed.

Lemma trimStart_rev_eq (a : ascii) (s1 : string) :
  trimStart_rev (String a s1)
  = if is_ws1 a then trimStart_rev s1
    else match s1 with
         | String b s2 =>
             if is_ws2 b a then trimStart_rev s2
             else match s2 with
                  | String c s3 =>
                      if is_ws3 c b a then trimStart_rev s3 else String a s1
                  | "" => String a s1
                  end
         | "" => String a s1
         end.
Proof. reflexivity. Qed.

(** What [trimStart] strips is white space. *)
Lemma trimStart_split (n : nat) :
  ∀ s, (String.length s ≤ n)%nat →
       ∃ w, whitespace_only w ∧ s = w +:+ trimStart s.
Proof.
  induction n as [| n IH]; intros s Hlen.
  - destruct s; [| cbn in Hlen; lia]. exists "". split; [apply blank_empty | reflexivity].
  - destruct s as [| a s1]; [exists ""; split; [apply blank_empty | reflexivity] |].
    assert (Hstay : ∃ w, whitespace_only w ∧ String a s1 = w +:+ String a s1).
    { exists "". split; [apply blank_empty | reflexivity]. }
    rewrite trimStart_eq. cbn [String.length] in Hlen.
    destruct (is_ws1 a) eqn:H1.
    { destruct (IH s1) as (w & Hw & Hs); [lia |].
      exists (String a "" +:+ w). split.
      - apply blank_cons; [now apply is_white_space | exact Hw].
      - rewrite ?append_cons, ?append_empty. now rewrite <- Hs. }
    destruct s1 as [| b s2]; [exact Hstay |]. cbn [String.length] in Hlen.
    destruct (is_ws2 a b) eqn:H2.
    { destruct (IH s2) as (w & Hw & Hs); [lia |].
      exists (String a (String b "") +:+ w). split.
      - apply blank_cons; [now apply is_white_space | exact Hw].
      - rewrite ?append_cons, ?append_empty. now rewrite <- Hs. }
    destruct s2 as [| c s3]; [exact Hstay |]. cbn [String.length] in Hlen.
    destruct (is_ws3 a b c) eqn:H3; [| exact Hstay].
    destruct (IH s3) as (w & Hw & Hs); [lia |].
    exists (String a (String b (String c "")) +:+ w). split.
    + apply blank_cons; [now apply is_white_space | exact Hw].
    + rewrite ?append_cons, ?append_empty. now rewrite <- Hs.
Qed.

(** The same from the back: what [trimStart_rev] strips is white space
    read backwards. *)
Lemma trimStart_rev_split (n : nat) :
  ∀ s, (String.length s ≤ n)%nat →
       ∃ w, whitespace_only (String.rev w) ∧ s = w +:+ trimStart_rev s.
Proof.
  induction n as [| n IH]; intros s Hlen.
  - destruct s; [| cbn in Hlen; lia]. exists "". split; [apply blank_empty | reflexivity].
  - destruct s as [| a s1]; [exists ""; split; [apply blank_empty | reflexivity] |].
    assert (Hstay : ∃ w, whitespace_only (String.rev w)
                         ∧ String a s1 = w +:+ String a s1).
    { exists "". split; [apply blank_empty | reflexivity]. }
    rewrite trimStart_rev_eq. cbn [String.length] in Hlen.
    destruct (is_ws1 a) eqn:H1.
    { destruct (IH s1) as (w & Hw & Hs); [lia |].
      exists (String a w). split.
      - rewrite rev_cons. apply whitespace_only_app; [exact Hw |].
        now apply whitespace_only_token, is_white_space.
      - rewrite ?append_cons, ?append_empty. now rewrite <- Hs. }
    destruct s1 as [| b s2]; [exact Hstay |]. cbn [String.length] in Hlen.
    destruct (is_ws2 b a) eqn:H2.
    { destruct (IH s2) as (w & Hw & Hs); [lia |].
      exists (String a (String b w)). split.
      - rewrite !rev_cons, append_assoc. apply whitespace_only_app; [exact Hw |].
        now apply whitespace_only_token, is_white_space.
      - rewrite ?append_cons, ?append_empty. now rewrite <- Hs. }
    destruct s2 as [| c s3]; [exact Hstay |]. cbn [String.length] in Hlen.
    destruct (is_ws3 c b a) eqn:H3; [| exact Hstay].
    destruct (IH s3) as (w & Hw & Hs); [lia |].
    exists (String a (String b (String c w))). split.
    + rewrite !rev_cons, !append_assoc. apply whitespace_only_app; [exact Hw |].
      now apply whitespace_only_token, is_white_space.
    + rewrite ?append_cons, ?append_empty. now rewrite <- Hs.
Qed.

(** [trim] leaves nothing exactly of the strings of white space. *)
Lemma trim_empty_iff (s : string) : trim s = "" ↔ whitespace_only s.
Proof.
  split; [| apply trim_whitespace_only].
  unfold trim, trimEnd. intros H.
  destruct (trimStart_split (String.length s) s) as (w & Hw & Hs); [lia |].
  set (t := trimStart s) in *.
  assert (Hrev : trimStart_rev (String.rev t) = "").
  { apply (f_equal String.rev) in H. now rewrite rev_involutive in H. }
  destruct (trimStart_rev_split (String.length (String.rev t)) (String.rev t))
    as (w' & Hw' & Ht); [lia |].
  rewrite Hrev, append_nil_r in Ht.
  rewrite <- Ht, rev_involutive in Hw'.
  rewrite Hs. now apply whitespace_only_app.
Qed.

(** X25: in a page that has the results container, a call of
    [searchTMDB] issues a request exactly when the input is not blank,
    that is not made of white-space characters only (the empty input
    included), and its trimmed text has no lone surrogate, which
    [encodeURIComponent] refuses.  The request is issued by the first
    stage, before any await, and there is exactly one, to the search URL
    of the trimmed text; in the other two cases the call is over after
    the first stage with the request log as it was.  The stages after an
    await issue no request, in any page. *)
Theorem searchTMDB_requests_iff (net : Network) (p : Page.t) :
  is_Some (Page.children p !! "search-results") →
  let value := read_prop p "search-input" "value" in
  let started := snd (search_start p) in
  (whitespace_only value →
   fst (search_start p) = Return None
   ∧ Page.requests started = Page.requests p)
  ∧ (¬ whitespace_only value → has_lone_surrogate (trim value) = true →
     fst (search_start p) = Return None
     ∧ Page.requests started = Page.requests p)
  ∧ (¬ whitespace_only value → has_lone_surrogate (trim value) = false →
     fst (search_start p)
     = Return (Some (AwaitingResponse (search_url (trim value))))
     ∧ Page.requests started = Page.requests p ++ [search_url (trim value)])
  ∧ (Page.requests started ≠ Page.requests p
     ↔ ¬ whitespace_only value ∧ has_lone_surrogate (trim value) = false)
  ∧ (∀ s q, Page.requests (snd (search_resume net s q)) = Page.requests q).
Proof.
  intros Hc value started. subst started.
  assert (Hstart := search_start_run p Hc). fold value in Hstart.
  assert (Hblank : whitespace_only value →
    fst (search_start p) = Return None
    ∧ Page.requests (snd (search_start p)) = Page.requests p).
  { intros Hw. apply trim_empty_iff in Hw. rewrite Hstart, Hw.
    split; reflexivity. }
  assert (Hlone : ¬ whitespace_only value →
    has_lone_surrogate (trim value) = true →
    fst (search_start p) = Return None
    ∧ Page.requests (snd (search_start p)) = Page.requests p).
  { intros Hw Hs. rewrite <- trim_empty_iff in Hw.
    rewrite Hstart, (nonempty_true _ Hw), Hs. split; reflexivity. }
  assert (Hquery : ¬ whitespace_only value →
    has_lone_surrogate (trim value) = false →
    fst (search_start p)
    = Return (Some (AwaitingResponse (search_url (trim value))))
    ∧ Page.requests (snd (search_start p))
      = Page.requests p ++ [search_url (trim value)]).
  { intros Hw Hs. rewrite <- trim_empty_iff in Hw.
    rewrite Hstart, (nonempty_true _ Hw), Hs. split; reflexivity. }
  split; [exact Hblank |]. split; [exact Hlone |]. split; [exact Hquery |].
  split.
  - split.
    + intros Hne.
      destruct (decide (trim value = "")) as [Hq | Hq].
      { apply trim_empty_iff in Hq. now destruct (Hblank Hq). }
      rewrite <- trim_empty_iff. split; [exact Hq |].
      destruct (has_lone_surrogate (trim value)) eqn:Hs; [| reflexivity].
      rewrite <- trim_empty_iff in Hlone. now destruct (Hlone Hq eq_refl).
    + intros [Hw Hs] Hsame. destruct (Hquery Hw Hs) as [_ Hreq].
      rewrite Hreq in Hsame. apply (f_equal length) in Hsame.
      rewrite length_app in Hsame. cbn [length] in Hsame. lia.
  - intros s q. apply (unchanged_search_resume Page.requests); reflexivity.
Qed.

Lemma searchTMDB_requests_iff_witness :
  Page.requests (snd (search_start (Sample.searching "   "))) = []
  ∧ Page.requests (snd (search_start (Sample.searching Overlap.half_emoji))) = []
  ∧ Page.requests (snd (search_start (Sample.searching " pitt ")))
    = ["https://api.themoviedb.org/3/search/multi?api_key=420dd26414b8bcb319a5d49051b6ac25&query=pitt"].
Proof.
  split; [| split].
  - destruct (searchTMDB_requests_iff Sample.obscure (Sample.searching "   ")
                (searching_ready _)) as (Hblank & _).
    destruct Hblank as [_ Hreq]; [apply (spaces_whitespace_only 3) |].
    rewrite Hreq. reflexivity.
  - destruct (searchTMDB_requests_iff Sample.obscure
                (Sample.searching Overlap.half_emoji) (searching_ready _))
      as (_ & Hlone & _).
    destruct Hlone as [_ Hreq]; [| reflexivity |].
    + intros Hw. apply trim_empty_iff in Hw. vm_compute in Hw. discriminate Hw.
    + rewrite Hreq. reflexivity.
  - destruct (searchTMDB_requests_iff Sample.obscure (Sample.searching " pitt ")
                (searching_ready _)) as (_ & _ & Hquery & _).
    destruct Hquery as [_ Hreq]; [| reflexivity |].
    + intros Hw. apply trim_empty_iff in Hw. vm_compute in Hw. discriminate Hw.
    + rewrite Hreq. reflexivity.
Defined.
